(** * GreenSKU carbon model: the savings notebook, embedded and verified

    This development embeds the computational cells of
    [notebooks/carbon_savings.ipynb] and proves properties of them:

    - [calculate_average_dc_carbon_intensity]  (carbon-intensity estimator)
    - [get_fan_power_model]                    (linear fan-power fit)
    - [calculate_steps]                        (per-config savings table)
    - [process_csv]                            (cluster-level aggregation)
    - [cluster_savings], [cluster_dc_fraction], [dc_savings]
                                               (datacenter-level rollup)
    - [get_dc_region_intensity]                (intensity of one region)
    - [scan]                                   (carbon-intensity scan)

    Numbers.  The notebook computes on binary64 floats and int64 columns.
    The cells are embedded twice.

    In the first embedding a float is a [pyfloat]: either a finite value
    carried as an exact rational ([Q]), or one of the IEEE special values
    [PInf], [NInf], [NaN] that pandas and numpy produce on a division by
    zero; integers are unbounded.  Rounding of the finite results to 53 bits
    and the sign of zero are not modelled; everything else (which operation
    yields a special value, which Python call raises which exception on it)
    follows Python, numpy and pandas.  This is the embedding for the
    real-valued outputs and for what relates them to one another: carbon
    totals, percentages, rollups, bounds, outcomes.

    The second embedding, [Machine], is for the integers the notebook
    derives from floats, which depend on the last bit: the growth buffers
    ([math.ceil]), the savings of Table V and the reported datacenter figure
    ([int(round(...))]), and the rank that [numpy.polyfit] finds.  There the
    floats that reach a conversion are binary64 numbers with correctly
    rounded operations ([B64], on the standard library's [SpecFloat]), and
    int64 columns wrap around; the real-valued columns computed from the
    integers stay exact rationals.

    Inputs.  Reading the CSV files is left to pandas: a function that takes
    a path in the notebook takes here the frame [pd.read_csv] loads from it,
    as a list of rows.  [OriginalClusterSize] is an integer column (the
    notebook casts it with [astype(int)]), the two new-cluster counts are
    integers as well; all three are int64 columns, so their entries lie in
    the int64 range.

    Collaborators that are not part of the notebook ([ServerCarbon],
    [ServerMaintenance], the parameter dictionary) are section variables;
    the figures they hand out are finite. *)

From Stdlib Require Import QArith Qround Qabs ZArith List Ascii String Bool Lia Lqa.
From Stdlib Require Import Setoid Morphisms Qminmax.
From Stdlib Require SpecFloat.
Import ListNotations.

Local Open Scope Q_scope.

(* ===================================================================== *)
(** ** Python values: exceptions, results, floats                        *)
(* ===================================================================== *)

Module Py.

(** The exceptions the modelled cells can raise. *)
Inductive exn : Type :=
| ZeroDivisionError   (* float division by zero; numpy.average on zero weights *)
| ValueError          (* int()/math.ceil of NaN *)
| OverflowError       (* int()/math.ceil of an infinity *)
| TypeError           (* numpy.polyfit on an empty vector; arithmetic on a str *)
| LinAlgError         (* numpy.linalg.lstsq: SVD did not converge *)
| IndexError          (* list index out of range *)
| KeyError.           (* missing dict key *)

Inductive result (A : Type) : Type :=
| Ok (a : A)
| Raise (e : exn).
Arguments Ok {A} a.
Arguments Raise {A} e.

Definition bind {A B} (r : result A) (k : A -> result B) : result B :=
  match r with
  | Ok a => k a
  | Raise e => Raise e
  end.

Definition raised {A} (r : result A) : Prop := exists e, r = Raise e.

Fixpoint mapM {A B} (f : A -> result B) (l : list A) : result (list B) :=
  match l with
  | [] => Ok []
  | a :: t => bind (f a) (fun b => bind (mapM f t) (fun bs => Ok (b :: bs)))
  end.

(** A binary64 value: finite (exact rational) or special. *)
Inductive pyfloat : Type :=
| Fin (q : Q)
| PInf
| NInf
| NaN.

(** Same value: finite values are compared as rationals, and a special value
    only equals itself (this is identity of values, not IEEE [==]). *)
Definition feq (a b : pyfloat) : Prop :=
  match a, b with
  | Fin x, Fin y => x == y
  | PInf, PInf | NInf, NInf | NaN, NaN => True
  | _, _ => False
  end.

Definition feqb (a b : pyfloat) : bool :=
  match a, b with
  | Fin x, Fin y => Qeq_bool x y
  | PInf, PInf | NInf, NInf | NaN, NaN => true
  | _, _ => false
  end.

Definition is_finite (a : pyfloat) : bool :=
  match a with Fin _ => true | _ => false end.

Definition isna (a : pyfloat) : bool :=
  match a with NaN => true | _ => false end.

(** Sign of a rational as a comparison with zero. *)
Definition Qsgn (q : Q) : comparison := Qcompare q 0.

Definition fopp (a : pyfloat) : pyfloat :=
  match a with
  | Fin q => Fin (- q)
  | PInf => NInf
  | NInf => PInf
  | NaN => NaN
  end.

(** The infinity with the sign of [q], NaN when [q] is zero. *)
Definition inf_of_sign (q : Q) (pos : pyfloat) : pyfloat :=
  match Qsgn q with
  | Gt => pos
  | Lt => fopp pos
  | Eq => NaN
  end.

Definition fadd (a b : pyfloat) : pyfloat :=
  match a, b with
  | NaN, _ | _, NaN => NaN
  | Fin x, Fin y => Fin (x + y)
  | PInf, NInf | NInf, PInf => NaN
  | PInf, _ | _, PInf => PInf
  | NInf, _ | _, NInf => NInf
  end.

Definition fmul (a b : pyfloat) : pyfloat :=
  match a, b with
  | NaN, _ | _, NaN => NaN
  | Fin x, Fin y => Fin (x * y)
  | Fin x, PInf | PInf, Fin x => inf_of_sign x PInf
  | Fin x, NInf | NInf, Fin x => inf_of_sign x NInf
  | PInf, PInf | NInf, NInf => PInf
  | PInf, NInf | NInf, PInf => NInf
  end.

(** numpy's true division: no exception, a zero divisor gives an infinity
    with the sign of the dividend, or NaN for 0/0. *)
Definition fdiv (a b : pyfloat) : pyfloat :=
  match a, b with
  | NaN, _ | _, NaN => NaN
  | Fin x, Fin y =>
      if Qeq_bool y 0 then inf_of_sign x PInf else Fin (x / y)
  | Fin _, PInf | Fin _, NInf => Fin 0
  | PInf, Fin y => match Qsgn y with Lt => NInf | _ => PInf end
  | NInf, Fin y => match Qsgn y with Lt => PInf | _ => NInf end
  | _, _ => NaN
  end.

(** Python's own float division raises instead. *)
Definition py_truediv (x y : Q) : result Q :=
  if Qeq_bool y 0 then Raise ZeroDivisionError else Ok (x / y).

(** [math.ceil]: an int, or an exception on a special value. *)
Definition math_ceil (a : pyfloat) : result Z :=
  match a with
  | Fin q => Ok (Qceiling q)
  | NaN => Raise ValueError
  | PInf | NInf => Raise OverflowError
  end.

(** [round(x, 0)] rounds half to even. *)
Definition round_half_even (q : Q) : Z :=
  let f := Qfloor q in
  match Qcompare (q - inject_Z f) (1 # 2) with
  | Lt => f
  | Gt => (f + 1)%Z
  | Eq => if Z.even f then f else (f + 1)%Z
  end.

(** [int(round(x, 0))]. *)
Definition int_round (a : pyfloat) : result Z :=
  match a with
  | Fin q => Ok (round_half_even q)
  | NaN => Raise ValueError
  | PInf | NInf => Raise OverflowError
  end.

Fixpoint fsum (l : list pyfloat) : pyfloat :=
  match l with
  | [] => Fin 0
  | a :: t => fadd a (fsum t)
  end.

Fixpoint Qsum (l : list Q) : Q :=
  match l with
  | [] => 0
  | a :: t => a + Qsum t
  end.

Fixpoint Zsum (l : list Z) : Z :=
  match l with
  | [] => 0%Z
  | a :: t => (a + Zsum t)%Z
  end.

Definition Qlen {A} (l : list A) : Q := inject_Z (Z.of_nat (List.length l)).

(** [pandas.Series.mean()] with its default [skipna=True]: NaN entries are
    dropped, the rest is summed and divided by their count; NaN when nothing
    is left.  Infinities are not NA and take part in the sum. *)
Definition series_mean (s : list pyfloat) : pyfloat :=
  let kept := filter (fun a => negb (isna a)) s in
  match kept with
  | [] => NaN
  | _ => fdiv (fsum kept) (Fin (Qlen kept))
  end.

(** [numpy.average(a, weights=w)] for integer weights: raises when the
    weights sum to zero, else sum(a*w)/sum(w); NaN is not skipped. *)
Definition np_average (a : list pyfloat) (w : list Z) : result pyfloat :=
  let scl := Zsum w in
  if (scl =? 0)%Z then Raise ZeroDivisionError
  else Ok (fdiv (fsum (map (fun aw => fmul (fst aw) (Fin (inject_Z (snd aw))))
                           (combine a w)))
                (Fin (inject_Z scl))).

(** The largest entry of a non-empty series. *)
Fixpoint Qmax_list (x : Q) (l : list Q) : Q :=
  match l with
  | [] => x
  | y :: t => Qmax_list (if Qle_bool x y then y else x) t
  end.

(** [pandas.Series.max()]: NaN on an empty series. *)
Definition series_max (l : list Q) : pyfloat :=
  match l with
  | [] => NaN
  | x :: t => Fin (Qmax_list x t)
  end.

Fixpoint all_finite (l : list pyfloat) : option (list Q) :=
  match l with
  | [] => Some []
  | Fin q :: t => option_map (cons q) (all_finite t)
  | _ :: _ => None
  end.

(** [numpy.polyfit(x, y, 1)], returning (slope, intercept).

    - an empty [x] raises TypeError (so does a length mismatch);
    - polyfit scales each column of the Vandermonde matrix by its norm
      before calling [lstsq]; when every [x] is zero that norm is zero, the
      scaled matrix holds NaN and [lstsq] raises LinAlgError;
    - a non-finite [y] propagates to both coefficients;
    - when the [x] are not all equal the least-squares line is unique;
    - when they are all equal to [x0 <> 0] the matrix has rank 1: polyfit
      warns (RankWarning, not an exception) and returns the minimum-norm
      solution of the scaled system, slope [ybar / (2 x0)] and intercept
      [ybar / 2]. *)
Definition np_polyfit1 (x : list Q) (y : list pyfloat)
  : result (pyfloat * pyfloat) :=
  match x with
  | [] => Raise TypeError
  | x0 :: _ =>
      if negb (Nat.eqb (List.length x) (List.length y)) then Raise TypeError
      else if forallb (fun a => Qeq_bool a 0) x then Raise LinAlgError
      else match all_finite y with
           | None => Ok (NaN, NaN)
           | Some ys =>
               let n := Qlen x in
               let sx := Qsum x in
               let sy := Qsum ys in
               let sxx := Qsum (map (fun a => a * a) x) in
               let sxy := Qsum (map (fun p => fst p * snd p) (combine x ys)) in
               let d := n * sxx - sx * sx in
               if Qeq_bool d 0
               then Ok (Fin (sy / n / (2 * x0)), Fin (sy / n / 2))
               else let slope := (n * sxy - sx * sy) / d in
                    Ok (Fin slope, Fin ((sy - slope * sx) / n))
           end
  end.

(** Python values stored in the notebook's dictionaries. *)
Inductive pyval : Type :=
| PInt (z : Z)
| PFloat (q : Q)
| PStr (s : string).

(** A dict keeps its keys in insertion order. *)
Definition dict : Type := list (string * pyval).

Fixpoint dict_get (d : dict) (k : string) : option pyval :=
  match d with
  | [] => None
  | (k', v) :: t => if String.eqb k' k then Some v else dict_get t k
  end.

(** [d[k] = v]: overwrite in place, or append a new key. *)
Fixpoint dict_set (d : dict) (k : string) (v : pyval) : dict :=
  match d with
  | [] => [(k, v)]
  | (k', v') :: t =>
      if String.eqb k' k then (k', v) :: t else (k', v') :: dict_set t k v
  end.

Definition getitem (d : dict) (k : string) : result pyval :=
  match dict_get d k with
  | Some v => Ok v
  | None => Raise KeyError
  end.

Definition list_index {A} (l : list A) (i : nat) : result A :=
  match nth_error l i with
  | Some a => Ok a
  | None => Raise IndexError
  end.

(** The numeric value of an int or a float operand. *)
Definition as_num (v : pyval) : result Q :=
  match v with
  | PInt z => Ok (inject_Z z)
  | PFloat q => Ok q
  | PStr _ => Raise TypeError
  end.

(** [s.split(c)] for a one-character separator: always at least one piece. *)
Fixpoint split (c : Ascii.ascii) (s : string) : list string :=
  match s with
  | EmptyString => [EmptyString]
  | String a t =>
      if Ascii.eqb a c then EmptyString :: split c t
      else match split c t with
           | [] => [String a EmptyString]
           | p :: ps => String a p :: ps
           end
  end.

End Py.
Import Py.

Declare Scope py_scope.
Notation "x <- c1 ;; c2" := (bind c1 (fun x => c2))
  (at level 61, c1 at next level, right associativity) : py_scope.
Local Open Scope py_scope.

(* ===================================================================== *)
(** ** The notebook                                                      *)
(* ===================================================================== *)

(** *** Carbon intensity *)

(** One line of the datacenter table. *)
Record dc_record : Type := {
  Region : string;
  Renewable_pct : Q;              (* 'Renewable %' *)
  Avg_Renewable_Intensity : Q;    (* gCO2e/kWh *)
  Avg_Grid_Intensity : Q          (* gCO2e/kWh *)
}.

(** The ['carbon_intensity'] column, after the conversion to kgCO2e/kWh. *)
Definition carbon_intensity (r : dc_record) : Q :=
  (Renewable_pct r / 100 * Avg_Renewable_Intensity r
   + (1 - Renewable_pct r / 100) * Avg_Grid_Intensity r) / 1000.

Definition calculate_average_dc_carbon_intensity (dc_data : list dc_record)
  : pyfloat :=
  series_mean (map (fun r => Fin (carbon_intensity r)) dc_data).

(** *** Fan power *)

Record fan_sample : Type := {
  server_power : Q;
  fan_power : Q
}.

(** [plot] only drives matplotlib and has no part in the returned pair. *)
Definition get_fan_power_model (df : list fan_sample) (plot normalized : bool)
  : result (pyfloat * pyfloat) :=
  let fan := map fan_power df in
  let use_fan :=
    if normalized
    then map (fun y => fdiv (Fin y) (series_max fan)) fan
    else map Fin fan in
  linear_model <- np_polyfit1 (map server_power df) use_fan ;;
  let slope := fst linear_model in
  let intercept := snd linear_model in
  Ok (slope, intercept).

(** *** Datacenter-level constants (carbon breakdown of Figure 1) *)

Definition operational_it : Q := 868 # 1000.
Definition embodied_it : Q := 948 # 1000.
Definition operational_compute_of_it : Q := 779 # 1000.
Definition embodied_compute_of_it : Q := 442 # 1000.

Definition compute_operational : Q := operational_it * operational_compute_of_it.
Definition compute_embodied : Q := embodied_it * embodied_compute_of_it.

(** One row of the cluster table, and the same row with the columns
    [process_csv] adds. *)
Record cluster_row : Type := {
  OriginalClusterSize : Z;
  NewClusterSize_Baseline : Z;
  NewClusterSize_GreenSKU : Z
}.

Record cluster_out : Type := {
  row : cluster_row;
  num_buffer : Q;
  num_og_buffer : Z;
  start_og_carbon : Q;
  total_num_buffer : Z;
  total_carbon : Q;
  perc_saved_carbon : pyfloat
}.

(** What the notebook reads from a [ServerCarbon] object. *)
Record ServerCarbon_obj : Type := {
  get_operational_per_sellable_core : Q;
  get_embodied_per_sellable_core : Q;
  get_carbon_per_sellable_core : Q;
  get_per_server_carbon : Q;
  get_vcores : Q;
  get_rack_perc_operational : Q
}.

(** What it reads from a [ServerMaintenance] object. *)
Record ServerMaintenance_obj : Type := {
  get_AFRs : Q
}.

Section Notebook.

(** The parameter dictionary ([EVAL_PARAMS] and its overrides). *)
Variable Params : Type.

(** [ServerCarbon(config, overwrite_params=..., data_source_dir=...)]. *)
Variable ServerCarbon : string -> Params -> option string -> ServerCarbon_obj.

(** [ServerMaintenance(config, afr_yaml, overwrite_params=..., carbon_data_dir=...)]. *)
Variable ServerMaintenance :
  string -> string -> Params -> string -> ServerMaintenance_obj.

(** *** Table V: per-config savings *)

Definition info_dict_of (sc : ServerCarbon_obj) : dict :=
  [ ("operational"%string, PFloat (get_operational_per_sellable_core sc));
    ("embodied"%string, PFloat (get_embodied_per_sellable_core sc));
    ("carbon"%string, PFloat (get_carbon_per_sellable_core sc)) ].

(** [int(round((ref - v)*100 / ref, 0))]; the division is Python's and
    raises on a zero reference. *)
Definition saving (ref v : pyval) : result pyval :=
  r <- as_num ref ;;
  x <- as_num v ;;
  q <- py_truediv ((r - x) * 100) r ;;
  Ok (PInt (round_half_even q)).

(** [for k, v in info_dict.items(): savings_dict[k] = ...] against the
    reference entry [ref_info]. *)
Fixpoint savings_loop (items ref_info savings_dict : dict) : result dict :=
  match items with
  | [] => Ok savings_dict
  | (k, v) :: rest =>
      r <- getitem ref_info k ;;
      s <- saving r v ;;
      savings_loop rest ref_info (dict_set savings_dict k s)
  end.

(** [for k, v in info_dict.items(): savings_dict[k] = 0]. *)
Fixpoint zero_loop (items savings_dict : dict) : dict :=
  match items with
  | [] => savings_dict
  | (k, _) :: rest => zero_loop rest (dict_set savings_dict k (PInt 0))
  end.

(** The carbon entry rebuilt from the operational and embodied entries. *)
Definition blend (frac : option Q) (savings_dict : dict) : result dict :=
  match frac with
  | None => Ok savings_dict
  | Some f =>
      o <- getitem savings_dict "operational" ;;
      e <- getitem savings_dict "embodied" ;;
      on <- as_num o ;;
      en <- as_num e ;;
      Ok (dict_set savings_dict "carbon" (PFloat (on * f + en * (1 - f))))
  end.

(** The first loop of [calculate_steps], from iteration [i] on. *)
Fixpoint steps_loop (frac : option Q) (to_first : bool)
    (override_params : Params) (carbon_data : option string)
    (i : nat) (configs : list string) (all_info all_savings : list dict)
  : result (list dict * list dict) :=
  match configs with
  | [] => Ok (all_info, all_savings)
  | config :: rest =>
      let sc := ServerCarbon config override_params carbon_data in
      let info_dict := info_dict_of sc in
      savings_dict <-
        (if (0 <? i)%nat
         then ref_info <- list_index all_info (if to_first then 0 else i - 1)%nat ;;
              savings_loop info_dict ref_info []
         else Ok (zero_loop info_dict [])) ;;
      let all_info := all_info ++ [info_dict] in
      savings_dict <- blend frac savings_dict ;;
      steps_loop frac to_first override_params carbon_data
        (S i) rest all_info (all_savings ++ [savings_dict])
  end.

(** [config.split("/")[-1].split(".")[0]]. *)
Definition config_name (config : string) : string :=
  hd EmptyString (split "."%char (last (split "/"%char config) EmptyString)).

(** [{k: d[k] for k in ["config"] + list(d.keys()) if k in d}]. *)
Definition config_first (d : dict) : dict :=
  fold_left
    (fun acc k => match dict_get d k with
                  | Some v => dict_set acc k v
                  | None => acc
                  end)
    ("config"%string :: map fst d) [].

(** The second loop: name each entry and move the name to the front. *)
Fixpoint name_loop (configs : list string) (l : list dict) : result (list dict) :=
  match configs with
  | [] => Ok l
  | config :: rest =>
      match l with
      | [] => Raise IndexError
      | d :: t =>
          t' <- name_loop rest t ;;
          Ok (config_first (dict_set d "config" (PStr (config_name config))) :: t')
      end
  end.

(** [carbon_data] is the [data_source_dir] handed to [ServerCarbon];
    [print_out] only controls printing and is left out. *)
Definition calculate_steps (configs : list string) (frac : option Q)
    (to_first : bool) (override_params : Params) (carbon_data : option string)
  : result (list dict * list dict) :=
  r <- steps_loop frac to_first override_params carbon_data 0 configs [] [] ;;
  all_info <- name_loop configs (fst r) ;;
  all_savings <- name_loop configs (snd r) ;;
  Ok (all_info, all_savings).

(** *** Cluster-level savings *)

Definition afr_yaml : string := "../data/AFR_data/afr_data.yaml".

(** pandas fills the frame column by column; here each row gets all its
    columns in turn.  The only step that can raise inside the frame is
    [math.ceil] on ['total_num_buffer'], which meets the rows in the same
    order either way, so the outcome is the same.  Both rollups are computed
    before the flag is looked at, as in the notebook. *)
Definition process_csv (df : list cluster_row) (og_config new_config : string)
    (params : Params) (buffer : Q) (weight_cluster : bool)
    (data_source_dir : string)
  : result (list cluster_out * pyfloat) :=
  let og_sc := ServerCarbon og_config params (Some data_source_dir) in
  let new_sc := ServerCarbon new_config params (Some data_source_dir) in
  let og_maintenance := ServerMaintenance og_config afr_yaml params data_source_dir in
  let new_maintenance := ServerMaintenance new_config afr_yaml params data_source_dir in
  let og_server_carbon := get_per_server_carbon og_sc in
  let new_server_carbon := get_per_server_carbon new_sc in
  let og_maintenance_overhead := 1 + get_AFRs og_maintenance in
  let new_maintenance_overhead := 1 + get_AFRs new_maintenance in
  df <- mapM (fun r =>
      let n := inject_Z (OriginalClusterSize r) in
      let nb := inject_Z (NewClusterSize_Baseline r) in
      let ng := inject_Z (NewClusterSize_GreenSKU r) in
      let num_buffer := n * buffer in
      num_og_buffer <- math_ceil (Fin num_buffer) ;;
      let start_og_carbon :=
        (n + inject_Z num_og_buffer) * og_server_carbon * og_maintenance_overhead in
      total_num_buffer <-
        math_ceil (fdiv (Fin ((nb * get_vcores og_sc + ng * get_vcores new_sc) * buffer))
                        (Fin (get_vcores og_sc))) ;;
      let total_carbon :=
        (nb + inject_Z total_num_buffer) * og_server_carbon * og_maintenance_overhead
        + ng * new_server_carbon * new_maintenance_overhead in
      let perc_saved_carbon :=
        fdiv (Fin ((start_og_carbon - total_carbon) * 100)) (Fin start_og_carbon) in
      Ok {| row := r;
            num_buffer := num_buffer;
            num_og_buffer := num_og_buffer;
            start_og_carbon := start_og_carbon;
            total_num_buffer := total_num_buffer;
            total_carbon := total_carbon;
            perc_saved_carbon := perc_saved_carbon |}) df ;;
  let average_saved_carbon := series_mean (map perc_saved_carbon df) in
  weighted_average_saved_carbon <-
    np_average (map perc_saved_carbon df)
               (map (fun o => OriginalClusterSize (row o)) df) ;;
  if weight_cluster
  then Ok (df, weighted_average_saved_carbon)
  else Ok (df, average_saved_carbon).

(** *** Datacenter-level savings *)

(** [cluster_savings = int(round(avg_carbon, 0))]. *)
Definition cluster_savings (avg_carbon : pyfloat) : result Z :=
  int_round avg_carbon.

Definition baseline_operational_fraction (baseline_sc : ServerCarbon_obj) : Q :=
  get_rack_perc_operational baseline_sc / 100.

Definition cluster_dc_fraction (baseline_sc : ServerCarbon_obj) : Q :=
  compute_operational * baseline_operational_fraction baseline_sc
  + compute_embodied * (1 - baseline_operational_fraction baseline_sc).

(** [dc_savings = cluster_savings * cluster_dc_fraction], before rounding. *)
Definition dc_savings_product (cluster_savings : Z)
    (baseline_sc : ServerCarbon_obj) : Q :=
  inject_Z cluster_savings * cluster_dc_fraction baseline_sc.

(** [dc_savings = int(round(dc_savings, 0))], the reported figure. *)
Definition dc_savings (cluster_savings : Z) (baseline_sc : ServerCarbon_obj) : Z :=
  round_half_even (dc_savings_product cluster_savings baseline_sc).

(** The three reporting cells in sequence: the weighted cluster average of
    [configs[4]] against [configs[0]], its rounding, and the datacenter
    figure. *)
Definition report_savings (cluster_data : list cluster_row)
    (baseline full : string) (EVAL_PARAMS : Params)
  : result (Z * Z) :=
  r <- process_csv cluster_data baseline full EVAL_PARAMS (1 # 10) true
         "../data/carbon_data" ;;
  cs <- cluster_savings (snd r) ;;
  let baseline_sc := ServerCarbon baseline EVAL_PARAMS None in
  Ok (cs, dc_savings cs baseline_sc).

End Notebook.

(* ===================================================================== *)
(** ** Reference formulas and sample inputs                              *)
(* ===================================================================== *)

(** The record-level carbon intensity as the documentation words it, in
    gCO2e/kWh and from the renewable fraction. *)
Definition blended_intensity (renewable_fraction renewable grid : Q) : Q :=
  renewable_fraction * renewable + (1 - renewable_fraction) * grid.

(** [z] is [x] rounded up to the next whole number. *)
Definition rounded_up (x : Q) (z : Z) : Prop :=
  x <= inject_Z z /\ inject_Z z - 1 < x.

(** [z] is a nearest whole number to [x]. *)
Definition nearest_int (x : Q) (z : Z) : Prop :=
  Qabs (x - inject_Z z) <= 1 # 2.

Definition special (a : pyfloat) : Prop :=
  a = NaN \/ a = PInf \/ a = NInf.

(** Sum of the products of two series. *)
Definition Qdot (a : list Q) (w : list Z) : Q :=
  Qsum (map (fun aw => fst aw * inject_Z (snd aw)) (combine a w)).

Definition baseline_yaml : string := "configs/Baseline.yaml".
Definition green_yaml : string := "configs/GreenSKU-Full.yaml".

(** A two-design catalogue for the examples: a baseline server and a
    greener one with half its per-server carbon, no failure overhead. *)
Definition demo_baseline : ServerCarbon_obj :=
  {| get_operational_per_sellable_core := 10;
     get_embodied_per_sellable_core := 20;
     get_carbon_per_sellable_core := 30;
     get_per_server_carbon := 1;
     get_vcores := 96;
     get_rack_perc_operational := 50 |}.

Definition demo_green : ServerCarbon_obj :=
  {| get_operational_per_sellable_core := 8;
     get_embodied_per_sellable_core := 15;
     get_carbon_per_sellable_core := 23;
     get_per_server_carbon := 1 # 2;
     get_vcores := 96;
     get_rack_perc_operational := 40 |}.

Definition demo_ServerCarbon (config : string) (_ : unit) (_ : option string)
  : ServerCarbon_obj :=
  if String.eqb config baseline_yaml then demo_baseline else demo_green.

Definition demo_ServerMaintenance (config : string) (_ : string) (_ : unit)
    (_ : string) : ServerMaintenance_obj :=
  {| get_AFRs := 0 |}.

Definition mk_row (n nb ng : Z) : cluster_row :=
  {| OriginalClusterSize := n;
     NewClusterSize_Baseline := nb;
     NewClusterSize_GreenSKU := ng |}.

Definition demo_process_csv (df : list cluster_row) (new_config : string)
    (buffer : Q) (weight_cluster : bool) :=
  process_csv unit demo_ServerCarbon demo_ServerMaintenance df
    baseline_yaml new_config tt buffer weight_cluster "data".

(** The cluster formulas as the documentation words them, over the figures
    of the two designs: per-server carbon [c], annualized failure rate
    [afr], core count [cores]. *)
Definition spec_buffer_og (buffer_fraction : Q) (r : cluster_row) : Z :=
  Qceiling (inject_Z (OriginalClusterSize r) * buffer_fraction).

Definition spec_baseline_total (buffer_fraction c_base afr_base : Q)
    (r : cluster_row) : Q :=
  (inject_Z (OriginalClusterSize r) + inject_Z (spec_buffer_og buffer_fraction r))
  * c_base * (1 + afr_base).

Definition spec_mixed_buffer (buffer_fraction cores_base cores_alt : Q)
    (r : cluster_row) : Z :=
  Qceiling (buffer_fraction
            * (inject_Z (NewClusterSize_Baseline r) * cores_base
               + inject_Z (NewClusterSize_GreenSKU r) * cores_alt)
            / cores_base).

Definition spec_mixed_total (buffer_fraction c_base afr_base cores_base
    c_alt afr_alt cores_alt : Q) (r : cluster_row) : Q :=
  (inject_Z (NewClusterSize_Baseline r)
   + inject_Z (spec_mixed_buffer buffer_fraction cores_base cores_alt r))
  * c_base * (1 + afr_base)
  + inject_Z (NewClusterSize_GreenSKU r) * c_alt * (1 + afr_alt).


(** The columns of one output row of [process_csv], in terms of the
    documented formulas. *)
Definition row_filled (buffer c_base afr_base cores_base c_alt afr_alt
    cores_alt : Q) (r : cluster_row) (o : cluster_out) : Prop :=
  row o = r
  /\ num_buffer o = inject_Z (OriginalClusterSize r) * buffer
  /\ num_og_buffer o = spec_buffer_og buffer r
  /\ start_og_carbon o == spec_baseline_total buffer c_base afr_base r
  /\ total_num_buffer o = spec_mixed_buffer buffer cores_base cores_alt r
  /\ total_carbon o ==
       spec_mixed_total buffer c_base afr_base cores_base c_alt afr_alt
         cores_alt r
  /\ perc_saved_carbon o =
       fdiv (Fin ((start_og_carbon o - total_carbon o) * 100))
            (Fin (start_og_carbon o)).

(** A cluster of 95 servers, 5 of them replaced. *)
Definition table_95 : list cluster_row := [mk_row 95 90 5].

(** A table whose first cluster is empty. *)
Definition table_with_empty_cluster : list cluster_row :=
  [mk_row 0 0 0; mk_row 100 80 20].

(** Two clusters of sizes 100 and 300 that save 10% and 30% without buffer. *)
Definition table_10_30 : list cluster_row :=
  [mk_row 100 80 20; mk_row 300 120 180].

(** Two clusters split between two copies of the same design. *)
Definition table_split : list cluster_row :=
  [mk_row 100 60 40; mk_row 20 0 20].

(** A cluster of 1000 servers that saves a little over 10.4%. *)
Definition table_1000 : list cluster_row := [mk_row 1000 771 229].

(** One datacenter on 60% renewables, one on none. *)
Definition dc_pair : list dc_record :=
  [ {| Region := "north"; Renewable_pct := 60;
       Avg_Renewable_Intensity := 30; Avg_Grid_Intensity := 400 |};
    {| Region := "south"; Renewable_pct := 0;
       Avg_Renewable_Intensity := 30; Avg_Grid_Intensity := 500 |} ].

Definition sample (x y : Q) : fan_sample :=
  {| server_power := x; fan_power := y |}.

(** The residual of a sample against the line [slope * x + intercept]. *)
Definition residual (slope intercept : Q) (s : fan_sample) : Q :=
  fan_power s - (slope * server_power s + intercept).

(** [n * sum x^2 - (sum x)^2], zero exactly when all [x] are equal. *)
Definition spread (x : list Q) : Q :=
  Qlen x * Qsum (map (fun a => a * a) x) - Qsum x * Qsum x.

(** The percentage saved against a reference, as a whole number:
    [int(round((ref - v) * 100 / ref))]. *)
Definition pct_saving (ref v : Q) : Z :=
  round_half_even ((ref - v) * 100 / ref).

(** The config an entry is compared with: none for the first, else the
    first or the one just before. *)
Definition reference_index (to_first : bool) (i : nat) : option nat :=
  match i with
  | O => None
  | S j => Some (if to_first then O else j)
  end.

(** The three savings of one config against its reference design. *)
Definition expected_metrics (frac : option Q)
    (ref : option ServerCarbon_obj) (sc : ServerCarbon_obj) : dict :=
  let of_metric (get : ServerCarbon_obj -> Q) : Z :=
    match ref with
    | None => 0%Z
    | Some r => pct_saving (get r) (get sc)
    end in
  let operational := of_metric get_operational_per_sellable_core in
  let embodied := of_metric get_embodied_per_sellable_core in
  let carbon :=
    match frac with
    | None => PInt (of_metric get_carbon_per_sellable_core)
    | Some f => PFloat (inject_Z operational * f + inject_Z embodied * (1 - f))
    end in
  [ ("operational"%string, PInt operational);
    ("embodied"%string, PInt embodied);
    ("carbon"%string, carbon) ].

(** The finished savings entry: the config's name, then its savings. *)
Definition expected_savings (frac : option Q) (name : string)
    (ref : option ServerCarbon_obj) (sc : ServerCarbon_obj) : dict :=
  ("config"%string, PStr name) :: expected_metrics frac ref sc.

(** One iteration of the first loop of [calculate_steps], given the design
    it compares with. *)
Definition step_savings (frac : option Q) (ref : option ServerCarbon_obj)
    (sc : ServerCarbon_obj) : result dict :=
  savings_dict <-
    match ref with
    | Some r => savings_loop (info_dict_of sc) (info_dict_of r) []
    | None => Ok (zero_loop (info_dict_of sc) [])
    end ;;
  blend frac savings_dict.

(** Entry [k] of [d] is a number of value [q]. *)
Definition metric_is (d : dict) (k : string) (q : Q) : Prop :=
  exists v x, dict_get d k = Some v /\ as_num v = Ok x /\ x == q.

Definition demo_configs : list string :=
  [baseline_yaml; green_yaml; "configs/GreenSKU-CXL.v2.yaml"%string].


(** A baseline whose rack-level carbon is 31.5% operational: the blended
    compute fraction is then a hair above one half. *)
Definition half_blend_baseline : ServerCarbon_obj :=
  {| get_operational_per_sellable_core := 10;
     get_embodied_per_sellable_core := 20;
     get_carbon_per_sellable_core := 30;
     get_per_server_carbon := 1;
     get_vcores := 96;
     get_rack_perc_operational := 63 # 2 |}.

(* ===================================================================== *)
(** ** The remaining cells                                               *)
(* ===================================================================== *)

(** [get_dc_region_intensity]: the rows whose ['Region'] equals the name
    are selected by a boolean mask, and [.values[0]] takes the first one;
    numpy raises IndexError on an empty selection. *)
Definition get_dc_region_intensity (region_name : string)
    (dc_data : list dc_record) : result pyfloat :=
  let selected :=
    filter (fun r => String.eqb (Region r) region_name) dc_data in
  list_index (map (fun r => Fin (carbon_intensity r)) selected) 0.

Definition dc_record_of (region : string) (pct renewable grid : Q) : dc_record :=
  {| Region := region; Renewable_pct := pct;
     Avg_Renewable_Intensity := renewable; Avg_Grid_Intensity := grid |}.


(** The columns [process_csv] gives a row when the baseline design has
    cores, so that ['total_num_buffer'] is a finite number before
    [math.ceil]. *)
Definition row_columns (buffer c_og afr_og vc_og c_new afr_new vc_new : Q)
    (r : cluster_row) : cluster_out :=
  let n := inject_Z (OriginalClusterSize r) in
  let nb := inject_Z (NewClusterSize_Baseline r) in
  let ng := inject_Z (NewClusterSize_GreenSKU r) in
  let num_og_buffer := Qceiling (n * buffer) in
  let start_og_carbon := (n + inject_Z num_og_buffer) * c_og * (1 + afr_og) in
  let total_num_buffer :=
    Qceiling ((nb * vc_og + ng * vc_new) * buffer / vc_og) in
  let total_carbon :=
    (nb + inject_Z total_num_buffer) * c_og * (1 + afr_og)
    + ng * c_new * (1 + afr_new) in
  {| row := r;
     num_buffer := n * buffer;
     num_og_buffer := num_og_buffer;
     start_og_carbon := start_og_carbon;
     total_num_buffer := total_num_buffer;
     total_carbon := total_carbon;
     perc_saved_carbon :=
       fdiv (Fin ((start_og_carbon - total_carbon) * 100)) (Fin start_og_carbon) |}.

(** The exception [math.ceil] raises on ['total_num_buffer'] of a row when
    the baseline design has no cores: the quotient is NaN for a zero
    dividend and an infinity otherwise. *)
Definition zero_cores_error (buffer vc_og vc_new : Q) (r : cluster_row) : exn :=
  if Qeq_bool ((inject_Z (NewClusterSize_Baseline r) * vc_og
                + inject_Z (NewClusterSize_GreenSKU r) * vc_new) * buffer) 0
  then ValueError else OverflowError.

(** A design with a per-server carbon, a failure rate and a core count. *)
Definition design (c afr cores : Q) : ServerCarbon_obj * ServerMaintenance_obj :=
  ({| get_operational_per_sellable_core := c / cores * (1 # 2);
      get_embodied_per_sellable_core := c / cores * (1 # 2);
      get_carbon_per_sellable_core := c / cores;
      get_per_server_carbon := c;
      get_vcores := cores;
      get_rack_perc_operational := 50 |},
   {| get_AFRs := afr |}).

(** A catalogue with a coreless baseline, to exercise the error paths. *)
Definition coreless_ServerCarbon (config : string) (_ : unit)
    (_ : option string) : ServerCarbon_obj :=
  if String.eqb config baseline_yaml then fst (design 1 0 0) else demo_green.







(** Every row has a finite percentage satisfying [P]. *)
Definition percentages (P : Q -> Prop) (out : list cluster_out) : Prop :=
  Forall (fun o => exists p, perc_saved_carbon o = Fin p /\ P p) out.


(** Two clusters of the same size. *)
Definition table_equal_sizes : list cluster_row :=
  [mk_row 100 80 20; mk_row 100 60 40].

(** Two clusters that keep all their baseline servers. *)
Definition table_untouched : list cluster_row :=
  [mk_row 100 100 0; mk_row 20 20 0].



(** Three samples on the line [fan = 0.3 * server - 10]. *)
Definition samples_on_line : list fan_sample :=
  [sample 100 20; sample 200 50; sample 400 110].


(** No figure of the design is zero. *)
Definition nonzero_figures (sc : ServerCarbon_obj) : Prop :=
  ~ get_operational_per_sellable_core sc == 0
  /\ ~ get_embodied_per_sellable_core sc == 0
  /\ ~ get_carbon_per_sellable_core sc == 0.

(** [sc] is no worse than the design [ref] in any figure, and none of its
    figures is negative. *)
Definition no_worse (ref sc : ServerCarbon_obj) : Prop :=
  (0 < get_operational_per_sellable_core ref
   /\ 0 <= get_operational_per_sellable_core sc
        <= get_operational_per_sellable_core ref)
  /\ (0 < get_embodied_per_sellable_core ref
      /\ 0 <= get_embodied_per_sellable_core sc
           <= get_embodied_per_sellable_core ref)
  /\ (0 < get_carbon_per_sellable_core ref
      /\ 0 <= get_carbon_per_sellable_core sc
           <= get_carbon_per_sellable_core ref).

(** [sc] has the figures of [ref]. *)
Definition same_figures (ref sc : ServerCarbon_obj) : Prop :=
  get_operational_per_sellable_core sc == get_operational_per_sellable_core ref
  /\ get_embodied_per_sellable_core sc == get_embodied_per_sellable_core ref
  /\ get_carbon_per_sellable_core sc == get_carbon_per_sellable_core ref.

(** The finished info entry of a config: its name, then its raw figures. *)
Definition named_info (config : string) (sc : ServerCarbon_obj) : dict :=
  ("config"%string, PStr (config_name config)) :: info_dict_of sc.

(** A catalogue whose baseline has a zero operational figure. *)
Definition zero_op_ServerCarbon (config : string) (_ : unit) (_ : option string)
  : ServerCarbon_obj :=
  if String.eqb config baseline_yaml
  then {| get_operational_per_sellable_core := 0;
          get_embodied_per_sellable_core := 20;
          get_carbon_per_sellable_core := 20;
          get_per_server_carbon := 1;
          get_vcores := 96;
          get_rack_perc_operational := 0 |}
  else demo_green.


(** The character occurs in the string. *)
Fixpoint contains (c : ascii) (s : string) : bool :=
  match s with
  | EmptyString => false
  | String a t => Ascii.eqb a c || contains c t
  end.

(** A path [dir/name.ext]. *)
Definition path_of (dir name ext : string) : string :=
  (dir ++ String "/" (name ++ String "." ext))%string.


(** *** Figure 12: the carbon-intensity scan *)

(** [CI_steps = [0.025 * i for i in range(51)]]. *)
Definition CI_steps : list Q :=
  map (fun i => (25 # 1000) * inject_Z (Z.of_nat i)) (seq 0 51).

(** One entry of [trace_config_data]: the dict with the keys ["config"] and
    ["carbon_savings"]. *)
Record trace : Type := {
  trace_config : string;
  carbon_savings : list pyfloat
}.

Section Scan.

(** Here the parameters are the notebook's dictionary itself. *)
Variable ServerCarbon : string -> dict -> option string -> ServerCarbon_obj.
Variable ServerMaintenance :
  string -> string -> dict -> string -> ServerMaintenance_obj.

Variable cluster_data : list cluster_row.

(** The inner loop over [CI_steps]: [override_params] is one dictionary,
    overwritten in place at every step and handed on to the next. *)
Fixpoint scan_steps (baseline config : string) (steps : list Q)
    (override_params : dict) (config_carbon_savings : list pyfloat)
  : result (list pyfloat * dict) :=
  match steps with
  | [] => Ok (config_carbon_savings, override_params)
  | step :: rest =>
      let override_params :=
        dict_set override_params "emissions_factor" (PFloat step) in
      r <- process_csv dict ServerCarbon ServerMaintenance cluster_data
             baseline config override_params (1 # 10) true
             "../data/carbon_data" ;;
      let carbon_saving := snd r in
      scan_steps baseline config rest override_params
        (config_carbon_savings ++ [carbon_saving])
  end.

(** The outer loop over [plot_configs[1:]]; the same dictionary goes on from
    one config to the next. *)
Fixpoint scan_configs (baseline : string) (configs : list string)
    (steps : list Q) (override_params : dict) (trace_config_data : list trace)
  : result (list trace * dict) :=
  match configs with
  | [] => Ok (trace_config_data, override_params)
  | config :: rest =>
      r <- scan_steps baseline config steps override_params [] ;;
      scan_configs baseline rest steps (snd r)
        (trace_config_data
         ++ [{| trace_config := config_name config;
                carbon_savings := fst r |}])
  end.

(** The cell: [override_params = EVAL_PARAMS.copy()], then the two loops.
    [plot_configs[0]] is only read inside the loops. *)
Definition scan (plot_configs : list string) (steps : list Q)
    (EVAL_PARAMS : dict) : result (list trace) :=
  let override_params := EVAL_PARAMS in
  r <- scan_configs (hd EmptyString plot_configs) (tl plot_configs) steps
         override_params [] ;;
  Ok (fst r).

(** One point of a curve computed on its own, from a fresh copy of the
    parameters. *)
Definition fresh_point (EVAL_PARAMS : dict) (baseline config : string)
    (step : Q) : result pyfloat :=
  r <- process_csv dict ServerCarbon ServerMaintenance cluster_data baseline
         config (dict_set EVAL_PARAMS "emissions_factor" (PFloat step))
         (1 # 10) true "../data/carbon_data" ;;
  Ok (snd r).

(** One curve computed on its own. *)
Definition fresh_curve (EVAL_PARAMS : dict) (baseline : string)
    (steps : list Q) (config : string) : result trace :=
  savings <- mapM (fresh_point EVAL_PARAMS baseline config) steps ;;
  Ok {| trace_config := config_name config; carbon_savings := savings |}.

End Scan.

(** A catalogue that reads the carbon intensity off the parameters: the two
    designs draw the same power and differ in embodied carbon only. *)
Definition emissions_factor_of (params : dict) : Q :=
  match dict_get params "emissions_factor" with
  | Some (PFloat q) => q
  | _ => 0
  end.

Definition scan_ServerCarbon (config : string) (params : dict)
    (_ : option string) : ServerCarbon_obj :=
  if String.eqb config baseline_yaml
  then fst (design (1 + 2 * emissions_factor_of params) 0 96)
  else fst (design ((1 # 2) + 2 * emissions_factor_of params) 0 96).

Definition scan_ServerMaintenance (config : string) (_ : string) (_ : dict)
    (_ : string) : ServerMaintenance_obj :=
  {| get_AFRs := 0 |}.

Definition demo_params : dict :=
  [ ("emissions_factor"%string, PFloat (1 # 10));
    ("PUE"%string, PFloat (112 # 100)) ].


(* ===================================================================== *)
(** ** Machine numbers                                                   *)
(* ===================================================================== *)

(** Where the notebook turns a float into an integer ([math.ceil],
    [int(round(...))]) the last bit of the float decides the integer, and
    where it multiplies or adds int64 columns the result wraps around.  The
    cells concerned are embedded a second time below, in [Machine], on the
    numbers the machine computes with:

    - [B64.float]: binary64, with the correctly rounded IEEE operations of
      the standard library's [SpecFloat] (round to nearest, ties to even;
      signed zeros, infinities and NaN);
    - int64 cells with two's-complement wrap-around ([Machine.wrap64]).

    The carbon figures computed after the integers are real-valued outputs
    and stay exact rationals, as in the first embedding. *)

Module B64.

Definition prec : Z := 53.
Definition emax : Z := 1024.

Definition float : Type := SpecFloat.spec_float.

Definition add : float -> float -> float := SpecFloat.SFadd prec emax.
Definition sub : float -> float -> float := SpecFloat.SFsub prec emax.
Definition mul : float -> float -> float := SpecFloat.SFmul prec emax.
Definition div : float -> float -> float := SpecFloat.SFdiv prec emax.

(** Conversion of an integer, rounded when it has more than 53 bits. *)
Definition of_int (z : Z) : float :=
  SpecFloat.binary_normalize prec emax z 0 false.

(** The quotient of two positive integers, rounded once. *)
Definition of_ratio (s : bool) (n d : positive) : float :=
  let '(mz, ez, lz) :=
    SpecFloat.SFdiv_core_binary prec emax (Zpos n) 0 (Zpos d) 0 in
  SpecFloat.binary_round_aux prec emax s mz ez lz.

(** The float nearest to a rational: what Python reads from a decimal
    literal, and the float itself when the rational is one. *)
Definition of_Q (q : Q) : float :=
  match Qnum q with
  | Z0 => SpecFloat.S754_zero false
  | Zpos n => of_ratio false n (Qden q)
  | Zneg n => of_ratio true n (Qden q)
  end.

(** The exact value of a finite float. *)
Definition value (x : float) : option Q :=
  match x with
  | SpecFloat.S754_zero _ => Some 0
  | SpecFloat.S754_finite s m e =>
      let a := match e with
               | Z0 => inject_Z (Zpos m)
               | Zpos p => inject_Z (Zpos m * Z.pow_pos 2 p)
               | Zneg p => Zpos m # Pos.pow 2 p
               end in
      Some (if s then - a else a)
  | SpecFloat.S754_infinity _ | SpecFloat.S754_nan => None
  end.

Definition is_zero (x : float) : bool :=
  match x with SpecFloat.S754_zero _ => true | _ => false end.

(** The exception of a conversion to int: ValueError on NaN, OverflowError
    on an infinity. *)
Definition not_an_int (x : float) : exn :=
  match x with SpecFloat.S754_nan => ValueError | _ => OverflowError end.

(** [math.ceil(x)]. *)
Definition math_ceil (x : float) : result Z :=
  match value x with
  | Some q => Ok (Qceiling q)
  | None => Raise (not_an_int x)
  end.

(** [int(round(x, 0))]: the nearest integer, ties to the even one. *)
Definition int_round (x : float) : result Z :=
  match value x with
  | Some q => Ok (round_half_even q)
  | None => Raise (not_an_int x)
  end.

End B64.

Module Machine.

(** The int64 range, and the value an int64 operation leaves on overflow. *)
Definition int64 (z : Z) : bool :=
  ((- 2 ^ 63 <=? z) && (z <? 2 ^ 63))%Z.

Definition wrap64 (z : Z) : Z :=
  ((z + 2 ^ 63) mod 2 ^ 64 - 2 ^ 63)%Z.

(** A Python number handed out by a collaborator: an int (within the int64
    range, like a core count read from a YAML file) or a float. *)
Inductive pynum : Type :=
| PyInt (z : Z)
| PyFloat (f : B64.float).

Definition num_to_float (k : pynum) : B64.float :=
  match k with
  | PyInt z => B64.of_int z
  | PyFloat f => f
  end.

(** One cell of a numeric column: numpy int64 or float64. *)
Inductive cell : Type :=
| I64 (z : Z)
| F64 (f : B64.float).

Definition to_float (c : cell) : B64.float :=
  match c with
  | I64 z => B64.of_int z
  | F64 f => f
  end.

(** [column * k]: int64 times int stays int64 and wraps; anything else is a
    float product. *)
Definition times (c : cell) (k : pynum) : cell :=
  match c, k with
  | I64 z, PyInt a => I64 (wrap64 (z * a))
  | _, _ => F64 (B64.mul (to_float c) (num_to_float k))
  end.

(** [column + column]. *)
Definition plus (a b : cell) : cell :=
  match a, b with
  | I64 x, I64 y => I64 (wrap64 (x + y))
  | _, _ => F64 (B64.add (to_float a) (to_float b))
  end.

(** [column * buffer] for a float [buffer], and [column / k]. *)
Definition times_float (c : cell) (f : B64.float) : B64.float :=
  B64.mul (to_float c) f.

Definition over (x : B64.float) (k : pynum) : B64.float :=
  B64.div x (num_to_float k).

(** [column + ceiled] for an int64 column and the column of Python ints
    that [apply(math.ceil)] returned.  pandas stores those as int64 when
    they all fit, and the sum wraps; when one does not fit, the column is
    uint64 or object and the sum is taken without wrap-around. *)
Definition add_ceiled (ceiled : list Z) (a b : Z) : Z :=
  if forallb int64 ceiled then wrap64 (a + b) else (a + b)%Z.

(** What the notebook reads from a [ServerCarbon] object; the core count
    keeps its Python type. *)
Record ServerCarbon_obj : Type := {
  get_operational_per_sellable_core : Q;
  get_embodied_per_sellable_core : Q;
  get_carbon_per_sellable_core : Q;
  get_per_server_carbon : Q;
  get_vcores : pynum;
  get_rack_perc_operational : Q
}.

(** A row of the frame [process_csv] returns; ['num_buffer'] is the float
    column the first buffer is the ceiling of. *)
Record cluster_out : Type := {
  row : cluster_row;
  num_buffer : B64.float;
  num_og_buffer : Z;
  start_og_carbon : Q;
  total_num_buffer : Z;
  total_carbon : Q;
  perc_saved_carbon : pyfloat
}.

(** ['total_num_buffer'] before [math.ceil]:
    [(NewClusterSize_Baseline * vc_og + NewClusterSize_GreenSKU * vc_new)
     * buffer / vc_og]. *)
Definition mixed_buffer (vc_og vc_new : pynum) (buffer : B64.float)
    (r : cluster_row) : B64.float :=
  over (times_float
          (plus (times (I64 (NewClusterSize_Baseline r)) vc_og)
                (times (I64 (NewClusterSize_GreenSKU r)) vc_new))
          buffer)
       vc_og.

(** The operand of a float operation: an int is converted (OverflowError
    when it is too large for a float), a float figure is the binary64
    number its rational stands for. *)
Definition as_float (v : pyval) : result B64.float :=
  match v with
  | PInt z =>
      match B64.of_int z with
      | SpecFloat.S754_infinity _ => Raise OverflowError
      | f => Ok f
      end
  | PFloat q => Ok (B64.of_Q q)
  | PStr _ => Raise TypeError
  end.

(** [int(round((ref - v)*100 / ref, 0))] on two floats: three rounded
    operations, a ZeroDivisionError on a zero reference, and the conversion
    of the rounded quotient. *)
Definition pct_saving (ref v : B64.float) : result Z :=
  let difference := B64.mul (B64.sub ref v) (B64.of_int 100) in
  if B64.is_zero ref then Raise ZeroDivisionError
  else B64.int_round (B64.div difference ref).

(** The same expression on two dictionary values.  Two ints are subtracted
    and multiplied exactly and divided with a single rounding. *)
Definition saving (ref v : pyval) : result pyval :=
  match ref, v with
  | PStr _, _ | _, PStr _ => Raise TypeError
  | PInt r, PInt x =>
      if (r =? 0)%Z then Raise ZeroDivisionError
      else s <- B64.int_round (B64.of_Q (inject_Z ((r - x) * 100) / inject_Z r)) ;;
           Ok (PInt s)
  | _, _ =>
      r <- as_float ref ;;
      x <- as_float v ;;
      s <- pct_saving r x ;;
      Ok (PInt s)
  end.

(** [for k, v in info_dict.items(): savings_dict[k] = ...]. *)
Fixpoint savings_loop (items ref_info savings_dict : dict) : result dict :=
  match items with
  | [] => Ok savings_dict
  | (k, v) :: rest =>
      r <- getitem ref_info k ;;
      s <- saving r v ;;
      savings_loop rest ref_info (dict_set savings_dict k s)
  end.

(** numpy's machine epsilon for float64. *)
Definition eps : Q := 1 # 2 ^ 52.

(** The rank [lstsq] finds for the design matrix of a straight-line fit.
    polyfit divides the two columns ([x] and ones) by their norms and calls
    [lstsq] with [rcond = len(x) * eps]; a singular value counts when it is
    above [rcond] times the largest one.  The scaled columns are unit
    vectors with inner product [g = sum x / sqrt(n * sum x^2)], so the two
    singular values are [sqrt(1 + |g|)] and [sqrt(1 - |g|)], and the second
    one counts exactly when [(1 - |g|) > rcond^2 * (1 + |g|)], that is when
    [(sum x)^2 * (1 + rcond^2)^2 < n * sum x^2 * (1 - rcond^2)^2]. *)
Definition lstsq_rank (x : list Q) : nat :=
  let n := Qlen x in
  let rcond := n * eps in
  let sx := Qsum x in
  let sxx := Qsum (map (fun a => a * a) x) in
  if Qle_bool 1 rcond then 0%nat
  else if Qle_bool (n * sxx * ((1 - rcond * rcond) * (1 - rcond * rcond)))
                   (sx * sx * ((1 + rcond * rcond) * (1 + rcond * rcond)))
       then 1%nat
       else 2%nat.

(** [numpy.polyfit(x, y, 1)], returning (slope, intercept), with the rank
    decision of [lstsq]:

    - rank 2: the least-squares line;
    - rank 1 (one sample, equal abscissae, or abscissae too close together
      for [rcond]): a RankWarning and the minimum-norm solution of the
      scaled system, [slope = (sxy/sxx + |g| sy/sx) / (2 (1 + |g|))] and
      [intercept = (|g| sxy/sx + sy/n) / (2 (1 + |g|))]; [|g|] is within
      [2 rcond^2] of 1 there and is taken as 1, which for equal abscissae
      [x0] is exact and gives [ybar / (2 x0)] and [ybar / 2];
    - rank 0 (only when [rcond >= 1]): the zero solution.

    The errors and the NaN case are those of the first embedding. *)
Definition np_polyfit1 (x : list Q) (y : list pyfloat)
  : result (pyfloat * pyfloat) :=
  match x with
  | [] => Raise TypeError
  | _ :: _ =>
      if negb (Nat.eqb (List.length x) (List.length y)) then Raise TypeError
      else if forallb (fun a => Qeq_bool a 0) x then Raise LinAlgError
      else match all_finite y with
           | None => Ok (NaN, NaN)
           | Some ys =>
               let n := Qlen x in
               let sx := Qsum x in
               let sy := Qsum ys in
               let sxx := Qsum (map (fun a => a * a) x) in
               let sxy := Qsum (map (fun p => fst p * snd p) (combine x ys)) in
               match lstsq_rank x with
               | 2%nat =>
                   let slope := (n * sxy - sx * sy) / (n * sxx - sx * sx) in
                   Ok (Fin slope, Fin ((sy - slope * sx) / n))
               | 1%nat =>
                   Ok (Fin ((sxy / sxx + sy / sx) / 4),
                       Fin ((sxy / sx + sy / n) / 4))
               | _ => Ok (Fin 0, Fin 0)
               end
           end
  end.

Definition get_fan_power_model (df : list fan_sample) (plot normalized : bool)
  : result (pyfloat * pyfloat) :=
  let fan := map fan_power df in
  let use_fan :=
    if normalized
    then map (fun y => fdiv (Fin y) (series_max fan)) fan
    else map Fin fan in
  linear_model <- np_polyfit1 (map server_power df) use_fan ;;
  let slope := fst linear_model in
  let intercept := snd linear_model in
  Ok (slope, intercept).

(** The datacenter-level constants and the blended compute fraction, as
    the floats the notebook computes. *)
Definition operational_it : B64.float := B64.of_Q (868 # 1000).
Definition embodied_it : B64.float := B64.of_Q (948 # 1000).
Definition operational_compute_of_it : B64.float := B64.of_Q (779 # 1000).
Definition embodied_compute_of_it : B64.float := B64.of_Q (442 # 1000).

Definition compute_operational : B64.float :=
  B64.mul operational_it operational_compute_of_it.
Definition compute_embodied : B64.float :=
  B64.mul embodied_it embodied_compute_of_it.

Definition baseline_operational_fraction (baseline_sc : ServerCarbon_obj)
  : B64.float :=
  B64.div (B64.of_Q (get_rack_perc_operational baseline_sc)) (B64.of_int 100).

Definition cluster_dc_fraction (baseline_sc : ServerCarbon_obj) : B64.float :=
  B64.add
    (B64.mul compute_operational (baseline_operational_fraction baseline_sc))
    (B64.mul compute_embodied
       (B64.sub (B64.of_int 1) (baseline_operational_fraction baseline_sc))).

(** [dc_savings = cluster_savings * cluster_dc_fraction], then
    [dc_savings = int(round(dc_savings, 0))]; the int is converted to a
    float for the product. *)
Definition dc_savings (cluster_savings : Z) (baseline_sc : ServerCarbon_obj)
  : result Z :=
  match B64.of_int cluster_savings with
  | SpecFloat.S754_infinity _ => Raise OverflowError
  | f => B64.int_round (B64.mul f (cluster_dc_fraction baseline_sc))
  end.

Section Notebook.

Variable Params : Type.
Variable ServerCarbon : string -> Params -> option string -> ServerCarbon_obj.
Variable ServerMaintenance :
  string -> string -> Params -> string -> ServerMaintenance_obj.

Definition info_dict_of (sc : ServerCarbon_obj) : dict :=
  [ ("operational"%string, PFloat (get_operational_per_sellable_core sc));
    ("embodied"%string, PFloat (get_embodied_per_sellable_core sc));
    ("carbon"%string, PFloat (get_carbon_per_sellable_core sc)) ].

(** The first loop of [calculate_steps], from iteration [i] on. *)
Fixpoint steps_loop (frac : option Q) (to_first : bool)
    (override_params : Params) (carbon_data : option string)
    (i : nat) (configs : list string) (all_info all_savings : list dict)
  : result (list dict * list dict) :=
  match configs with
  | [] => Ok (all_info, all_savings)
  | config :: rest =>
      let sc := ServerCarbon config override_params carbon_data in
      let info_dict := info_dict_of sc in
      savings_dict <-
        (if (0 <? i)%nat
         then ref_info <- list_index all_info (if to_first then 0 else i - 1)%nat ;;
              savings_loop info_dict ref_info []
         else Ok (zero_loop info_dict [])) ;;
      let all_info := all_info ++ [info_dict] in
      savings_dict <- blend frac savings_dict ;;
      steps_loop frac to_first override_params carbon_data
        (S i) rest all_info (all_savings ++ [savings_dict])
  end.

Definition calculate_steps (configs : list string) (frac : option Q)
    (to_first : bool) (override_params : Params) (carbon_data : option string)
  : result (list dict * list dict) :=
  r <- steps_loop frac to_first override_params carbon_data 0 configs [] [] ;;
  all_info <- name_loop configs (fst r) ;;
  all_savings <- name_loop configs (snd r) ;;
  Ok (all_info, all_savings).

(** The frame grows column by column, as in the notebook, and each
    [apply(math.ceil)] meets all the rows before the next column is
    touched.  The carbon columns raise nothing and are filled in at the
    end. *)
Definition process_csv (df : list cluster_row) (og_config new_config : string)
    (params : Params) (buffer : B64.float) (weight_cluster : bool)
    (data_source_dir : string)
  : result (list cluster_out * pyfloat) :=
  let og_sc := ServerCarbon og_config params (Some data_source_dir) in
  let new_sc := ServerCarbon new_config params (Some data_source_dir) in
  let og_maintenance := ServerMaintenance og_config afr_yaml params data_source_dir in
  let new_maintenance := ServerMaintenance new_config afr_yaml params data_source_dir in
  let og_server_carbon := get_per_server_carbon og_sc in
  let new_server_carbon := get_per_server_carbon new_sc in
  let og_maintenance_overhead := 1 + get_AFRs og_maintenance in
  let new_maintenance_overhead := 1 + get_AFRs new_maintenance in
  (* df['num_buffer'], df['num_og_buffer'] *)
  with_og_buffer <- mapM (fun r =>
      let num_buffer := times_float (I64 (OriginalClusterSize r)) buffer in
      num_og_buffer <- B64.math_ceil num_buffer ;;
      Ok (r, num_buffer, num_og_buffer)) df ;;
  let plus_og_buffer := add_ceiled (map snd with_og_buffer) in
  (* df['total_num_buffer'] *)
  with_total_buffer <- mapM (fun x =>
      total_num_buffer <-
        B64.math_ceil (mixed_buffer (get_vcores og_sc) (get_vcores new_sc)
                                    buffer (fst (fst x))) ;;
      Ok (x, total_num_buffer)) with_og_buffer ;;
  let plus_total_buffer := add_ceiled (map snd with_total_buffer) in
  (* df['start_og_carbon'], df['total_carbon'], df['perc_saved_carbon'] *)
  let df := map (fun y =>
      let r := fst (fst (fst y)) in
      let num_og_buffer := snd (fst y) in
      let total_num_buffer := snd y in
      let start_og_carbon :=
        inject_Z (plus_og_buffer (OriginalClusterSize r) num_og_buffer)
        * og_server_carbon * og_maintenance_overhead in
      let total_carbon :=
        inject_Z (plus_total_buffer (NewClusterSize_Baseline r) total_num_buffer)
        * og_server_carbon * og_maintenance_overhead
        + inject_Z (NewClusterSize_GreenSKU r)
          * new_server_carbon * new_maintenance_overhead in
      {| row := r;
         num_buffer := snd (fst (fst y));
         num_og_buffer := num_og_buffer;
         start_og_carbon := start_og_carbon;
         total_num_buffer := total_num_buffer;
         total_carbon := total_carbon;
         perc_saved_carbon :=
           fdiv (Fin ((start_og_carbon - total_carbon) * 100))
                (Fin start_og_carbon) |}) with_total_buffer in
  let average_saved_carbon := series_mean (map perc_saved_carbon df) in
  weighted_average_saved_carbon <-
    np_average (map perc_saved_carbon df)
               (map (fun o => OriginalClusterSize (row o)) df) ;;
  if weight_cluster
  then Ok (df, weighted_average_saved_carbon)
  else Ok (df, average_saved_carbon).

(** The three reporting cells in sequence, with the buffer fraction 0.1 of
    the notebook. *)
Definition report_savings (cluster_data : list cluster_row)
    (baseline full : string) (EVAL_PARAMS : Params)
  : result (Z * Z) :=
  r <- process_csv cluster_data baseline full EVAL_PARAMS (B64.of_Q (1 # 10))
         true "../data/carbon_data" ;;
  cs <- cluster_savings (snd r) ;;
  let baseline_sc := ServerCarbon baseline EVAL_PARAMS None in
  dc <- dc_savings cs baseline_sc ;;
  Ok (cs, dc).

End Notebook.

End Machine.

(** *** Sample inputs on machine numbers *)

(** The float Python reads from the decimal [n / 10^k]. *)
Definition decimal (n : Z) (k : positive) : B64.float :=
  B64.of_Q (n # Pos.pow 10 k).

(** A design with a per-server carbon and a core count; its three
    per-core figures are those of the first embedding's baseline. *)
Definition machine_design (c : Q) (cores : Machine.pynum)
  : Machine.ServerCarbon_obj :=
  {| Machine.get_operational_per_sellable_core := 10;
     Machine.get_embodied_per_sellable_core := 20;
     Machine.get_carbon_per_sellable_core := 30;
     Machine.get_per_server_carbon := c;
     Machine.get_vcores := cores;
     Machine.get_rack_perc_operational := 50 |}.

(** The baseline has 96 cores and a per-server carbon of 1, the
    alternative as many cores and half the carbon. *)
Definition machine_ServerCarbon (config : string) (_ : unit)
    (_ : option string) : Machine.ServerCarbon_obj :=
  if String.eqb config baseline_yaml
  then machine_design 1 (Machine.PyInt 96)
  else machine_design (1 # 2) (Machine.PyInt 96).

(** The baseline design under every name. *)
Definition baseline_only_ServerCarbon (config : string) (_ : unit)
    (_ : option string) : Machine.ServerCarbon_obj :=
  machine_design 1 (Machine.PyInt 96).

Definition machine_process_csv (df : list cluster_row) (new_config : string)
    (buffer : B64.float) (weight_cluster : bool) :=
  Machine.process_csv unit machine_ServerCarbon demo_ServerMaintenance df
    baseline_yaml new_config tt buffer weight_cluster "data".

(** The reporting cells on this catalogue. *)
Definition machine_report (cluster_data : list cluster_row) : result (Z * Z) :=
  Machine.report_savings unit machine_ServerCarbon demo_ServerMaintenance
    cluster_data baseline_yaml green_yaml tt.


(** The columns of one row of the frame [Machine.process_csv] returns.
    [og_buffers] and [total_buffers] are the two buffer columns of the whole
    frame: they decide whether the integer sums wrap. *)
Definition machine_row (buffer : B64.float) (c_og afr_og : Q)
    (vc_og : Machine.pynum) (c_new afr_new : Q) (vc_new : Machine.pynum)
    (og_buffers total_buffers : list Z) (r : cluster_row)
    (o : Machine.cluster_out) : Prop :=
  Machine.row o = r
  /\ Machine.num_buffer o = B64.mul (B64.of_int (OriginalClusterSize r)) buffer
  /\ B64.math_ceil (Machine.num_buffer o) = Ok (Machine.num_og_buffer o)
  /\ Machine.start_og_carbon o =
       inject_Z (Machine.add_ceiled og_buffers (OriginalClusterSize r)
                   (Machine.num_og_buffer o))
       * c_og * (1 + afr_og)
  /\ B64.math_ceil (Machine.mixed_buffer vc_og vc_new buffer r)
       = Ok (Machine.total_num_buffer o)
  /\ Machine.total_carbon o =
       inject_Z (Machine.add_ceiled total_buffers (NewClusterSize_Baseline r)
                   (Machine.total_num_buffer o))
       * c_og * (1 + afr_og)
       + inject_Z (NewClusterSize_GreenSKU r) * c_new * (1 + afr_new)
  /\ Machine.perc_saved_carbon o =
       fdiv (Fin ((Machine.start_og_carbon o - Machine.total_carbon o) * 100))
            (Fin (Machine.start_og_carbon o)).


(** The saving of one metric against the reference design, on floats; the
    first config has no reference and saves 0. *)
Definition machine_metric (ref : option Machine.ServerCarbon_obj)
    (get : Machine.ServerCarbon_obj -> Q) (sc : Machine.ServerCarbon_obj)
  : result Z :=
  match ref with
  | None => Ok 0%Z
  | Some r => Machine.pct_saving (B64.of_Q (get r)) (B64.of_Q (get sc))
  end.

(** The three savings of a config, in the order of the loop. *)
Definition metrics_entry (frac : option Q) (operational embodied carbon : Z)
  : dict :=
  [ ("operational"%string, PInt operational);
    ("embodied"%string, PInt embodied);
    ("carbon"%string,
     match frac with
     | None => PInt carbon
     | Some f => PFloat (inject_Z operational * f + inject_Z embodied * (1 - f))
     end) ].

(** The finished savings entry: the config's name, then its savings. *)
Definition savings_entry (frac : option Q) (name : string)
    (operational embodied carbon : Z) : dict :=
  ("config"%string, PStr name) :: metrics_entry frac operational embodied carbon.

(** One iteration of the first loop of [Machine.calculate_steps], given the
    design it compares with. *)
Definition machine_step_savings (frac : option Q)
    (ref : option Machine.ServerCarbon_obj) (sc : Machine.ServerCarbon_obj)
  : result dict :=
  savings_dict <-
    match ref with
    | Some r =>
        Machine.savings_loop (Machine.info_dict_of sc) (Machine.info_dict_of r) []
    | None => Ok (zero_loop (Machine.info_dict_of sc) [])
    end ;;
  blend frac savings_dict.

(** A three-design catalogue with decimal figures: against the first
    design, the second one saves 60.5% of the operational figure in exact
    arithmetic and a little more on floats. *)
Definition decimal_ServerCarbon (config : string) (_ : unit) (_ : option string)
  : Machine.ServerCarbon_obj :=
  if String.eqb config baseline_yaml
  then {| Machine.get_operational_per_sellable_core := 23624 # 100;
          Machine.get_embodied_per_sellable_core := 20;
          Machine.get_carbon_per_sellable_core := 30;
          Machine.get_per_server_carbon := 1;
          Machine.get_vcores := Machine.PyInt 96;
          Machine.get_rack_perc_operational := 50 |}
  else {| Machine.get_operational_per_sellable_core := 933148 # 10000;
          Machine.get_embodied_per_sellable_core := 15;
          Machine.get_carbon_per_sellable_core := 23;
          Machine.get_per_server_carbon := 1 # 2;
          Machine.get_vcores := Machine.PyInt 96;
          Machine.get_rack_perc_operational := 40 |}.

(* ===================================================================== *)
(** ** Facts about the Python layer                                      *)
(* ===================================================================== *)

(** Case on the first call of [f] in the goal, closing the branches that
    are already equal. *)
Ltac case_result f :=
  match goal with
  | |- context [f ?a ?b ?c] => destruct (f a b c); cbn [bind]; try reflexivity
  | |- context [f ?a ?b] => destruct (f a b); cbn [bind]; try reflexivity
  end.

Lemma Qeq_bool_false (x y : Q) : ~ x == y -> Qeq_bool x y = false.
Proof.
  intros H. destruct (Qeq_bool x y) eqn:E; [|reflexivity].
  exfalso. apply H. now apply Qeq_bool_iff.
Qed.

Lemma feq_refl (a : pyfloat) : feq a a.
Proof. destruct a; simpl; auto. reflexivity. Qed.

Lemma feq_sym (a b : pyfloat) : feq a b -> feq b a.
Proof. destruct a, b; simpl; auto. intros H; now symmetry. Qed.

Lemma feq_trans (a b c : pyfloat) : feq a b -> feq b c -> feq a c.
Proof.
  destruct a, b, c; simpl; auto; try contradiction.
  intros H1 H2. now rewrite H1.
Qed.

#[export] Instance feq_Equivalence : Equivalence feq.
Proof.
  split; [exact feq_refl | exact feq_sym | exact feq_trans].
Qed.

Lemma feqb_feq (a b : pyfloat) : feqb a b = true <-> feq a b.
Proof.
  destruct a, b; simpl; try (split; [discriminate | contradiction]);
    try tauto.
  apply Qeq_bool_iff.
Qed.

Lemma fdiv_finite (x y : Q) : ~ y == 0 -> fdiv (Fin x) (Fin y) = Fin (x / y).
Proof. intros H. simpl. now rewrite (Qeq_bool_false _ _ H). Qed.

Lemma fdiv_by_zero (x y : Q) : y == 0 -> special (fdiv (Fin x) (Fin y)).
Proof.
  intros H. simpl. apply Qeq_bool_iff in H. rewrite H.
  unfold inf_of_sign, special. destruct (Qsgn x); simpl; auto.
Qed.

Lemma fsum_finite (l : list Q) : fsum (map Fin l) = Fin (Qsum l).
Proof.
  induction l as [|a t IH]; simpl; [reflexivity|]. now rewrite IH.
Qed.

Lemma filter_notna_finite (l : list Q) :
  filter (fun a => negb (isna a)) (map Fin l) = map Fin l.
Proof.
  induction l as [|a t IH]; simpl; [reflexivity|]. now rewrite IH.
Qed.

Lemma Qlen_pos {A} (l : list A) : l <> [] -> 0 < Qlen l.
Proof.
  destruct l as [|a t]; [congruence|]. intros _.
  unfold Qlen, Qlt. simpl. lia.
Qed.

Lemma Qlen_map {A B} (f : A -> B) (l : list A) : Qlen (map f l) = Qlen l.
Proof. unfold Qlen. now rewrite length_map. Qed.

(** On a series without NaN or infinities the pandas mean is the plain
    arithmetic mean. *)
Lemma series_mean_finite (l : list Q) :
  l <> [] -> series_mean (map Fin l) = Fin (Qsum l / Qlen l).
Proof.
  intros Hne. unfold series_mean. rewrite filter_notna_finite.
  destruct l as [|a t]; [congruence|].
  change (map Fin (a :: t)) with (Fin a :: map Fin t).
  cbv iota beta.
  change (Fin a :: map Fin t) with (map Fin (a :: t)).
  rewrite fsum_finite, Qlen_map.
  apply fdiv_finite.
  intros H. pose proof (Qlen_pos (a :: t) Hne) as Hp. rewrite H in Hp.
  now apply Qlt_irrefl in Hp.
Qed.

Lemma series_mean_empty : series_mean [] = NaN.
Proof. reflexivity. Qed.

Lemma weighted_terms_finite (l : list Q) (w : list Z) :
  fsum (map (fun aw => fmul (fst aw) (Fin (inject_Z (snd aw))))
            (combine (map Fin l) w))
  = Fin (Qdot l w).
Proof.
  unfold Qdot. revert w.
  induction l as [|a t IH]; intros [|z w]; simpl; try reflexivity.
  now rewrite IH.
Qed.

(** On finite entries the numpy weighted average is sum(a*w)/sum(w). *)
Lemma np_average_finite (l : list Q) (w : list Z) :
  Zsum w <> 0%Z ->
  np_average (map Fin l) w = Ok (Fin (Qdot l w / inject_Z (Zsum w))).
Proof.
  intros Hw. unfold np_average.
  destruct (Z.eqb_spec (Zsum w) 0) as [E|_]; [contradiction|].
  rewrite weighted_terms_finite. f_equal.
  apply fdiv_finite.
  unfold Qeq. simpl. lia.
Qed.


Lemma Qceiling_rounded_up (x : Q) : rounded_up x (Qceiling x).
Proof.
  split; [apply Qle_ceiling|].
  pose proof (Qceiling_lt x) as H. unfold Z.sub in H.
  rewrite inject_Z_plus, inject_Z_opp in H. exact H.
Qed.

Lemma mapM_Forall2 {A B} (f : A -> result B) (l : list A) (l' : list B) :
  mapM f l = Ok l' -> Forall2 (fun a b => f a = Ok b) l l'.
Proof.
  revert l'. induction l as [|a t IH]; intros l' H; simpl in H.
  - injection H as <-. constructor.
  - destruct (f a) as [b|e] eqn:Ea; simpl in H; [|discriminate].
    destruct (mapM f t) as [bs|e] eqn:Et; simpl in H; [|discriminate].
    injection H as <-. constructor; auto.
Qed.

Lemma mapM_total {A B} (f : A -> result B) (l : list A) :
  (forall a, In a l -> exists b, f a = Ok b) -> exists l', mapM f l = Ok l'.
Proof.
  induction l as [|a t IH]; intros H; simpl.
  - now exists [].
  - destruct (H a (or_introl eq_refl)) as [b Hb]. rewrite Hb. simpl.
    destruct IH as [bs Hbs]; [intros x Hx; apply H; now right|].
    rewrite Hbs. simpl. now exists (b :: bs).
Qed.

(* ===================================================================== *)
(** ** The cluster aggregation, row by row                               *)
(* ===================================================================== *)

Section ClusterFacts.

Variable Params : Type.
Variable ServerCarbon : string -> Params -> option string -> ServerCarbon_obj.
Variable ServerMaintenance :
  string -> string -> Params -> string -> ServerMaintenance_obj.

Variables (og_config new_config : string) (params : Params) (buffer : Q)
          (data_source_dir : string).

Local Abbreviation og_sc := (ServerCarbon og_config params (Some data_source_dir)).
Local Abbreviation new_sc := (ServerCarbon new_config params (Some data_source_dir)).
Local Abbreviation og_m :=
  (ServerMaintenance og_config afr_yaml params data_source_dir).
Local Abbreviation new_m :=
  (ServerMaintenance new_config afr_yaml params data_source_dir).
Local Abbreviation run := (process_csv Params ServerCarbon ServerMaintenance).
Local Abbreviation filled :=
  (row_filled buffer (get_per_server_carbon og_sc) (get_AFRs og_m)
     (get_vcores og_sc) (get_per_server_carbon new_sc) (get_AFRs new_m)
     (get_vcores new_sc)).

Lemma math_ceil_fdiv_Ok (x y : Q) (z : Z) :
  math_ceil (fdiv (Fin x) (Fin y)) = Ok z -> ~ y == 0 /\ z = Qceiling (x / y).
Proof.
  simpl. destruct (Qeq_bool y 0) eqn:E.
  - unfold inf_of_sign. destruct (Qsgn x); simpl; discriminate.
  - simpl. intros H. injection H as <-. split; [|reflexivity].
    now apply Qeq_bool_neq.
Qed.

(** Whatever [process_csv] returns, it returns after both rollups were
    computed: the frame holds one filled row per input row, the weights do
    not sum to zero, and the second component is the requested rollup. *)
Lemma process_csv_inv (df : list cluster_row) (weight_cluster : bool)
    (out : list cluster_out) (avg : pyfloat) :
  run df og_config new_config params buffer weight_cluster data_source_dir
    = Ok (out, avg) ->
  Forall2 filled df out
  /\ Zsum (map OriginalClusterSize df) <> 0%Z
  /\ np_average (map perc_saved_carbon out) (map OriginalClusterSize df)
       = Ok (if weight_cluster then avg
             else fdiv (fsum (map (fun aw => fmul (fst aw) (Fin (inject_Z (snd aw))))
                                  (combine (map perc_saved_carbon out)
                                           (map OriginalClusterSize df))))
                       (Fin (inject_Z (Zsum (map OriginalClusterSize df)))))
  /\ (weight_cluster = false -> avg = series_mean (map perc_saved_carbon out)).
Proof.
  unfold process_csv.
  match goal with |- bind (mapM ?f _) _ = _ -> _ => set (step := f) end.
  destruct (mapM step df) as [out'|e] eqn:Em; simpl; [|discriminate].
  apply mapM_Forall2 in Em.
  assert (Hrows : Forall2 filled df out').
  { clear -Em. induction Em as [|r o df' out'' Hro _ IH]; constructor; auto.
    unfold step in Hro. simpl in Hro.
    match type of Hro with
    | context [if ?c then _ else _] => destruct c eqn:Ev
    end.
    - unfold inf_of_sign in Hro.
      match type of Hro with
      | context [match ?c with Eq => _ | Lt => _ | Gt => _ end] => destruct c
      end; simpl in Hro; discriminate.
    - simpl in Hro. injection Hro as <-. apply Qeq_bool_neq in Ev.
      unfold row_filled. simpl.
      unfold spec_baseline_total, spec_mixed_total, spec_mixed_buffer, spec_buffer_og.
      assert (Hc : Qceiling
                (((inject_Z (NewClusterSize_Baseline r) * get_vcores og_sc
                   + inject_Z (NewClusterSize_GreenSKU r) * get_vcores new_sc) * buffer)
                 / get_vcores og_sc)
              = Qceiling
                (buffer * (inject_Z (NewClusterSize_Baseline r) * get_vcores og_sc
                   + inject_Z (NewClusterSize_GreenSKU r) * get_vcores new_sc)
                 / get_vcores og_sc)).
      { apply Qceiling_comp. field. exact Ev. }
      rewrite Hc.
      repeat split; try reflexivity. }
  assert (Hw : map (fun o => OriginalClusterSize (row o)) out'
               = map OriginalClusterSize df).
  { clear -Hrows. induction Hrows as [|r o ? ? Hro _ IH]; simpl; [reflexivity|].
    destruct Hro as [-> _]. now rewrite IH. }
  rewrite Hw. unfold np_average.
  destruct (Z.eqb_spec (Zsum (map OriginalClusterSize df)) 0) as [E|NE];
    simpl; [discriminate|].
  destruct weight_cluster; intros H; injection H as <- <-;
    repeat split; auto; discriminate.
Qed.


Lemma Forall2_impl {A B} (P Q : A -> B -> Prop) (l : list A) (l' : list B) :
  (forall a b, P a b -> Q a b) -> Forall2 P l l' -> Forall2 Q l l'.
Proof. intros H F. induction F; constructor; auto. Qed.


Lemma Forall2_length_eq {A B} (P : A -> B -> Prop) (l : list A) (l' : list B) :
  Forall2 P l l' -> List.length l = List.length l'.
Proof. intros F. induction F; simpl; congruence. Qed.

(** The second component of a run over finite percentages. *)
Lemma process_csv_rollup (df : list cluster_row) (weight_cluster : bool)
    (out : list cluster_out) (avg : pyfloat) (ps : list Q) :
  run df og_config new_config params buffer weight_cluster data_source_dir
    = Ok (out, avg) ->
  map perc_saved_carbon out = map Fin ps ->
  avg = (if weight_cluster
         then Fin (Qdot ps (map OriginalClusterSize df)
                   / inject_Z (Zsum (map OriginalClusterSize df)))
         else Fin (Qsum ps / Qlen ps)).
Proof.
  intros H Hps.
  apply process_csv_inv in H. destruct H as (Hrows & Hw & Havg & Hmean).
  rewrite Hps in Havg, Hmean.
  destruct weight_cluster.
  - rewrite (np_average_finite ps _ Hw) in Havg. now injection Havg as <-.
  - rewrite (Hmean eq_refl). apply series_mean_finite.
    intros ->. apply Forall2_length_eq in Hrows.
    assert (Hl : List.length out = 0%nat).
    { rewrite <- (length_map perc_saved_carbon), Hps. reflexivity. }
    rewrite Hl in Hrows. destruct df; [|discriminate]. now apply Hw.
Qed.

(** C4: [process_csv] hands back one of exactly two rollups of the per-row
    percentages, chosen by [weight_cluster]: their plain arithmetic mean, or
    their mean weighted by [OriginalClusterSize]; on savings 10 and 30 with
    weights 100 and 300 the two are 20 and 25. *)
Theorem C4_two_rollups (df : list cluster_row) (weight_cluster : bool)
    (out : list cluster_out) (avg : pyfloat) (ps : list Q) :
  run df og_config new_config params buffer weight_cluster data_source_dir
    = Ok (out, avg) ->
  map perc_saved_carbon out = map Fin ps ->
  let w := map OriginalClusterSize df in
  avg = (if weight_cluster
         then Fin (Qdot ps w / inject_Z (Zsum w))
         else Fin (Qsum ps / Qlen ps))
  /\ feq (series_mean [Fin 10; Fin 30]) (Fin 20)
  /\ exists a, np_average [Fin 10; Fin 30] [100; 300]%Z = Ok a /\ feq a (Fin 25).
Proof.
  intros H Hps w. split; [exact (process_csv_rollup _ _ _ _ _ H Hps)|].
  split; [reflexivity|]. eexists. split; reflexivity.
Qed.

Lemma spec_baseline_total_zero (c afr : Q) (r : cluster_row) :
  OriginalClusterSize r = 0%Z -> spec_baseline_total buffer c afr r == 0.
Proof.
  intros Hn. unfold spec_baseline_total, spec_buffer_og. rewrite Hn.
  rewrite (Qceiling_comp _ (inject_Z 0)) by ring.
  rewrite Qceiling_Z. ring.
Qed.

Lemma Zsum_pos (l : list Z) :
  l <> [] -> Forall (fun z => (0 < z)%Z) l -> (0 < Zsum l)%Z.
Proof.
  intros Hne F. induction F as [|z t Hz Ft IH]; [congruence|]. simpl.
  destruct t as [|z' t']; [simpl; lia|].
  assert (0 < Zsum (z' :: t'))%Z by (apply IH; discriminate). lia.
Qed.

Lemma Qsum_zero (ps : list Q) : Forall (fun q => q == 0) ps -> Qsum ps == 0.
Proof.
  intros F. induction F as [|q t Hq _ IH]; simpl; [reflexivity|].
  rewrite Hq, IH. reflexivity.
Qed.

Lemma Qdot_zero (ps : list Q) (w : list Z) :
  Forall (fun q => q == 0) ps -> Qdot ps w == 0.
Proof.
  intros F. revert w. unfold Qdot.
  induction F as [|q t Hq _ IH]; intros [|z w]; simpl; try reflexivity.
  rewrite Hq, IH. ring.
Qed.

End ClusterFacts.

(* ===================================================================== *)
(** ** The cluster aggregation on sample tables                          *)
(* ===================================================================== *)



Lemma Forall2_head {A B} (P : A -> B -> Prop) (a : A) (l : list A)
    (l' : list B) :
  Forall2 P (a :: l) l' ->
  exists b t, l' = b :: t /\ P a b /\ Forall2 P l t.
Proof.
  intros F. inversion F as [|a0 b l0 t Hab Ft]. subst. now exists b, t.
Defined.


Lemma C4_witness :
  exists out ps weighted unweighted,
    demo_process_csv table_10_30 green_yaml 0 true = Ok (out, weighted)
    /\ demo_process_csv table_10_30 green_yaml 0 false = Ok (out, unweighted)
    /\ map perc_saved_carbon out = map Fin ps
    /\ Forall2 Qeq ps [10; 30]
    /\ feq weighted (Fin 25)
    /\ feq unweighted (Fin 20).
Proof.
  destruct (demo_process_csv table_10_30 green_yaml 0 true)
    as [[out weighted]|e] eqn:Et; [|vm_compute in Et; discriminate].
  destruct (demo_process_csv table_10_30 green_yaml 0 false)
    as [[out' unweighted]|e] eqn:Ef; [|vm_compute in Ef; discriminate].
  assert (Hout : out' = out).
  { vm_compute in Et, Ef. injection Et as <- _. now injection Ef as <- _. }
  subst out'.
  assert (Hps : map perc_saved_carbon out = map Fin [2000 # 200; 18000 # 600]).
  { vm_compute in Et. injection Et as <- _. reflexivity. }
  exists out, [2000 # 200; 18000 # 600], weighted, unweighted.
  repeat split; try assumption.
  - repeat constructor.
  - destruct (C4_two_rollups unit demo_ServerCarbon demo_ServerMaintenance
                baseline_yaml green_yaml tt 0 "data" table_10_30 true out
                weighted _ Et Hps) as (-> & _). reflexivity.
  - destruct (C4_two_rollups unit demo_ServerCarbon demo_ServerMaintenance
                baseline_yaml green_yaml tt 0 "data" table_10_30 false out
                unweighted _ Ef Hps) as (-> & _). reflexivity.
Defined.

(* ===================================================================== *)
(** ** Carbon intensity                                                  *)
(* ===================================================================== *)

(** C7: each record's intensity is
    [renewable_fraction * renewable + (1 - renewable_fraction) * grid] with
    the fraction the record's percentage over 100, divided by 1000; the
    estimate is the unweighted arithmetic mean of these over all records
    (NaN when there is none). *)
Theorem C7_average_dc_carbon_intensity (dc_data : list dc_record) :
  (forall r,
     carbon_intensity r ==
       blended_intensity (Renewable_pct r / 100) (Avg_Renewable_Intensity r)
         (Avg_Grid_Intensity r) / 1000)
  /\ calculate_average_dc_carbon_intensity dc_data =
       match dc_data with
       | [] => NaN
       | _ => Fin (Qsum (map carbon_intensity dc_data) / Qlen dc_data)
       end.
Proof.
  split.
  - intros r. unfold carbon_intensity, blended_intensity. reflexivity.
  - unfold calculate_average_dc_carbon_intensity.
    destruct dc_data as [|r t]; [reflexivity|].
    rewrite <- (map_map carbon_intensity Fin).
    rewrite series_mean_finite by discriminate.
    now rewrite Qlen_map.
Qed.

Example average_of_dc_pair :
  feq (calculate_average_dc_carbon_intensity dc_pair) (Fin (339 # 1000)).
Proof. reflexivity. Qed.

(* ===================================================================== *)
(** ** Datacenter-level savings                                          *)
(* ===================================================================== *)

Lemma round_half_even_nearest (q : Q) : nearest_int q (round_half_even q).
Proof.
  unfold nearest_int, round_half_even.
  pose proof (Qfloor_le q) as Hlo. pose proof (Qlt_floor q) as Hhi.
  rewrite inject_Z_plus in Hhi. change (inject_Z 1) with 1 in Hhi.
  apply Qabs_Qle_condition.
  destruct (Qcompare (q - inject_Z (Qfloor q)) (1 # 2)) eqn:E.
  - apply Qeq_alt in E.
    destruct (Z.even (Qfloor q)).
    + split; lra.
    + rewrite inject_Z_plus. change (inject_Z 1) with 1. split; lra.
  - apply Qlt_alt in E. split; lra.
  - apply Qgt_alt in E. rewrite inject_Z_plus. change (inject_Z 1) with 1.
    split; lra.
Qed.

(** The reference figures: a cluster saving of 14% under a blended compute
    fraction of about one half is reported as 7% at datacenter level. *)
Example dc_savings_of_14 :
  cluster_dc_fraction half_blend_baseline == 50002014 # 100000000
  /\ dc_savings 14 half_blend_baseline = 7%Z.
Proof. split; reflexivity. Qed.

Section ReportFacts.

Variable Params : Type.
Variable ServerCarbon : string -> Params -> option string -> ServerCarbon_obj.
Variable ServerMaintenance :
  string -> string -> Params -> string -> ServerMaintenance_obj.


End ReportFacts.


(* ===================================================================== *)
(** ** The fan-power fit                                                 *)
(* ===================================================================== *)

Lemma all_finite_map_Fin (l : list Q) : all_finite (map Fin l) = Some l.
Proof.
  induction l as [|a t IH]; simpl; [reflexivity|]. now rewrite IH.
Qed.

Lemma Qsum_sq_diff (a : Q) (l : list Q) :
  Qsum (map (fun x => (a - x) * (a - x)) l)
  == Qlen l * (a * a) - 2 * a * Qsum l + Qsum (map (fun x => x * x) l).
Proof.
  induction l as [|x t IH].
  - simpl. unfold Qlen. simpl. ring.
  - cbn [map Qsum]. rewrite IH.
    assert (Hl : Qlen (x :: t) == Qlen t + 1).
    { unfold Qlen. cbn [List.length]. rewrite Nat2Z.inj_succ.
      unfold Z.succ. rewrite inject_Z_plus. reflexivity. }
    rewrite Hl. ring.
Qed.

Lemma spread_cons (a : Q) (l : list Q) :
  spread (a :: l) == spread l + Qsum (map (fun x => (a - x) * (a - x)) l).
Proof.
  rewrite Qsum_sq_diff. unfold spread. cbn [map Qsum].
  assert (Hl : Qlen (a :: l) == Qlen l + 1).
  { unfold Qlen. cbn [List.length]. rewrite Nat2Z.inj_succ.
    unfold Z.succ. rewrite inject_Z_plus. reflexivity. }
  rewrite Hl. ring.
Qed.

Lemma Qsq_nonneg (x : Q) : 0 <= x * x.
Proof.
  destruct (Qlt_le_dec x 0) as [Hneg|Hpos].
  - setoid_replace (x * x) with ((- x) * (- x)) by ring.
    apply Qmult_le_0_compat; lra.
  - now apply Qmult_le_0_compat.
Qed.

Lemma Qsq_pos (x : Q) : ~ x == 0 -> 0 < x * x.
Proof.
  intros Hx. destruct (Qlt_le_dec x 0) as [Hneg|Hpos].
  - setoid_replace (x * x) with ((- x) * (- x)) by ring.
    apply Qmult_lt_0_compat; lra.
  - assert (0 < x) by (apply Qle_lteq in Hpos; destruct Hpos as [H|H];
                       [exact H | exfalso; apply Hx; now symmetry]).
    now apply Qmult_lt_0_compat.
Qed.

Lemma Qsum_sq_nonneg (a : Q) (l : list Q) :
  0 <= Qsum (map (fun x => (a - x) * (a - x)) l).
Proof.
  induction l as [|x t IH]; cbn [map Qsum]; [apply Qle_refl|].
  pose proof (Qsq_nonneg (a - x)). lra.
Qed.

Lemma Qsum_sq_pos (a b : Q) (l : list Q) :
  In b l -> ~ a == b -> 0 < Qsum (map (fun x => (a - x) * (a - x)) l).
Proof.
  intros Hin Hab. induction l as [|x t IH]; [contradiction|].
  cbn [map Qsum]. destruct Hin as [->|Hin].
  - pose proof (Qsum_sq_nonneg a t).
    assert (0 < (a - b) * (a - b)) by (apply Qsq_pos; lra). lra.
  - pose proof (Qsq_nonneg (a - x)). specialize (IH Hin). lra.
Qed.

Lemma spread_nonneg (l : list Q) : 0 <= spread l.
Proof.
  induction l as [|a t IH].
  - unfold spread, Qlen. simpl. lra.
  - rewrite spread_cons. pose proof (Qsum_sq_nonneg a t). lra.
Qed.

(** Two different entries make the spread positive. *)
Lemma spread_pos (l : list Q) (a b : Q) :
  In a l -> In b l -> ~ a == b -> 0 < spread l.
Proof.
  induction l as [|x t IH]; [contradiction|].
  intros Ha Hb Hab. rewrite spread_cons.
  pose proof (spread_nonneg t) as Hs. pose proof (Qsum_sq_nonneg x t) as Hq.
  destruct Ha as [->|Ha], Hb as [->|Hb].
  - exfalso. apply Hab. reflexivity.
  - pose proof (Qsum_sq_pos a b t Hb Hab). lra.
  - assert (Hba : ~ b == a) by (intros E; apply Hab; now symmetry).
    pose proof (Qsum_sq_pos b a t Ha Hba). lra.
  - specialize (IH Ha Hb Hab). lra.
Qed.

Lemma Qlen_cons {A} (a : A) (l : list A) : Qlen (a :: l) == Qlen l + 1.
Proof.
  unfold Qlen. cbn [List.length]. rewrite Nat2Z.inj_succ.
  unfold Z.succ. rewrite inject_Z_plus. reflexivity.
Qed.

Lemma residual_sum (a b : Q) (df : list fan_sample) :
  Qsum (map (residual a b) df)
  == Qsum (map fan_power df) - a * Qsum (map server_power df) - Qlen df * b.
Proof.
  induction df as [|s t IH].
  - unfold Qlen. simpl. ring.
  - cbn [map Qsum]. rewrite IH, Qlen_cons. unfold residual. ring.
Qed.

Lemma weighted_residual_sum (a b : Q) (df : list fan_sample) :
  Qsum (map (fun s => server_power s * residual a b s) df)
  == Qsum (map (fun p => fst p * snd p)
               (combine (map server_power df) (map fan_power df)))
     - a * Qsum (map (fun x => x * x) (map server_power df))
     - b * Qsum (map server_power df).
Proof.
  induction df as [|s t IH].
  - simpl. ring.
  - cbn [map Qsum combine fst snd]. rewrite IH. unfold residual. ring.
Qed.

Lemma forallb_zero_false (l : list Q) (a : Q) :
  In a l -> ~ a == 0 -> forallb (fun x => Qeq_bool x 0) l = false.
Proof.
  intros Hin Ha. induction l as [|x t IH]; [contradiction|]. simpl.
  destruct Hin as [->|Hin].
  - now rewrite (Qeq_bool_false _ _ Ha).
  - rewrite (IH Hin). apply andb_false_r.
Qed.

(** With two different abscissae the fit is the unique least-squares line. *)
Lemma np_polyfit1_full_rank (x ys : list Q) (a : Q) :
  0 < spread x -> List.length x = List.length ys -> In a x -> ~ a == 0 ->
  np_polyfit1 x (map Fin ys) =
    Ok (Fin ((Qlen x * Qsum (map (fun p => fst p * snd p) (combine x ys))
              - Qsum x * Qsum ys) / spread x),
        Fin ((Qsum ys
              - (Qlen x * Qsum (map (fun p => fst p * snd p) (combine x ys))
                 - Qsum x * Qsum ys) / spread x * Qsum x) / Qlen x)).
Proof.
  intros Hs Hlen Hin Ha.
  destruct x as [|x0 xs]; [contradiction|].
  unfold np_polyfit1. set (x := x0 :: xs) in *.
  rewrite length_map, Hlen, Nat.eqb_refl. cbn [negb].
  rewrite (forallb_zero_false _ a Hin Ha).
  rewrite all_finite_map_Fin.
  fold (spread x).
  rewrite Qeq_bool_false by lra.
  reflexivity.
Qed.

(* ===================================================================== *)
(** ** Table V: the per-config savings                                   *)
(* ===================================================================== *)

Lemma step_savings_spec (frac : option Q) (ref : option ServerCarbon_obj)
    (sc : ServerCarbon_obj) (sd : dict) :
  step_savings frac ref sc = Ok sd -> sd = expected_metrics frac ref sc.
Proof.
  unfold step_savings, expected_metrics.
  destruct ref as [r|].
  - cbv [savings_loop info_dict_of getitem dict_get dict_set saving as_num bind
         py_truediv String.eqb Ascii.eqb Bool.eqb blend].
    destruct (Qeq_bool (get_operational_per_sellable_core r) 0); [discriminate|].
    destruct (Qeq_bool (get_embodied_per_sellable_core r) 0); [discriminate|].
    destruct (Qeq_bool (get_carbon_per_sellable_core r) 0); [discriminate|].
    destruct frac as [f|]; intros H; injection H as <-; reflexivity.
  - cbv [zero_loop info_dict_of getitem dict_get dict_set as_num bind
         String.eqb Ascii.eqb Bool.eqb blend].
    destruct frac as [f|]; intros H; injection H as <-; reflexivity.
Qed.

(** A design with nonzero reference figures always gets its entry. *)
Lemma step_savings_returns (frac : option Q) (ref : option ServerCarbon_obj)
    (sc : ServerCarbon_obj) :
  (forall r, ref = Some r ->
     ~ get_operational_per_sellable_core r == 0
     /\ ~ get_embodied_per_sellable_core r == 0
     /\ ~ get_carbon_per_sellable_core r == 0) ->
  exists sd, step_savings frac ref sc = Ok sd.
Proof.
  intros H. unfold step_savings. destruct ref as [r|].
  - destruct (H r eq_refl) as (Ho & He & Hc).
    cbv [savings_loop info_dict_of getitem dict_get dict_set saving as_num bind
         py_truediv String.eqb Ascii.eqb Bool.eqb blend].
    rewrite (Qeq_bool_false _ _ Ho), (Qeq_bool_false _ _ He),
      (Qeq_bool_false _ _ Hc).
    destruct frac; eexists; reflexivity.
  - cbv [zero_loop info_dict_of getitem dict_get dict_set as_num bind
         String.eqb Ascii.eqb Bool.eqb blend].
    destruct frac; eexists; reflexivity.
Qed.

Lemma config_first_expected (frac : option Q) (name : string)
    (ref : option ServerCarbon_obj) (sc : ServerCarbon_obj) :
  config_first (dict_set (expected_metrics frac ref sc) "config" (PStr name))
  = expected_savings frac name ref sc.
Proof. reflexivity. Qed.

Section StepsFacts.

Variable Params : Type.
Variable ServerCarbon : string -> Params -> option string -> ServerCarbon_obj.
Variables (frac : option Q) (to_first : bool) (override_params : Params)
          (carbon_data : option string).

Local Abbreviation sc_of := (fun config => ServerCarbon config override_params carbon_data).
Local Abbreviation info_of := (fun config => info_dict_of (sc_of config)).
Local Abbreviation loop :=
  (steps_loop Params ServerCarbon frac to_first override_params carbon_data).
Local Abbreviation ref_at :=
  (fun (all : list string) (i : nat) =>
     option_map (fun k => sc_of (nth k all EmptyString))
                (reference_index to_first i)).

(** One turn of the first loop, with the entries of the configs already
    seen ([done]) in [all_info]. *)
Lemma steps_loop_turn (done rest : list string) (config : string)
    (all_savings : list dict) :
  loop (List.length done) (config :: rest) (map info_of done) all_savings
  = (savings_dict <- step_savings frac
                       (ref_at (done ++ config :: rest) (List.length done))
                       (sc_of config) ;;
     loop (S (List.length done)) rest (map info_of (done ++ [config]))
          (all_savings ++ [savings_dict])).
Proof.
  cbn [steps_loop]. unfold step_savings. rewrite map_app. cbn [map].
  destruct done as [|d0 ds].
  - cbn [List.length Nat.ltb Nat.leb reference_index option_map bind].
    case_result blend.
  - assert (Hi : (0 <? List.length (d0 :: ds))%nat = true) by reflexivity.
    rewrite Hi. cbn [List.length reference_index option_map].
    replace (S (List.length ds) - 1)%nat with (List.length ds) by lia.
    set (k := if to_first then 0%nat else List.length ds).
    assert (Hk : (k < List.length (d0 :: ds))%nat).
    { unfold k. destruct to_first; simpl; lia. }
    assert (Hidx : list_index (map info_of (d0 :: ds)) k
                   = Ok (info_of (nth k ((d0 :: ds) ++ config :: rest) EmptyString))).
    { unfold list_index. rewrite nth_error_map.
      rewrite app_nth1 by exact Hk.
      rewrite (nth_error_nth' _ EmptyString Hk). reflexivity. }
    rewrite Hidx. cbn [bind].
    case_result savings_loop.
Qed.

Lemma steps_loop_spec (rest done : list string) (all_savings : list dict)
    (out_info out_savings : list dict) :
  loop (List.length done) rest (map info_of done) all_savings
    = Ok (out_info, out_savings) ->
  out_info = map info_of (done ++ rest)
  /\ exists sds,
       out_savings = all_savings ++ sds
       /\ List.length sds = List.length rest
       /\ forall j config,
            nth_error rest j = Some config ->
            nth_error sds j =
              Some (expected_metrics frac
                      (ref_at (done ++ rest) (List.length done + j)%nat)
                      (sc_of config)).
Proof.
  revert done all_savings.
  induction rest as [|config rest IH]; intros done all_savings H.
  - cbn [steps_loop] in H. injection H as <- <-.
    rewrite !app_nil_r. split; [reflexivity|].
    exists []. rewrite app_nil_r. repeat split.
    intros [|j] c Hc; discriminate Hc.
  - rewrite steps_loop_turn in H.
    destruct (step_savings _ _ _) as [sd|e] eqn:Es; [|discriminate H].
    cbn [bind] in H. apply step_savings_spec in Es.
    assert (Hlen : S (List.length done) = List.length (done ++ [config])).
    { rewrite length_app. simpl. lia. }
    rewrite Hlen in H. apply IH in H.
    destruct H as (Hinfo & sds & Hs & Hl & Hnth).
    rewrite <- app_assoc in Hinfo, Hnth. cbn [app] in Hinfo, Hnth.
    split; [exact Hinfo|].
    exists (sd :: sds). rewrite <- app_assoc in Hs. split; [exact Hs|].
    split; [simpl; now rewrite Hl|].
    intros [|j] c Hc.
    + injection Hc as <-. rewrite Nat.add_0_r. simpl. now rewrite Es.
    + simpl in Hc. specialize (Hnth j c Hc). rewrite <- Hlen in Hnth.
      replace (List.length done + S j)%nat with (S (List.length done) + j)%nat
        by lia.
      exact Hnth.
Qed.

Lemma name_loop_spec (configs : list string) (l out : list dict) :
  List.length l = List.length configs ->
  name_loop configs l = Ok out ->
  List.length out = List.length configs
  /\ forall j config d,
       nth_error configs j = Some config ->
       nth_error l j = Some d ->
       nth_error out j =
         Some (config_first (dict_set d "config" (PStr (config_name config)))).
Proof.
  revert l out. induction configs as [|c cs IH]; intros l out Hl H.
  - destruct l; [|discriminate Hl]. simpl in H. injection H as <-.
    split; [reflexivity|]. intros [|j] ? ? Hc; discriminate Hc.
  - destruct l as [|d t]; [discriminate Hl|]. simpl in H.
    destruct (name_loop cs t) as [t'|e] eqn:Et; [|discriminate H].
    simpl in H. injection H as <-.
    injection Hl as Hl. destruct (IH _ _ Hl Et) as (Hlen & Hnth).
    split; [simpl; now rewrite Hlen|].
    intros [|j] config d' Hc Hd; simpl in *.
    + now injection Hc as <-; injection Hd as <-.
    + now apply Hnth.
Qed.

Lemma name_loop_returns (configs : list string) (l : list dict) :
  List.length l = List.length configs -> exists out, name_loop configs l = Ok out.
Proof.
  revert l. induction configs as [|c cs IH]; intros [|d t] Hl;
    try discriminate Hl.
  - now exists [].
  - injection Hl as Hl. destruct (IH t Hl) as [t' Ht]. simpl. rewrite Ht.
    simpl. eexists; reflexivity.
Qed.

Lemma steps_loop_returns (rest done : list string) (all_savings : list dict) :
  (forall config, In config (done ++ rest) ->
     ~ get_operational_per_sellable_core (sc_of config) == 0
     /\ ~ get_embodied_per_sellable_core (sc_of config) == 0
     /\ ~ get_carbon_per_sellable_core (sc_of config) == 0) ->
  exists out,
    loop (List.length done) rest (map info_of done) all_savings = Ok out.
Proof.
  revert done all_savings.
  induction rest as [|config rest IH]; intros done all_savings Hnz.
  - eexists; reflexivity.
  - rewrite steps_loop_turn.
    destruct (step_savings_returns frac
                (ref_at (done ++ config :: rest) (List.length done))
                (sc_of config)) as [sd Hsd].
    { intros r Hr. destruct done as [|d0 ds]; [discriminate Hr|].
      set (all := (d0 :: ds) ++ config :: rest) in *.
      cbn [List.length reference_index option_map] in Hr.
      assert (Hk : ((if to_first then 0 else List.length ds)
                    < List.length all)%nat).
      { unfold all. rewrite length_app. simpl. destruct to_first; lia. }
      pose proof (nth_In all EmptyString Hk) as Hin.
      set (c0 := nth _ all _) in Hr, Hin.
      injection Hr as <-. now apply Hnz. }
    rewrite Hsd. cbn [bind].
    assert (Hlen : S (List.length done) = List.length (done ++ [config])).
    { rewrite length_app. simpl. lia. }
    rewrite Hlen. apply IH.
    intros c Hc. apply Hnz. rewrite <- app_assoc in Hc. exact Hc.
Qed.

(** The table is produced whenever no config has a zero figure. *)
Lemma calculate_steps_returns (configs : list string) :
  (forall config, In config configs ->
     ~ get_operational_per_sellable_core (sc_of config) == 0
     /\ ~ get_embodied_per_sellable_core (sc_of config) == 0
     /\ ~ get_carbon_per_sellable_core (sc_of config) == 0) ->
  exists out,
    calculate_steps Params ServerCarbon configs frac to_first override_params
      carbon_data = Ok out.
Proof.
  intros Hnz. unfold calculate_steps.
  destruct (steps_loop_returns configs [] [] Hnz) as [[oi os] Hl].
  cbn [List.length map] in Hl. rewrite Hl. cbn [bind fst snd].
  destruct (steps_loop_spec configs [] [] _ _ Hl) as (Hi & sds & Hs & Hls & _).
  cbn [app] in Hi, Hs. subst os.
  destruct (name_loop_returns configs oi) as [ai Hai].
  { rewrite Hi. apply length_map. }
  destruct (name_loop_returns configs sds Hls) as [asv Hasv].
  rewrite Hai. cbn [bind]. rewrite Hasv. cbn [bind].
  eexists; reflexivity.
Qed.

End StepsFacts.

(* ===================================================================== *)
(** ** Carbon intensity: lookup and bounds                               *)
(* ===================================================================== *)

Lemma filter_nil_iff {A} (f : A -> bool) (l : list A) :
  filter f l = [] <-> forall a, In a l -> f a = false.
Proof.
  induction l as [|a t IH]; simpl.
  - split; [intros _ ? [] | reflexivity].
  - destruct (f a) eqn:E.
    + split; [discriminate|]. intros H. specialize (H a (or_introl eq_refl)).
      congruence.
    + rewrite IH. split.
      * intros H x [<-|Hx]; auto.
      * intros H x Hx. apply H. now right.
Qed.

(** The lookup by region raises IndexError exactly when no record carries
    the region, raises nothing else, and otherwise returns the intensity of
    the first record that carries it. *)
Theorem region_lookup_first_match_or_IndexError (region_name : string)
    (dc_data : list dc_record) :
  (get_dc_region_intensity region_name dc_data = Raise IndexError
   <-> forall r, In r dc_data -> Region r <> region_name)
  /\ (forall e, get_dc_region_intensity region_name dc_data = Raise e ->
                e = IndexError)
  /\ (forall before r after,
        dc_data = before ++ r :: after ->
        Region r = region_name ->
        (forall r', In r' before -> Region r' <> region_name) ->
        get_dc_region_intensity region_name dc_data
          = Ok (Fin (carbon_intensity r))).
Proof.
  unfold get_dc_region_intensity, list_index.
  split; [|split].
  - destruct (filter _ dc_data) as [|r0 t] eqn:Ef; simpl.
    + split; [intros _|reflexivity].
      intros r Hr Hreg. apply filter_nil_iff with (a := r) in Ef; [|exact Hr].
      apply String.eqb_neq in Ef. contradiction.
    + split; [discriminate|]. intros H. exfalso.
      assert (Hin : In r0 (filter (fun r => String.eqb (Region r) region_name)
                                  dc_data)) by (rewrite Ef; now left).
      apply filter_In in Hin. destruct Hin as [Hin Hreg].
      apply String.eqb_eq in Hreg. exact (H r0 Hin Hreg).
  - intros e. destruct (filter _ dc_data); simpl; congruence.
  - intros before r after -> Hreg Hbefore.
    rewrite filter_app.
    assert (Hb : filter (fun r => String.eqb (Region r) region_name) before = []).
    { apply filter_nil_iff. intros a Ha. apply String.eqb_neq. now apply Hbefore. }
    rewrite Hb. simpl. apply String.eqb_eq in Hreg. rewrite Hreg. reflexivity.
Qed.

(** With a renewable share between 0% and 100% a record's intensity lies
    between its renewable and its grid intensity (in kgCO2e/kWh), and is the
    grid intensity at 0% and the renewable one at 100%. *)
Theorem carbon_intensity_between_sources (r : dc_record) :
  0 <= Renewable_pct r <= 100 ->
  Qmin (Avg_Renewable_Intensity r) (Avg_Grid_Intensity r) / 1000
    <= carbon_intensity r
    <= Qmax (Avg_Renewable_Intensity r) (Avg_Grid_Intensity r) / 1000
  /\ (Renewable_pct r == 0 -> carbon_intensity r == Avg_Grid_Intensity r / 1000)
  /\ (Renewable_pct r == 100 ->
      carbon_intensity r == Avg_Renewable_Intensity r / 1000).
Proof.
  intros [Hlo Hhi]. unfold carbon_intensity.
  set (p := Renewable_pct r) in *. set (a := Avg_Renewable_Intensity r).
  set (g := Avg_Grid_Intensity r).
  assert (Hform : (p / 100 * a + (1 - p / 100) * g) / 1000
                  == (g + p * (a - g) / 100) / 1000) by field.
  split; [|split].
  - rewrite Hform.
    destruct (Qlt_le_dec a g) as [Hag|Hga].
    + rewrite Q.min_l, Q.max_r by lra.
      assert (0 <= p * (g - a)) by (apply Qmult_le_0_compat; lra).
      assert (p * (g - a) <= 100 * (g - a))
        by (apply Qmult_le_compat_r; lra).
      split.
      * apply Qle_shift_div_l; [reflexivity|].
        setoid_replace (a / 1000 * 1000) with a by field.
        setoid_replace (g + p * (a - g) / 100)
          with (g - p * (g - a) / 100) by field.
        assert (p * (g - a) / 100 <= g - a).
        { apply Qle_shift_div_r; [reflexivity|]. lra. }
        lra.
      * apply Qle_shift_div_r; [reflexivity|].
        setoid_replace (g / 1000 * 1000) with g by field.
        setoid_replace (g + p * (a - g) / 100)
          with (g - p * (g - a) / 100) by field.
        assert (0 <= p * (g - a) / 100).
        { apply Qle_shift_div_l; [reflexivity|]. lra. }
        lra.
    + rewrite Q.min_r, Q.max_l by lra.
      assert (0 <= p * (a - g)) by (apply Qmult_le_0_compat; lra).
      assert (p * (a - g) <= 100 * (a - g))
        by (apply Qmult_le_compat_r; lra).
      split.
      * apply Qle_shift_div_l; [reflexivity|].
        setoid_replace (g / 1000 * 1000) with g by field.
        assert (0 <= p * (a - g) / 100).
        { apply Qle_shift_div_l; [reflexivity|]. lra. }
        lra.
      * apply Qle_shift_div_r; [reflexivity|].
        setoid_replace (a / 1000 * 1000) with a by field.
        assert (p * (a - g) / 100 <= a - g).
        { apply Qle_shift_div_r; [reflexivity|]. lra. }
        lra.
  - intros Hp. rewrite Hp. field.
  - intros Hp. rewrite Hp. field.
Qed.

Lemma carbon_intensity_between_sources_witness :
  let r := dc_record_of "north" 60 30 400 in
  30 / 1000 <= carbon_intensity r <= 400 / 1000.
Proof.
  cbv zeta.
  destruct (carbon_intensity_between_sources (dc_record_of "north" 60 30 400))
    as (H & _).
  - split; discriminate.
  - exact H.
Defined.

(** A larger renewable share never raises a record's intensity when the
    renewable sources are the cleaner ones. *)
Theorem carbon_intensity_falls_with_renewables (region region' : string)
    (pct pct' renewable grid : Q) :
  renewable <= grid -> pct <= pct' ->
  carbon_intensity (dc_record_of region' pct' renewable grid)
    <= carbon_intensity (dc_record_of region pct renewable grid).
Proof.
  intros Hrg Hp. unfold carbon_intensity, dc_record_of.
  cbn [Renewable_pct Avg_Renewable_Intensity Avg_Grid_Intensity].
  unfold Qdiv at 1 4. apply Qmult_le_compat_r; [|discriminate].
  assert (H : 0 <= (pct' - pct) * (grid - renewable))
    by (apply Qmult_le_0_compat; lra).
  setoid_replace (pct' / 100 * renewable + (1 - pct' / 100) * grid)
    with (pct / 100 * renewable + (1 - pct / 100) * grid
          - (pct' - pct) * (grid - renewable) / 100) by field.
  set (t := (pct' - pct) * (grid - renewable)) in *.
  set (A := pct / 100 * renewable + (1 - pct / 100) * grid).
  assert (0 <= t / 100) by (apply Qle_shift_div_l; [reflexivity | lra]).
  lra.
Qed.

Lemma carbon_intensity_falls_with_renewables_witness :
  carbon_intensity (dc_record_of "a" 80 30 400)
    <= carbon_intensity (dc_record_of "b" 20 30 400).
Proof.
  apply (carbon_intensity_falls_with_renewables "b" "a" 20 80 30 400);
    discriminate.
Defined.

Lemma Qsum_bounds (l : list Q) (lo hi : Q) :
  (forall x, In x l -> lo <= x <= hi) ->
  Qlen l * lo <= Qsum l <= Qlen l * hi.
Proof.
  induction l as [|a t IH]; intros H.
  - change (Qlen (@nil Q)) with 0. cbn [Qsum]. lra.
  - rewrite Qlen_cons. cbn [Qsum].
    destruct (H a (or_introl eq_refl)).
    destruct IH as [IH1 IH2]; [intros x Hx; apply H; now right|]. lra.
Qed.

Lemma Qmean_bounds (l : list Q) (lo hi : Q) :
  l <> [] -> (forall x, In x l -> lo <= x <= hi) ->
  lo <= Qsum l / Qlen l <= hi.
Proof.
  intros Hne H. pose proof (Qlen_pos l Hne) as Hn.
  destruct (Qsum_bounds l lo hi H) as [H1 H2]. split.
  - apply Qle_shift_div_l; [exact Hn|]. lra.
  - apply Qle_shift_div_r; [exact Hn|]. lra.
Qed.

(** The average intensity of a non-empty table is a finite number between
    the smallest and the largest record intensity. *)
Theorem average_intensity_within_records (dc_data : list dc_record) (lo hi : Q) :
  dc_data <> [] ->
  (forall r, In r dc_data -> lo <= carbon_intensity r <= hi) ->
  exists a, calculate_average_dc_carbon_intensity dc_data = Fin a
            /\ lo <= a <= hi.
Proof.
  intros Hne H. unfold calculate_average_dc_carbon_intensity.
  rewrite <- (map_map carbon_intensity Fin).
  rewrite series_mean_finite
    by (destruct dc_data; [congruence | discriminate]).
  eexists. split; [reflexivity|].
  apply Qmean_bounds.
  - destruct dc_data; [congruence | discriminate].
  - intros x Hx. apply in_map_iff in Hx. destruct Hx as (r & <- & Hr). auto.
Qed.

Lemma average_intensity_within_records_witness :
  exists a, calculate_average_dc_carbon_intensity dc_pair = Fin a
            /\ 178 # 1000 <= a <= 500 # 1000.
Proof.
  apply (average_intensity_within_records dc_pair).
  - discriminate.
  - intros r [<-|[<-|[]]]; split; discriminate.
Defined.

(* ===================================================================== *)
(** ** The cluster aggregation: outcomes and bounds                      *)
(* ===================================================================== *)

Lemma special_fadd_l (a b : pyfloat) : special a -> special (fadd a b).
Proof.
  unfold special. intros [-> | [-> | ->]]; destruct b; simpl; auto.
Qed.

Lemma special_fadd_r (a b : pyfloat) : special b -> special (fadd a b).
Proof.
  unfold special. intros [-> | [-> | ->]]; destruct a; simpl; auto.
Qed.

Lemma special_fmul_Fin (a : pyfloat) (w : Q) : special a -> special (fmul a (Fin w)).
Proof.
  unfold special, fmul, inf_of_sign.
  intros [-> | [-> | ->]]; try destruct (Qsgn w); simpl; auto.
Qed.

Lemma special_fdiv_Fin (a : pyfloat) (w : Q) : special a -> special (fdiv a (Fin w)).
Proof.
  unfold special, fdiv.
  intros [-> | [-> | ->]]; try destruct (Qsgn w); simpl; auto.
Qed.

Lemma special_not_Fin (a : pyfloat) : special a -> forall q, a <> Fin q.
Proof. intros [-> | [-> | ->]] q; discriminate. Qed.

Lemma int_round_special (a : pyfloat) :
  special a -> int_round a = Raise ValueError \/ int_round a = Raise OverflowError.
Proof. intros [-> | [-> | ->]]; simpl; auto. Qed.

Lemma NaN_fadd_l (b : pyfloat) : fadd NaN b = NaN.
Proof. reflexivity. Qed.

Lemma NaN_fadd_r (a : pyfloat) : fadd a NaN = NaN.
Proof. destruct a; reflexivity. Qed.


Section ClusterOutcomes.

Variable Params : Type.
Variable ServerCarbon : string -> Params -> option string -> ServerCarbon_obj.
Variable ServerMaintenance :
  string -> string -> Params -> string -> ServerMaintenance_obj.

Variables (og_config new_config : string) (params : Params) (buffer : Q)
          (data_source_dir : string).

Local Abbreviation og_sc := (ServerCarbon og_config params (Some data_source_dir)).
Local Abbreviation new_sc := (ServerCarbon new_config params (Some data_source_dir)).
Local Abbreviation og_m :=
  (ServerMaintenance og_config afr_yaml params data_source_dir).
Local Abbreviation new_m :=
  (ServerMaintenance new_config afr_yaml params data_source_dir).
Local Abbreviation run := (process_csv Params ServerCarbon ServerMaintenance).
Local Abbreviation columns :=
  (row_columns buffer (get_per_server_carbon og_sc) (get_AFRs og_m)
     (get_vcores og_sc) (get_per_server_carbon new_sc) (get_AFRs new_m)
     (get_vcores new_sc)).
Local Abbreviation sizes := (map OriginalClusterSize).

Lemma mapM_all_Ok {A B} (f : A -> result B) (g : A -> B) (l : list A) :
  (forall a, f a = Ok (g a)) -> mapM f l = Ok (map g l).
Proof.
  intros H. induction l as [|a t IH]; simpl; [reflexivity|].
  now rewrite H, IH.
Qed.

Lemma mapM_first_error {A B} (f : A -> result B) (a : A) (t : list A) (e : exn) :
  f a = Raise e -> mapM f (a :: t) = Raise e.
Proof. intros H. simpl. now rewrite H. Qed.

Lemma sizes_of_columns (df : list cluster_row) :
  map (fun o => OriginalClusterSize (row o)) (map columns df) = sizes df.
Proof. rewrite map_map. reflexivity. Qed.

(** With cores in the baseline design, a run is the pure frame followed by
    the two rollups. *)
Lemma process_csv_with_cores (df : list cluster_row) (weight_cluster : bool) :
  ~ get_vcores og_sc == 0 ->
  run df og_config new_config params buffer weight_cluster data_source_dir
  = (w <- np_average (map perc_saved_carbon (map columns df)) (sizes df) ;;
     Ok (map columns df,
         if weight_cluster then w
         else series_mean (map perc_saved_carbon (map columns df)))).
Proof.
  intros Hv. unfold process_csv.
  match goal with |- context [mapM ?f df] => set (step := f) end.
  rewrite (mapM_all_Ok step columns).
  - cbn [bind]. rewrite sizes_of_columns.
    destruct (np_average _ _); cbn [bind]; [|reflexivity].
    destruct weight_cluster; reflexivity.
  - intros r. unfold step, row_columns. cbn [math_ceil bind].
    rewrite (fdiv_finite _ _ Hv). reflexivity.
Qed.

(** Without cores, the first row already fails in [math.ceil]. *)
Lemma process_csv_without_cores (r : cluster_row) (t : list cluster_row)
    (weight_cluster : bool) :
  get_vcores og_sc == 0 ->
  run (r :: t) og_config new_config params buffer weight_cluster data_source_dir
  = Raise (zero_cores_error buffer (get_vcores og_sc) (get_vcores new_sc) r).
Proof.
  intros Hv. unfold process_csv.
  match goal with |- context [mapM ?f (r :: t)] => set (step := f) end.
  rewrite (mapM_first_error step r t
             (zero_cores_error buffer (get_vcores og_sc) (get_vcores new_sc) r)).
  - reflexivity.
  - unfold step, zero_cores_error. cbn [math_ceil bind fdiv].
    apply Qeq_bool_iff in Hv. rewrite Hv. unfold inf_of_sign, Qsgn.
    match goal with |- context [Qeq_bool ?x 0] =>
      destruct (Qeq_bool x 0) eqn:E;
      [apply Qeq_bool_iff, Qeq_alt in E; rewrite E; reflexivity
      | apply Qeq_bool_neq in E; destruct (Qcompare_spec x 0) as [E'|E'|E'];
        [contradiction | reflexivity | reflexivity]]
    end.
Qed.


End ClusterOutcomes.


Lemma Qdot_bounds (ps : list Q) (w : list Z) (lo hi : Q) :
  List.length ps = List.length w ->
  (forall p, In p ps -> lo <= p <= hi) ->
  (forall z, In z w -> (0 <= z)%Z) ->
  inject_Z (Zsum w) * lo <= Qdot ps w <= inject_Z (Zsum w) * hi.
Proof.
  unfold Qdot. revert w.
  induction ps as [|p ps IH]; intros [|z w] Hlen Hp Hw; try discriminate Hlen.
  - cbn [combine map Qsum Zsum]. change (inject_Z 0) with 0. lra.
  - cbn [combine map Qsum Zsum fst snd]. rewrite inject_Z_plus.
    destruct (Hp p (or_introl eq_refl)) as [Hlo Hhi].
    assert (Hz : 0 <= inject_Z z).
    { change 0 with (inject_Z 0). rewrite <- Zle_Qle. apply Hw. now left. }
    destruct (IH w) as [IH1 IH2];
      [now injection Hlen | intros; apply Hp; now right
      | intros; apply Hw; now right |].
    set (x := inject_Z z) in *. set (S := inject_Z (Zsum w)) in *.
    set (D := Qsum _) in *.
    split; nra.
Qed.

Lemma finite_percentages (P : Q -> Prop) (out : list cluster_out) :
  Forall (fun o => exists p, perc_saved_carbon o = Fin p /\ P p) out ->
  exists ps, map perc_saved_carbon out = map Fin ps /\ Forall P ps
             /\ List.length ps = List.length out.
Proof.
  intros F. induction F as [|o t (p & Hp & HP) _ (ps & Hps & Fps & Hl)].
  - exists []. repeat split. constructor.
  - exists (p :: ps). simpl. rewrite Hp, Hps, Hl. repeat split.
    now constructor.
Qed.

Section ClusterBounds.

Variable Params : Type.
Variable ServerCarbon : string -> Params -> option string -> ServerCarbon_obj.
Variable ServerMaintenance :
  string -> string -> Params -> string -> ServerMaintenance_obj.

Variables (og_config new_config : string) (params : Params) (buffer : Q)
          (data_source_dir : string).

Local Abbreviation og_sc := (ServerCarbon og_config params (Some data_source_dir)).
Local Abbreviation new_sc := (ServerCarbon new_config params (Some data_source_dir)).
Local Abbreviation og_m :=
  (ServerMaintenance og_config afr_yaml params data_source_dir).
Local Abbreviation new_m :=
  (ServerMaintenance new_config afr_yaml params data_source_dir).
Local Abbreviation run := (process_csv Params ServerCarbon ServerMaintenance).
Local Abbreviation columns :=
  (row_columns buffer (get_per_server_carbon og_sc) (get_AFRs og_m)
     (get_vcores og_sc) (get_per_server_carbon new_sc) (get_AFRs new_m)
     (get_vcores new_sc)).
Local Abbreviation sizes := (map OriginalClusterSize).

(** What a returned run holds, in one place. *)
Lemma process_csv_Ok_inv (df : list cluster_row) (weight_cluster : bool)
    (out : list cluster_out) (avg : pyfloat) :
  run df og_config new_config params buffer weight_cluster data_source_dir
    = Ok (out, avg) ->
  ~ get_vcores og_sc == 0
  /\ Zsum (sizes df) <> 0%Z
  /\ out = map columns df
  /\ np_average (map perc_saved_carbon out) (sizes df)
     = Ok (if weight_cluster then avg
           else fdiv (fsum (map (fun aw => fmul (fst aw) (Fin (inject_Z (snd aw))))
                                (combine (map perc_saved_carbon out) (sizes df))))
                     (Fin (inject_Z (Zsum (sizes df)))))
  /\ (weight_cluster = false -> avg = series_mean (map perc_saved_carbon out)).
Proof.
  intros H.
  assert (Hv : ~ get_vcores og_sc == 0).
  { intros Hv. destruct df as [|r t].
    - cbn in H. discriminate H.
    - rewrite (process_csv_without_cores _ _ _ _ _ _ _ _ _ _ _ Hv) in H.
      discriminate H. }
  split; [exact Hv|].
  rewrite (process_csv_with_cores _ _ _ _ _ _ _ _ _ _ Hv) in H.
  unfold np_average in *.
  destruct (Z.eqb_spec (Zsum (sizes df)) 0) as [E|NE];
    [discriminate H|].
  cbn [bind] in H. split; [exact NE|].
  destruct weight_cluster; injection H as <- <-; repeat split; auto;
    discriminate.
Qed.

Lemma sizes_nonempty (df : list cluster_row) :
  Zsum (sizes df) <> 0%Z -> df <> [].
Proof. intros H ->. now apply H. Qed.

Lemma rollup_range (df : list cluster_row) (weight_cluster : bool)
    (out : list cluster_out) (avg : pyfloat) (lo hi : Q) :
  run df og_config new_config params buffer weight_cluster data_source_dir
    = Ok (out, avg) ->
  (forall r, In r df -> (0 <= OriginalClusterSize r)%Z) ->
  Forall (fun o => exists p, perc_saved_carbon o = Fin p /\ lo <= p <= hi) out ->
  exists a, avg = Fin a /\ lo <= a <= hi.
Proof.
  intros Hrun Hn Hfin.
  destruct (finite_percentages _ _ Hfin) as (ps & Hps & Fps & Hl).
  rewrite (process_csv_rollup _ _ _ _ _ _ _ _ _ _ _ _ ps Hrun Hps).
  destruct (process_csv_Ok_inv _ _ _ _ Hrun) as (_ & Hz & Hout & _).
  assert (Hne : ps <> []).
  { intros ->. apply (sizes_nonempty _ Hz). subst out.
    rewrite length_map in Hl. destruct df; [reflexivity | discriminate Hl]. }
  rewrite Forall_forall in Fps.
  destruct weight_cluster; eexists; (split; [reflexivity|]).
  - assert (Hpos : 0 < inject_Z (Zsum (sizes df))).
    { change 0 with (inject_Z 0). rewrite <- Zlt_Qlt.
      assert (0 <= Zsum (sizes df))%Z.
      { clear -Hn. induction df as [|r t IH]; simpl; [lia|].
        assert (0 <= OriginalClusterSize r)%Z by (apply Hn; now left).
        assert (0 <= Zsum (sizes t))%Z by (apply IH; intros; apply Hn; now right).
        lia. }
      lia. }
    destruct (Qdot_bounds ps (sizes df) lo hi) as [H1 H2].
    + rewrite Hl. subst out. now rewrite !length_map.
    + exact Fps.
    + intros z Hin. apply in_map_iff in Hin. destruct Hin as (r & <- & Hr).
      now apply Hn.
    + split.
      * apply Qle_shift_div_l; [exact Hpos|]. lra.
      * apply Qle_shift_div_r; [exact Hpos|]. lra.
  - now apply Qmean_bounds.
Qed.

(** Both rollups of finite percentages stay within the range of the rows,
    as long as no cluster size is negative. *)
Theorem rollups_within_row_range (df : list cluster_row) (weight_cluster : bool)
    (out : list cluster_out) (avg : pyfloat) (lo hi : Q) :
  run df og_config new_config params buffer weight_cluster data_source_dir
    = Ok (out, avg) ->
  (forall r, In r df -> (0 <= OriginalClusterSize r)%Z) ->
  percentages (fun p => lo <= p <= hi) out ->
  exists a, avg = Fin a /\ lo <= a <= hi.
Proof. apply rollup_range. Qed.

Local Abbreviation c_og := (get_per_server_carbon og_sc).
Local Abbreviation c_new := (get_per_server_carbon new_sc).
Local Abbreviation afr_og := (get_AFRs og_m).
Local Abbreviation afr_new := (get_AFRs new_m).
Local Abbreviation vc_og := (get_vcores og_sc).
Local Abbreviation vc_new := (get_vcores new_sc).



Lemma inject_Z_nonneg (z : Z) : (0 <= z)%Z -> 0 <= inject_Z z.
Proof. intros H. change 0 with (inject_Z 0). now rewrite <- Zle_Qle. Qed.








Local Abbreviation pct :=
  (fun r => (start_og_carbon (columns r) - total_carbon (columns r)) * 100
            / start_og_carbon (columns r)).






Lemma Qdot_constant_weights (ps : list Q) (w : list Z) (n0 : Z) :
  List.length ps = List.length w -> (forall z, In z w -> z = n0) ->
  Qdot ps w == inject_Z n0 * Qsum ps
  /\ inject_Z (Zsum w) == inject_Z n0 * Qlen ps.
Proof.
  unfold Qdot. revert w.
  induction ps as [|p ps IH]; intros [|z w] Hlen Hw; try discriminate Hlen.
  - cbn [combine map Qsum Zsum]. change (Qlen (@nil Q)) with 0.
    change (inject_Z 0) with 0. split; ring.
  - cbn [combine map Qsum Zsum fst snd]. rewrite Qlen_cons, inject_Z_plus.
    rewrite (Hw z (or_introl eq_refl)).
    destruct (IH w) as [IH1 IH2];
      [now injection Hlen | intros; apply Hw; now right|].
    rewrite IH1, IH2. split; ring.
Qed.

(** When all clusters have the same size, weighting changes nothing: the two
    rollups of finite percentages are the same number. *)
Theorem rollups_agree_on_equal_sizes (df : list cluster_row) (n0 : Z)
    (out out' : list cluster_out) (weighted unweighted : pyfloat) :
  run df og_config new_config params buffer true data_source_dir
    = Ok (out, weighted) ->
  run df og_config new_config params buffer false data_source_dir
    = Ok (out', unweighted) ->
  (forall r, In r df -> OriginalClusterSize r = n0) ->
  percentages (fun _ => True) out ->
  out' = out /\ feq weighted unweighted.
Proof.
  intros Ht Hf Hn Hfin.
  destruct (process_csv_Ok_inv _ _ _ _ Ht) as (_ & Hz & Hout & _).
  destruct (process_csv_Ok_inv _ _ _ _ Hf) as (_ & _ & Hout' & _).
  subst out out'. split; [reflexivity|].
  destruct (finite_percentages _ _ Hfin) as (ps & Hps & _ & Hl).
  rewrite (process_csv_rollup _ _ _ _ _ _ _ _ _ _ _ _ ps Ht Hps).
  rewrite (process_csv_rollup _ _ _ _ _ _ _ _ _ _ _ _ ps Hf Hps).
  destruct (Qdot_constant_weights ps (sizes df) n0) as [Hd Hs].
  - rewrite Hl. now rewrite !length_map.
  - intros z Hin. apply in_map_iff in Hin. destruct Hin as (r & <- & Hr). auto.
  - cbn [feq]. rewrite Hd, Hs.
    assert (Hn0 : ~ inject_Z n0 == 0).
    { intros E. apply Hz. rewrite E in Hs.
      assert (H0 : inject_Z (Zsum (sizes df)) == 0) by (rewrite Hs; ring).
      unfold Qeq in H0. simpl in H0. lia. }
    assert (Hlen : ~ Qlen ps == 0).
    { intros E. apply Hz. rewrite E in Hs.
      assert (H0 : inject_Z (Zsum (sizes df)) == 0) by (rewrite Hs; ring).
      unfold Qeq in H0. simpl in H0. lia. }
    field. split; assumption.
Qed.

Lemma fsum_NaN (l : list pyfloat) : In NaN l -> fsum l = NaN.
Proof.
  induction l as [|a t IH]; [contradiction|]. intros [->|Hin]; cbn [fsum].
  - reflexivity.
  - rewrite (IH Hin). apply NaN_fadd_r.
Qed.

Lemma special_times_zero (a : pyfloat) : special a -> fmul a (Fin (inject_Z 0)) = NaN.
Proof. intros [-> | [-> | ->]]; reflexivity. Qed.

Lemma In_combine_maps {A B C} (f : A -> B) (g : A -> C) (l : list A) (a : A) :
  In a l -> In (f a, g a) (combine (map f l) (map g l)).
Proof.
  induction l as [|x t IH]; [contradiction|]. intros [->|Hin]; simpl; auto.
Qed.

Lemma weighted_NaN_on_empty_cluster (df : list cluster_row) (r : cluster_row) :
  ~ vc_og == 0 -> Zsum (sizes df) <> 0%Z ->
  In r df -> OriginalClusterSize r = 0%Z ->
  run df og_config new_config params buffer true data_source_dir
    = Ok (map columns df, NaN).
Proof.
  intros Hv Hz Hin Hn.
  rewrite (process_csv_with_cores Params ServerCarbon ServerMaintenance
             og_config new_config params buffer data_source_dir _ _ Hv).
  unfold np_average.
  destruct (Z.eqb_spec (Zsum (sizes df)) 0) as [E|_]; [contradiction|].
  cbn [bind]. f_equal. f_equal.
  rewrite fsum_NaN; [reflexivity|].
  apply in_map_iff.
  exists (perc_saved_carbon (columns r), OriginalClusterSize r). split.
  - cbn [fst snd]. rewrite Hn. apply special_times_zero.
    cbn [row_columns perc_saved_carbon]. apply fdiv_by_zero.
    change (spec_baseline_total buffer c_og afr_og r == 0).
    now apply spec_baseline_total_zero.
  - rewrite map_map.
    apply (In_combine_maps (fun x => perc_saved_carbon (columns x))
                           OriginalClusterSize df r Hin).
Qed.

(** One empty cluster ([OriginalClusterSize = 0]) anywhere in the table turns
    the weighted rollup into NaN: its percentage is not a number and its
    zero weight does not cancel it. *)
Theorem empty_cluster_poisons_weighted_rollup (df : list cluster_row)
    (r : cluster_row) :
  ~ vc_og == 0 -> Zsum (sizes df) <> 0%Z ->
  In r df -> OriginalClusterSize r = 0%Z ->
  exists out,
    run df og_config new_config params buffer true data_source_dir
      = Ok (out, NaN).
Proof.
  intros Hv Hz Hin Hn. eexists.
  now apply (weighted_NaN_on_empty_cluster df r).
Qed.

Lemma Zsum_app (l1 l2 : list Z) : Zsum (l1 ++ l2) = (Zsum l1 + Zsum l2)%Z.
Proof. induction l1 as [|a t IH]; simpl; [reflexivity|]. rewrite IH. lia. Qed.

Lemma series_mean_skips_NaN (l1 l2 : list pyfloat) :
  series_mean (l1 ++ NaN :: l2) = series_mean (l1 ++ l2).
Proof. unfold series_mean. rewrite !filter_app. reflexivity. Qed.

Lemma abandoned_row_is_NaN :
  ~ vc_og == 0 -> perc_saved_carbon (columns (mk_row 0 0 0)) = NaN.
Proof.
  intros Hv. cbn [row_columns perc_saved_carbon mk_row OriginalClusterSize
                  NewClusterSize_Baseline NewClusterSize_GreenSKU].
  change (inject_Z 0) with 0.
  rewrite (Qceiling_comp (0 * buffer) (inject_Z 0)) by ring.
  rewrite (Qceiling_comp ((0 * vc_og + 0 * vc_new) * buffer / vc_og) (inject_Z 0))
    by (change (inject_Z 0) with 0; field; exact Hv).
  rewrite Qceiling_Z. change (inject_Z 0) with 0.
  set (s := (0 + 0) * c_og * (1 + afr_og)).
  set (x := (s - _) * 100).
  assert (Hs : s == 0) by (unfold s; ring).
  assert (Hx : x == 0) by (unfold x, s; ring).
  unfold fdiv. apply Qeq_bool_iff in Hs. rewrite Hs.
  unfold inf_of_sign, Qsgn. apply Qeq_alt in Hx. now rewrite Hx.
Qed.

(** The unweighted rollup does not see a cluster that is empty before and
    after the swap: adding the row (0, 0, 0) anywhere leaves it unchanged. *)
Theorem unweighted_rollup_skips_empty_cluster (pre post : list cluster_row)
    (out : list cluster_out) (avg : pyfloat) :
  run (pre ++ post) og_config new_config params buffer false data_source_dir
    = Ok (out, avg) ->
  exists out',
    run (pre ++ mk_row 0 0 0 :: post) og_config new_config params buffer false
        data_source_dir
      = Ok (out', avg).
Proof.
  intros H.
  destruct (process_csv_Ok_inv _ _ _ _ H) as (Hv & Hz & Hout & _ & Havg).
  specialize (Havg eq_refl). subst out avg.
  rewrite (process_csv_with_cores Params ServerCarbon ServerMaintenance
             og_config new_config params buffer data_source_dir _ _ Hv).
  assert (Hz' : Zsum (sizes (pre ++ mk_row 0 0 0 :: post)) <> 0%Z).
  { rewrite map_app, Zsum_app in *. cbn [map Zsum mk_row OriginalClusterSize].
    lia. }
  unfold np_average.
  destruct (Z.eqb_spec (Zsum (sizes (pre ++ mk_row 0 0 0 :: post))) 0)
    as [E|_]; [contradiction|].
  cbn [bind]. eexists. f_equal. f_equal.
  rewrite !map_app. cbn [map]. rewrite (abandoned_row_is_NaN Hv).
  apply series_mean_skips_NaN.
Qed.

End ClusterBounds.

(* ===================================================================== *)
(** ** The reporting cells: failures and bounds                          *)
(* ===================================================================== *)

Lemma round_half_even_between (q : Q) (a b : Z) :
  inject_Z a <= q <= inject_Z b ->
  (a <= round_half_even q <= b)%Z.
Proof.
  intros [Ha Hb]. pose proof (round_half_even_nearest q) as Hn.
  unfold nearest_int in Hn. apply Qabs_Qle_condition in Hn.
  destruct Hn as [H1 H2]. set (r := round_half_even q) in *. split.
  - enough (a - 1 < r)%Z by lia. rewrite Zlt_Qlt.
    unfold Z.sub. rewrite inject_Z_plus, inject_Z_opp.
    change (inject_Z 1) with 1. lra.
  - enough (r < b + 1)%Z by lia. rewrite Zlt_Qlt.
    rewrite inject_Z_plus. change (inject_Z 1) with 1. lra.
Qed.


Lemma cluster_dc_fraction_range (baseline_sc : ServerCarbon_obj) :
  0 <= get_rack_perc_operational baseline_sc <= 100 ->
  compute_embodied <= cluster_dc_fraction baseline_sc <= compute_operational.
Proof.
  intros [Hlo Hhi]. unfold cluster_dc_fraction, baseline_operational_fraction.
  set (p := get_rack_perc_operational baseline_sc) in *.
  assert (He : compute_embodied == 419016 # 1000000) by reflexivity.
  assert (Ho : compute_operational == 676172 # 1000000) by reflexivity.
  rewrite He, Ho.
  setoid_replace ((676172 # 1000000) * (p / 100)
                  + (419016 # 1000000) * (1 - p / 100))
    with ((419016 # 1000000) + (257156 # 100000000) * p) by field.
  split; lra.
Qed.

Lemma dc_savings_range (cs : Z) (baseline_sc : ServerCarbon_obj) :
  0 <= get_rack_perc_operational baseline_sc <= 100 ->
  ((0 <= cs)%Z -> (0 <= dc_savings cs baseline_sc <= cs)%Z)
  /\ ((cs <= 0)%Z -> (cs <= dc_savings cs baseline_sc <= 0)%Z).
Proof.
  intros Hp. destruct (cluster_dc_fraction_range baseline_sc Hp) as [Hlo Hhi].
  assert (He : compute_embodied == 419016 # 1000000) by reflexivity.
  assert (Ho : compute_operational == 676172 # 1000000) by reflexivity.
  rewrite He in Hlo. rewrite Ho in Hhi.
  unfold dc_savings, dc_savings_product.
  set (f := cluster_dc_fraction baseline_sc) in *.
  split; intros Hcs; apply round_half_even_between;
    rewrite Zle_Qle in Hcs; change (inject_Z 0) with 0 in *;
    set (c := inject_Z cs) in *; split; nra.
Qed.

(** With a rack-level operational share between 0% and 100%, the datacenter
    figure has the sign of the cluster figure and never exceeds it in
    size: the discount never amplifies, and never flips, a saving. *)
Theorem dc_savings_within_cluster_savings (cs : Z) (baseline_sc : ServerCarbon_obj) :
  0 <= get_rack_perc_operational baseline_sc <= 100 ->
  ((0 <= cs)%Z -> (0 <= dc_savings cs baseline_sc <= cs)%Z)
  /\ ((cs <= 0)%Z -> (cs <= dc_savings cs baseline_sc <= 0)%Z).
Proof. apply dc_savings_range. Qed.

Lemma dc_savings_within_cluster_savings_witness :
  (0 <= dc_savings 14 half_blend_baseline <= 14)%Z.
Proof.
  apply (dc_savings_within_cluster_savings 14 half_blend_baseline).
  - split; discriminate.
  - discriminate.
Defined.

Section ReportOutcomes.

Variable Params : Type.
Variable ServerCarbon : string -> Params -> option string -> ServerCarbon_obj.
Variable ServerMaintenance :
  string -> string -> Params -> string -> ServerMaintenance_obj.
Variables (cluster_data : list cluster_row) (baseline full : string)
          (EVAL_PARAMS : Params).

Local Abbreviation report :=
  (report_savings Params ServerCarbon ServerMaintenance cluster_data baseline
     full EVAL_PARAMS).
Local Abbreviation weighted_run :=
  (process_csv Params ServerCarbon ServerMaintenance cluster_data baseline full
     EVAL_PARAMS (1 # 10) true "../data/carbon_data").

(** The reporting cells fail exactly when the weighted run fails (with the
    same exception) or hands back a NaN (ValueError from [int(round(nan))])
    or an infinity (OverflowError); on a finite average they report two
    whole numbers. *)
Theorem report_savings_outcomes :
  (forall e, weighted_run = Raise e -> report = Raise e)
  /\ (forall out, weighted_run = Ok (out, NaN) -> report = Raise ValueError)
  /\ (forall out, weighted_run = Ok (out, PInf) \/ weighted_run = Ok (out, NInf) ->
        report = Raise OverflowError)
  /\ (forall out avg, weighted_run = Ok (out, Fin avg) ->
        exists cs dc, report = Ok (cs, dc)).
Proof.
  unfold report_savings. repeat split.
  - intros e ->. reflexivity.
  - intros out ->. reflexivity.
  - intros out [-> | ->]; reflexivity.
  - intros out avg ->. cbn [bind snd cluster_savings int_round].
    eexists. eexists. reflexivity.
Qed.



End ReportOutcomes.

(* ===================================================================== *)
(** ** The cluster properties on sample tables                           *)
(* ===================================================================== *)


Lemma rollups_within_row_range_witness :
  exists out a,
    demo_process_csv table_10_30 green_yaml 0 true = Ok (out, Fin a)
    /\ 10 <= a <= 30.
Proof.
  destruct (demo_process_csv table_10_30 green_yaml 0 true)
    as [[out avg]|e] eqn:E; [|vm_compute in E; discriminate].
  destruct (rollups_within_row_range unit demo_ServerCarbon
              demo_ServerMaintenance baseline_yaml green_yaml tt 0 "data"
              table_10_30 true out avg 10 30 E) as (a & -> & Ha).
  - intros r [<-|[<-|[]]]; discriminate.
  - vm_compute in E. injection E as <- _.
    repeat constructor; eexists; (split; [reflexivity|]); split; discriminate.
  - exists out, a. split; [reflexivity | exact Ha].
Defined.



Lemma rollups_agree_on_equal_sizes_witness :
  exists out weighted unweighted,
    demo_process_csv table_equal_sizes green_yaml (1 # 10) true
      = Ok (out, weighted)
    /\ demo_process_csv table_equal_sizes green_yaml (1 # 10) false
       = Ok (out, unweighted)
    /\ feq weighted unweighted.
Proof.
  destruct (demo_process_csv table_equal_sizes green_yaml (1 # 10) true)
    as [[out weighted]|e] eqn:Et; [|vm_compute in Et; discriminate].
  destruct (demo_process_csv table_equal_sizes green_yaml (1 # 10) false)
    as [[out' unweighted]|e] eqn:Ef; [|vm_compute in Ef; discriminate].
  destruct (rollups_agree_on_equal_sizes unit demo_ServerCarbon
              demo_ServerMaintenance baseline_yaml green_yaml tt (1 # 10) "data"
              table_equal_sizes 100 out out' weighted unweighted Et Ef)
    as (-> & Hfeq).
  - intros r [<-|[<-|[]]]; reflexivity.
  - vm_compute in Et. injection Et as <- _.
    repeat constructor; eexists; (split; [reflexivity | exact I]).
  - exists out, weighted, unweighted. repeat split; assumption.
Defined.

Lemma empty_cluster_poisons_weighted_rollup_witness :
  exists out,
    demo_process_csv table_with_empty_cluster green_yaml (1 # 10) true
      = Ok (out, NaN).
Proof.
  apply (empty_cluster_poisons_weighted_rollup unit demo_ServerCarbon
           demo_ServerMaintenance baseline_yaml green_yaml tt (1 # 10) "data"
           table_with_empty_cluster (mk_row 0 0 0)).
  - discriminate.
  - discriminate.
  - now left.
  - reflexivity.
Defined.

Lemma unweighted_rollup_skips_empty_cluster_witness :
  exists out out' avg,
    demo_process_csv [mk_row 100 80 20] green_yaml (1 # 10) false
      = Ok (out, avg)
    /\ demo_process_csv table_with_empty_cluster green_yaml (1 # 10) false
       = Ok (out', avg).
Proof.
  destruct (demo_process_csv [mk_row 100 80 20] green_yaml (1 # 10) false)
    as [[out avg]|e] eqn:E; [|vm_compute in E; discriminate].
  destruct (unweighted_rollup_skips_empty_cluster unit demo_ServerCarbon
              demo_ServerMaintenance baseline_yaml green_yaml tt (1 # 10) "data"
              [] [mk_row 100 80 20] out avg E) as (out' & E').
  exists out, out', avg. split; [reflexivity | exact E'].
Defined.


(* ===================================================================== *)
(** ** The fan-power fit: exact data and normalization                   *)
(* ===================================================================== *)

Lemma Qsum_map_zero {A} (f : A -> Q) (l : list A) :
  (forall a, In a l -> f a == 0) -> Qsum (map f l) == 0.
Proof.
  intros H. apply Qsum_zero, Forall_map, Forall_forall. exact H.
Qed.

Lemma fit_of_distinct_samples (df : list fan_sample) (s1 s2 : fan_sample)
    (plot : bool) :
  In s1 df -> In s2 df -> ~ server_power s1 == server_power s2 ->
  let x := map server_power df in
  let y := map fan_power df in
  let sxy := Qsum (map (fun p => fst p * snd p) (combine x y)) in
  0 < spread x /\ 0 < Qlen df
  /\ get_fan_power_model df plot false
     = Ok (Fin ((Qlen x * sxy - Qsum x * Qsum y) / spread x),
           Fin ((Qsum y - (Qlen x * sxy - Qsum x * Qsum y) / spread x * Qsum x)
                / Qlen x)).
Proof.
  intros H1 H2 Hne. cbv zeta.
  assert (Hs : 0 < spread (map server_power df)).
  { apply (spread_pos _ (server_power s1) (server_power s2));
      auto using in_map. }
  assert (Hn : 0 < Qlen df) by (apply Qlen_pos; intros ->; contradiction).
  assert (Hnz : exists s, In s df /\ ~ server_power s == 0).
  { destruct (Qeq_dec (server_power s1) 0) as [E1|N1]; [|now exists s1].
    exists s2. split; [assumption|]. intros E2. apply Hne.
    now rewrite E1, E2. }
  destruct Hnz as (s & Hin & Hsz).
  repeat split; try assumption.
  unfold get_fan_power_model.
  rewrite (np_polyfit1_full_rank _ _ (server_power s) Hs);
    [reflexivity | now rewrite !length_map | now apply in_map | exact Hsz].
Qed.

Lemma Qsum_scaled (l : list Q) (m : Q) :
  Qsum (map (fun y => y / m) l) == Qsum l / m.
Proof.
  induction l as [|a t IH]; cbn [map Qsum].
  - unfold Qdiv. ring.
  - rewrite IH. unfold Qdiv. ring.
Qed.

Lemma Qdotq_scaled (x l : list Q) (m : Q) :
  Qsum (map (fun p => fst p * snd p) (combine x (map (fun y => y / m) l)))
  == Qsum (map (fun p => fst p * snd p) (combine x l)) / m.
Proof.
  revert l. induction x as [|a t IH]; intros [|y l]; cbn [map combine Qsum fst snd];
    try (unfold Qdiv; ring).
  rewrite IH. unfold Qdiv. ring.
Qed.

(** Normalizing by the largest fan power only rescales the fit: slope and
    intercept of the normalized model are those of the plain model divided
    by that maximum. *)
Theorem normalized_fit_is_scaled_fit (df : list fan_sample) (s1 s2 : fan_sample)
    (m : Q) (plot : bool) :
  In s1 df -> In s2 df -> ~ server_power s1 == server_power s2 ->
  series_max (map fan_power df) = Fin m -> ~ m == 0 ->
  exists slope intercept slope' intercept',
    get_fan_power_model df plot false = Ok (Fin slope, Fin intercept)
    /\ get_fan_power_model df plot true = Ok (Fin slope', Fin intercept')
    /\ slope' == slope / m /\ intercept' == intercept / m.
Proof.
  intros H1 H2 Hne Hmax Hm.
  destruct (fit_of_distinct_samples df s1 s2 plot H1 H2 Hne) as (Hs & Hn & Hfit).
  assert (Hnz : exists s, In s df /\ ~ server_power s == 0).
  { destruct (Qeq_dec (server_power s1) 0) as [E1|N1]; [|now exists s1].
    exists s2. split; [assumption|]. intros E2. apply Hne.
    now rewrite E1, E2. }
  destruct Hnz as (s & Hin & Hsz).
  assert (Hnorm : get_fan_power_model df plot true
                  = np_polyfit1 (map server_power df)
                      (map Fin (map (fun y => y / m) (map fan_power df)))).
  { unfold get_fan_power_model. rewrite Hmax.
    rewrite (map_map (fun y => y / m) Fin).
    rewrite (map_ext (fun y => fdiv (Fin y) (Fin m)) (fun y => Fin (y / m)))
      by (intros y; now apply fdiv_finite).
    destruct (np_polyfit1 _ _) as [[sl ic]|e]; reflexivity. }
  rewrite (np_polyfit1_full_rank _ _ (server_power s) Hs) in Hnorm;
    [| now rewrite !length_map | now apply in_map | exact Hsz].
  eexists. eexists. eexists. eexists.
  split; [exact Hfit|]. split; [exact Hnorm|].
  rewrite Qsum_scaled, Qdotq_scaled.
  unfold spread in *. rewrite !Qlen_map in *.
  set (n := Qlen df) in *.
  set (sx := Qsum (map server_power df)) in *.
  set (sy := Qsum (map fan_power df)) in *.
  set (sxx := Qsum (map (fun x => x * x) (map server_power df))) in *.
  set (sxy := Qsum (map (fun p => fst p * snd p)
                        (combine (map server_power df) (map fan_power df)))) in *.
  split; field; repeat split; lra.
Qed.

Lemma normalized_fit_is_scaled_fit_witness :
  exists slope intercept slope' intercept',
    get_fan_power_model samples_on_line false false
      = Ok (Fin slope, Fin intercept)
    /\ get_fan_power_model samples_on_line false true
       = Ok (Fin slope', Fin intercept')
    /\ slope' == slope / 110 /\ intercept' == intercept / 110.
Proof.
  apply (normalized_fit_is_scaled_fit samples_on_line (sample 100 20)
           (sample 200 50)).
  - now left.
  - right. now left.
  - discriminate.
  - reflexivity.
  - discriminate.
Defined.

(* ===================================================================== *)
(** ** Table V: the info table, failures and bounds                      *)
(* ===================================================================== *)

Lemma step_savings_Ok_nonzero (frac : option Q) (r sc : ServerCarbon_obj)
    (sd : dict) :
  step_savings frac (Some r) sc = Ok sd -> nonzero_figures r.
Proof.
  unfold step_savings, nonzero_figures.
  cbv [savings_loop info_dict_of getitem dict_get dict_set saving as_num bind
       py_truediv String.eqb Ascii.eqb Bool.eqb].
  destruct (Qeq_bool (get_operational_per_sellable_core r) 0) eqn:Eo;
    [discriminate|].
  destruct (Qeq_bool (get_embodied_per_sellable_core r) 0) eqn:Ee;
    [discriminate|].
  destruct (Qeq_bool (get_carbon_per_sellable_core r) 0) eqn:Ec;
    [discriminate|].
  intros _. repeat split; now apply Qeq_bool_neq.
Qed.


Lemma name_loop_map (f : string -> dict) (configs : list string) :
  name_loop configs (map f configs)
  = Ok (map (fun c => config_first (dict_set (f c) "config"
                                             (PStr (config_name c))))
            configs).
Proof.
  induction configs as [|c cs IH]; [reflexivity|].
  cbn [map name_loop]. rewrite IH. reflexivity.
Qed.

Section StepsOutcomes.

Variable Params : Type.
Variable ServerCarbon : string -> Params -> option string -> ServerCarbon_obj.
Variables (frac : option Q) (to_first : bool) (override_params : Params)
          (carbon_data : option string).

Local Abbreviation sc_of := (fun config => ServerCarbon config override_params carbon_data).
Local Abbreviation info_of := (fun config => info_dict_of (sc_of config)).
Local Abbreviation loop :=
  (steps_loop Params ServerCarbon frac to_first override_params carbon_data).
Local Abbreviation ref_at :=
  (fun (all : list string) (i : nat) =>
     option_map (fun k => sc_of (nth k all EmptyString))
                (reference_index to_first i)).
Local Abbreviation steps :=
  (calculate_steps Params ServerCarbon).
Local Abbreviation turn :=
  (steps_loop_turn Params ServerCarbon frac to_first override_params carbon_data).

Lemma length_snoc {A} (l : list A) (a : A) :
  S (List.length l) = List.length (l ++ [a]).
Proof. rewrite length_app. simpl. lia. Qed.

(** A loop that returns compared every config with a design whose figures
    are all nonzero. *)
Lemma steps_loop_Ok_references (rest done : list string)
    (all_savings : list dict) (out : list dict * list dict) :
  loop (List.length done) rest (map info_of done) all_savings = Ok out ->
  forall j r, (j < List.length rest)%nat ->
    ref_at (done ++ rest) (List.length done + j)%nat = Some r ->
    nonzero_figures r.
Proof.
  revert done all_savings.
  induction rest as [|config rest IH]; intros done all_savings H j r Hj Hr.
  - simpl in Hj. lia.
  - rewrite turn in H.
    destruct (step_savings _ _ _) as [sd|e] eqn:Es; [|discriminate H].
    cbn [bind] in H. destruct j as [|j].
    + rewrite Nat.add_0_r in Hr. rewrite Hr in Es.
      exact (step_savings_Ok_nonzero _ _ _ _ Es).
    + rewrite (length_snoc done config) in H.
      apply (IH _ _ H j r); [simpl in Hj; lia|].
      rewrite <- app_assoc, <- length_snoc. cbn [app].
      replace (S (List.length done) + j)%nat with (List.length done + S j)%nat
        by lia.
      exact Hr.
Qed.



(** What a returned [calculate_steps] holds: the named raw figures, and the
    savings entry of every config. *)
Lemma calculate_steps_Ok_inv (configs : list string)
    (all_info all_savings : list dict) :
  steps configs frac to_first override_params carbon_data
    = Ok (all_info, all_savings) ->
  all_info = map (fun c => named_info c (sc_of c)) configs
  /\ forall i config,
       nth_error configs i = Some config ->
       nth_error all_savings i =
         Some (expected_savings frac (config_name config)
                 (ref_at configs i) (sc_of config)).
Proof.
  unfold calculate_steps. intros H.
  destruct (loop 0%nat configs [] []) as [[oi os]|e] eqn:El; [|discriminate H].
  cbn [bind fst snd] in H.
  apply (steps_loop_spec Params ServerCarbon frac to_first override_params
           carbon_data configs [] []) in El.
  destruct El as (Hi & sds & Hs & Hl & Hnth). cbn [app] in Hi, Hs, Hnth.
  subst oi os. rewrite (name_loop_map info_of) in H. cbn [bind] in H.
  destruct (name_loop configs sds) as [asv|e] eqn:En; [|discriminate H].
  cbn [bind] in H. injection H as <- <-.
  split; [reflexivity|].
  destruct (name_loop_spec _ _ _ Hl En) as (_ & Hout).
  intros i config Hc. rewrite (Hout i config _ Hc (Hnth i config Hc)).
  now rewrite config_first_expected.
Qed.

(** The info table lists, for every config in the input's order, the name
    of the config and then its three raw figures; neither [frac] nor
    [to_first] has a part in it. *)
Theorem all_info_lists_named_raw_figures (configs : list string)
    (all_info all_savings : list dict) :
  steps configs frac to_first override_params carbon_data
    = Ok (all_info, all_savings) ->
  all_info =
    map (fun c =>
           [ ("config"%string, PStr (config_name c));
             ("operational"%string,
              PFloat (get_operational_per_sellable_core (sc_of c)));
             ("embodied"%string,
              PFloat (get_embodied_per_sellable_core (sc_of c)));
             ("carbon"%string,
              PFloat (get_carbon_per_sellable_core (sc_of c))) ])
        configs.
Proof. intros H. now destruct (calculate_steps_Ok_inv _ _ _ H). Qed.

Lemma calculate_steps_Ok_references (configs : list string)
    (out : list dict * list dict) :
  steps configs frac to_first override_params carbon_data = Ok out ->
  forall i r, (i < List.length configs)%nat ->
    ref_at configs i = Some r -> nonzero_figures r.
Proof.
  unfold calculate_steps. intros H i r Hi Hr.
  destruct (loop 0%nat configs [] []) as [lo|e] eqn:El; [|discriminate H].
  exact (steps_loop_Ok_references configs [] [] lo El i r Hi Hr).
Qed.


Lemma pct_saving_bounds (ref v : Q) :
  0 < ref -> 0 <= v <= ref -> (0 <= pct_saving ref v <= 100)%Z.
Proof.
  intros Hr [Hv0 Hv]. unfold pct_saving. apply round_half_even_between.
  change (inject_Z 0) with 0. change (inject_Z 100) with 100. split.
  - apply Qle_shift_div_l; [exact Hr|]. lra.
  - apply Qle_shift_div_r; [exact Hr|]. lra.
Qed.

Lemma pct_saving_same (ref v : Q) :
  ~ ref == 0 -> v == ref -> pct_saving ref v = 0%Z.
Proof.
  intros Hr Hv. unfold pct_saving.
  enough (0 <= round_half_even ((ref - v) * 100 / ref) <= 0)%Z by lia.
  apply round_half_even_between. change (inject_Z 0) with 0.
  assert (H : (ref - v) * 100 / ref == 0) by (rewrite Hv; field; exact Hr).
  rewrite H. split; apply Qle_refl.
Qed.

(** The entry of a config with a reference, spelled out. *)
Lemma savings_entry_with_reference (configs : list string)
    (all_info all_savings : list dict) (i : nat) (config : string)
    (r : ServerCarbon_obj) :
  steps configs frac to_first override_params carbon_data
    = Ok (all_info, all_savings) ->
  nth_error configs i = Some config ->
  ref_at configs i = Some r ->
  let o := pct_saving (get_operational_per_sellable_core r)
                      (get_operational_per_sellable_core (sc_of config)) in
  let e := pct_saving (get_embodied_per_sellable_core r)
                      (get_embodied_per_sellable_core (sc_of config)) in
  let c := pct_saving (get_carbon_per_sellable_core r)
                      (get_carbon_per_sellable_core (sc_of config)) in
  nth_error all_savings i =
    Some [ ("config"%string, PStr (config_name config));
           ("operational"%string, PInt o);
           ("embodied"%string, PInt e);
           ("carbon"%string,
            match frac with
            | None => PInt c
            | Some f => PFloat (inject_Z o * f + inject_Z e * (1 - f))
            end) ].
Proof.
  intros H Hc Hr. cbv zeta.
  destruct (calculate_steps_Ok_inv _ _ _ H) as (_ & Hnth).
  rewrite (Hnth i config Hc), Hr. reflexivity.
Qed.

(** A config that is no worse than its reference in any figure gets a
    saving between 0 and 100 in every column, the blended carbon column
    included when the blend fraction is between 0 and 1. *)
Theorem savings_of_better_config_within_0_100 (configs : list string)
    (all_info all_savings : list dict) (i : nat) (config : string)
    (r : ServerCarbon_obj) :
  steps configs frac to_first override_params carbon_data
    = Ok (all_info, all_savings) ->
  nth_error configs i = Some config ->
  ref_at configs i = Some r ->
  no_worse r (sc_of config) ->
  (forall f, frac = Some f -> 0 <= f <= 1) ->
  exists d o e c,
    nth_error all_savings i = Some d
    /\ dict_get d "operational" = Some (PInt o) /\ (0 <= o <= 100)%Z
    /\ dict_get d "embodied" = Some (PInt e) /\ (0 <= e <= 100)%Z
    /\ metric_is d "carbon" c /\ 0 <= c <= 100.
Proof.
  intros H Hc Hr ((Ho0 & Ho) & (He0 & He) & (Hc0 & Hcc)) Hf.
  pose proof (savings_entry_with_reference _ _ _ i config r H Hc Hr) as Hd.
  cbv zeta in Hd.
  pose proof (pct_saving_bounds _ _ Ho0 Ho) as Bo.
  pose proof (pct_saving_bounds _ _ He0 He) as Be.
  pose proof (pct_saving_bounds _ _ Hc0 Hcc) as Bc.
  set (o := pct_saving (get_operational_per_sellable_core r) _) in *.
  set (e := pct_saving (get_embodied_per_sellable_core r) _) in *.
  set (c := pct_saving (get_carbon_per_sellable_core r) _) in *.
  assert (Qo : 0 <= inject_Z o <= 100).
  { change 0 with (inject_Z 0). change 100 with (inject_Z 100).
    rewrite <- !Zle_Qle. exact Bo. }
  assert (Qe : 0 <= inject_Z e <= 100).
  { change 0 with (inject_Z 0). change 100 with (inject_Z 100).
    rewrite <- !Zle_Qle. exact Be. }
  assert (Qc : 0 <= inject_Z c <= 100).
  { change 0 with (inject_Z 0). change 100 with (inject_Z 100).
    rewrite <- !Zle_Qle. exact Bc. }
  destruct frac as [f|].
  - eexists. exists o, e, (inject_Z o * f + inject_Z e * (1 - f)).
    split; [exact Hd|]. repeat split; try reflexivity; try tauto.
    + eexists. eexists. split; [reflexivity|]. split; reflexivity.
    + destruct (Hf f eq_refl). nra.
    + destruct (Hf f eq_refl). nra.
  - eexists. exists o, e, (inject_Z c).
    split; [exact Hd|]. repeat split; try reflexivity; try tauto.
    eexists. eexists. split; [reflexivity|]. split; reflexivity.
Qed.

(** A config with the figures of its reference saves nothing: its three
    savings are 0, with or without a blend fraction. *)
Theorem same_figures_save_nothing (configs : list string)
    (all_info all_savings : list dict) (i : nat) (config : string)
    (r : ServerCarbon_obj) :
  steps configs frac to_first override_params carbon_data
    = Ok (all_info, all_savings) ->
  nth_error configs i = Some config ->
  ref_at configs i = Some r ->
  same_figures r (sc_of config) ->
  exists d,
    nth_error all_savings i = Some d
    /\ dict_get d "operational" = Some (PInt 0)
    /\ dict_get d "embodied" = Some (PInt 0)
    /\ metric_is d "carbon" 0.
Proof.
  intros H Hc Hr (So & Se & Sc).
  pose proof (savings_entry_with_reference _ _ _ i config r H Hc Hr) as Hd.
  cbv beta zeta in Hd.
  assert (Hnz : nonzero_figures r).
  { apply (calculate_steps_Ok_references configs _ H i r); [|exact Hr].
    apply nth_error_Some. congruence. }
  destruct Hnz as (No & Ne & Nc).
  rewrite (pct_saving_same _ _ No So), (pct_saving_same _ _ Ne Se),
    (pct_saving_same _ _ Nc Sc) in Hd.
  destruct frac as [f|];
    (eexists; split; [exact Hd|]; repeat split;
     eexists; eexists; (split; [reflexivity|]); (split; [reflexivity|])).
  - change (inject_Z 0) with 0. ring.
  - reflexivity.
Qed.

End StepsOutcomes.

Lemma demo_steps_return (configs : list string) (frac : option Q)
    (to_first : bool) :
  exists all_info all_savings,
    calculate_steps unit demo_ServerCarbon configs frac to_first tt None
      = Ok (all_info, all_savings).
Proof.
  destruct (calculate_steps_returns unit demo_ServerCarbon frac to_first tt
              None configs) as [[ai asv] H].
  - intros c _. unfold demo_ServerCarbon.
    destruct (String.eqb c baseline_yaml); repeat split; discriminate.
  - now exists ai, asv.
Defined.

Lemma all_info_lists_named_raw_figures_witness :
  exists all_info all_savings,
    calculate_steps unit demo_ServerCarbon demo_configs None false tt None
      = Ok (all_info, all_savings)
    /\ nth_error all_info 1
       = Some [ ("config"%string, PStr "GreenSKU-Full");
                ("operational"%string, PFloat 8);
                ("embodied"%string, PFloat 15);
                ("carbon"%string, PFloat 23) ].
Proof.
  destruct (demo_steps_return demo_configs None false) as (ai & asv & H).
  exists ai, asv. split; [exact H|].
  rewrite (all_info_lists_named_raw_figures unit demo_ServerCarbon None false
             tt None demo_configs ai asv H).
  reflexivity.
Defined.

(** A baseline with a zero operational figure: the table fails on the
    second config. *)
Example calculate_steps_zero_reference :
  calculate_steps unit zero_op_ServerCarbon demo_configs None true tt None
    = Raise ZeroDivisionError
  /\ exists out,
       calculate_steps unit zero_op_ServerCarbon [baseline_yaml] None true tt
         None = Ok out.
Proof. split; [reflexivity | eexists; reflexivity]. Qed.

Lemma savings_of_better_config_within_0_100_witness :
  exists all_info all_savings d o e c,
    calculate_steps unit demo_ServerCarbon demo_configs (Some (1 # 2)) true tt
      None = Ok (all_info, all_savings)
    /\ nth_error all_savings 1 = Some d
    /\ dict_get d "operational" = Some (PInt o) /\ (0 <= o <= 100)%Z
    /\ dict_get d "embodied" = Some (PInt e) /\ (0 <= e <= 100)%Z
    /\ metric_is d "carbon" c /\ 0 <= c <= 100.
Proof.
  destruct (demo_steps_return demo_configs (Some (1 # 2)) true)
    as (ai & asv & H).
  destruct (savings_of_better_config_within_0_100 unit demo_ServerCarbon
              (Some (1 # 2)) true tt None demo_configs ai asv 1 green_yaml
              demo_baseline H eq_refl eq_refl)
    as (d & o & e & c & Hd).
  - repeat split; discriminate.
  - intros f Hf. injection Hf as <-. split; discriminate.
  - exists ai, asv, d, o, e, c. split; [exact H | exact Hd].
Defined.

Lemma same_figures_save_nothing_witness :
  exists all_info all_savings d,
    calculate_steps unit demo_ServerCarbon [baseline_yaml; baseline_yaml]
      (Some (1 # 2)) false tt None = Ok (all_info, all_savings)
    /\ nth_error all_savings 1 = Some d
    /\ dict_get d "operational" = Some (PInt 0)
    /\ dict_get d "embodied" = Some (PInt 0)
    /\ metric_is d "carbon" 0.
Proof.
  destruct (demo_steps_return [baseline_yaml; baseline_yaml] (Some (1 # 2)) false)
    as (ai & asv & H).
  destruct (same_figures_save_nothing unit demo_ServerCarbon (Some (1 # 2))
              false tt None [baseline_yaml; baseline_yaml] ai asv 1
              baseline_yaml demo_baseline H eq_refl eq_refl)
    as (d & Hd).
  - repeat split; reflexivity.
  - exists ai, asv, d. split; [exact H | exact Hd].
Defined.

(* ===================================================================== *)
(** ** Config names and the entries' key order                           *)
(* ===================================================================== *)

Lemma split_nonempty (c : ascii) (s : string) : split c s <> [].
Proof.
  destruct s as [|a t]; simpl; [discriminate|].
  destruct (Ascii.eqb a c); [discriminate|].
  destruct (split c t); discriminate.
Qed.

Lemma split_without_separator (c : ascii) (s : string) :
  contains c s = false -> split c s = [s].
Proof.
  induction s as [|a t IH]; simpl; [reflexivity|].
  intros H. apply orb_false_iff in H. destruct H as [Ha Ht].
  rewrite Ha, (IH Ht). reflexivity.
Qed.

Lemma split_at_separator (c : ascii) (s1 s2 : string) :
  split c (s1 ++ String c s2)%string = split c s1 ++ split c s2.
Proof.
  induction s1 as [|a t IH]; simpl.
  - now rewrite Ascii.eqb_refl.
  - destruct (Ascii.eqb a c); [now rewrite IH|].
    rewrite IH. destruct (split c t) as [|p ps] eqn:E; [|reflexivity].
    now apply split_nonempty in E.
Qed.

Lemma split_pieces_without (c c' : ascii) (s : string) :
  contains c' s = false ->
  Forall (fun p => contains c' p = false) (split c s).
Proof.
  induction s as [|a t IH]; simpl; intros H.
  - repeat constructor.
  - apply orb_false_iff in H. destruct H as [Ha Ht]. specialize (IH Ht).
    destruct (Ascii.eqb a c).
    + constructor; [reflexivity | exact IH].
    + destruct (split c t) as [|p ps].
      * repeat constructor. simpl. now rewrite Ha.
      * inversion IH as [|? ? Hp Hps]. subst. constructor; [|exact Hps].
        simpl. now rewrite Ha, Hp.
Qed.

Lemma split_pieces_separator_free (c : ascii) (s : string) :
  Forall (fun p => contains c p = false) (split c s).
Proof.
  induction s as [|a t IH]; simpl.
  - repeat constructor.
  - destruct (Ascii.eqb a c) eqn:Ea.
    + constructor; [reflexivity | exact IH].
    + destruct (split c t) as [|p ps].
      * repeat constructor. simpl. now rewrite Ea.
      * inversion IH as [|? ? Hp Hps]. subst. constructor; [|exact Hps].
        simpl. now rewrite Ea, Hp.
Qed.

Lemma last_app_nonempty {A} (l1 l2 : list A) (d : A) :
  l2 <> [] -> last (l1 ++ l2) d = last l2 d.
Proof.
  intros H. induction l1 as [|a t IH]; [reflexivity|].
  cbn [app]. destruct (t ++ l2) eqn:E.
  - destruct t; [cbn in E; congruence | discriminate E].
  - cbn [last]. exact IH.
Qed.

Lemma Forall_last {A} (P : A -> Prop) (l : list A) (d : A) :
  Forall P l -> P d -> P (last l d).
Proof.
  intros F Hd. induction F as [|a t Ha _ IH]; [exact Hd|].
  destruct t; [exact Ha | exact IH].
Qed.

Lemma Forall_hd {A} (P : A -> Prop) (l : list A) (d : A) :
  Forall P l -> P d -> P (hd d l).
Proof. intros F Hd. destruct F; assumption. Qed.

(** The name of a config never holds a slash or a dot, and for a path
    [dir/name.ext] (a plain [name], no slash in [ext]) it is [name],
    whatever the directory; without a directory or without an extension the
    rest is handled alike. *)
Theorem config_name_strips_directory_and_extension :
  (forall config,
     contains "/" (config_name config) = false
     /\ contains "." (config_name config) = false)
  /\ (forall dir name ext,
        contains "/" name = false -> contains "." name = false ->
        contains "/" ext = false ->
        config_name (path_of dir name ext) = name
        /\ config_name (name ++ String "." ext) = name
        /\ config_name (dir ++ String "/" name) = name
        /\ config_name name = name).
Proof.
  split.
  - intros config. unfold config_name.
    set (file := last (split "/" config) EmptyString).
    assert (Hfile : contains "/" file = false).
    { apply Forall_last; [apply split_pieces_separator_free | reflexivity]. }
    split.
    + apply Forall_hd; [now apply split_pieces_without | reflexivity].
    + apply Forall_hd; [apply split_pieces_separator_free | reflexivity].
  - intros dir name ext Hs Hd He.
    assert (Hfile : contains "/" (name ++ String "." ext) = false).
    { clear -Hs He. induction name as [|a t IH]; simpl in *.
      - exact He.
      - apply orb_false_iff in Hs. destruct Hs as [Ha Ht].
        now rewrite Ha, (IH Ht). }
    assert (Hstem : forall file, file = (name ++ String "." ext)%string ->
                      hd EmptyString (split "." file) = name).
    { intros file ->. rewrite split_at_separator.
      now rewrite (split_without_separator _ _ Hd). }
    unfold config_name, path_of. repeat split.
    + rewrite split_at_separator, last_app_nonempty by apply split_nonempty.
      rewrite (split_without_separator _ _ Hfile). now apply Hstem.
    + rewrite (split_without_separator _ _ Hfile). now apply Hstem.
    + rewrite split_at_separator, last_app_nonempty by apply split_nonempty.
      rewrite (split_without_separator _ _ Hs). cbn [last].
      now rewrite (split_without_separator _ _ Hd).
    + rewrite (split_without_separator _ _ Hs). cbn [last].
      now rewrite (split_without_separator _ _ Hd).
Qed.

Example config_name_of_notebook_path :
  config_name "../server_configs/Eval-Configs/GreenSKU-Full.yaml"
  = "GreenSKU-Full"%string.
Proof. reflexivity. Qed.

Lemma dict_get_set (d : dict) (k k' : string) (v : pyval) :
  dict_get (dict_set d k v) k'
  = if String.eqb k k' then Some v else dict_get d k'.
Proof.
  induction d as [|[k0 v0] t IH]; simpl.
  - reflexivity.
  - destruct (String.eqb k0 k) eqn:E0; simpl.
    + apply String.eqb_eq in E0. subst k0.
      destruct (String.eqb k k'); reflexivity.
    + rewrite IH. destruct (String.eqb k0 k') eqn:E1; [|reflexivity].
      apply String.eqb_eq in E1. subst k0.
      destruct (String.eqb k k') eqn:E2; [|reflexivity].
      apply String.eqb_eq in E2. subst k'.
      rewrite String.eqb_refl in E0. discriminate E0.
Qed.

Lemma dict_set_head (d : dict) (k0 k : string) (v0 v : pyval) :
  exists v', hd_error (dict_set ((k0, v0) :: d) k v) = Some (k0, v')
             /\ (v' = v0 \/ (k = k0 /\ v' = v)).
Proof.
  simpl. destruct (String.eqb k0 k) eqn:E.
  - apply String.eqb_eq in E. exists v. split; [reflexivity|]. right. auto.
  - exists v0. split; [reflexivity|]. now left.
Qed.

Section ConfigFirst.

Variable e : dict.

Local Abbreviation step :=
  (fun (acc : dict) (k : string) =>
     match dict_get e k with
     | Some v => dict_set acc k v
     | None => acc
     end).

Lemma rebuilt_lookup (ks : list string) (acc : dict) (k : string) :
  dict_get (fold_left step ks acc) k
  = match dict_get e k with
    | Some v => if in_dec string_dec k ks then Some v else dict_get acc k
    | None => dict_get acc k
    end.
Proof.
  revert acc. induction ks as [|k0 ks IH]; intros acc.
  - simpl. destruct (dict_get e k); reflexivity.
  - cbn [fold_left]. rewrite IH.
    destruct (dict_get e k) as [v|] eqn:Ek.
    + destruct (in_dec string_dec k ks) as [Hin|Hnin];
        destruct (in_dec string_dec k (k0 :: ks)) as [Hin'|Hnin'];
        try reflexivity.
      * exfalso. apply Hnin'. now right.
      * destruct Hin' as [->|Hin']; [|contradiction].
        rewrite Ek, dict_get_set, String.eqb_refl. reflexivity.
      * destruct (dict_get e k0) as [v0|]; [|reflexivity].
        rewrite dict_get_set.
        destruct (String.eqb k0 k) eqn:E0; [|reflexivity].
        apply String.eqb_eq in E0. exfalso. apply Hnin'. now left.
    + destruct (dict_get e k0) as [v0|] eqn:Ek0; [|reflexivity].
      rewrite dict_get_set.
      destruct (String.eqb k0 k) eqn:E0; [|reflexivity].
      apply String.eqb_eq in E0. congruence.
Qed.

Lemma rebuilt_head (ks : list string) (acc : dict) (k0 : string) (v0 : pyval) :
  dict_get e k0 = Some v0 -> hd_error acc = Some (k0, v0) ->
  hd_error (fold_left step ks acc) = Some (k0, v0).
Proof.
  intros Hk. revert acc. induction ks as [|k ks IH]; intros acc Hacc.
  - exact Hacc.
  - cbn [fold_left]. apply IH.
    destruct (dict_get e k) as [v|] eqn:Ek; [|exact Hacc].
    destruct acc as [|[k1 v1] t]; [discriminate Hacc|].
    injection Hacc as -> ->.
    destruct (dict_set_head t k0 k v0 v) as (v' & Hhd & [->|[-> ->]]).
    + exact Hhd.
    + rewrite Hhd. congruence.
Qed.

Lemma dict_get_in_keys (k : string) (v : pyval) :
  dict_get e k = Some v -> In k (map fst e).
Proof.
  induction e as [|[k0 v0] t IH]; simpl; [discriminate|].
  destruct (String.eqb k0 k) eqn:E0.
  - apply String.eqb_eq in E0. now left.
  - intros H. right. now apply IH.
Qed.

Lemma config_first_lookup (k : string) :
  dict_get (config_first e) k = dict_get e k.
Proof.
  unfold config_first. rewrite rebuilt_lookup.
  destruct (dict_get e k) as [v|] eqn:Ek; [|reflexivity].
  destruct (in_dec string_dec k ("config"%string :: map fst e)) as [_|Hn];
    [reflexivity|].
  exfalso. apply Hn. right. exact (dict_get_in_keys k v Ek).
Qed.

Lemma config_first_head (v : pyval) :
  dict_get e "config" = Some v ->
  hd_error (config_first e) = Some ("config"%string, v).
Proof.
  intros Hk. unfold config_first. cbn [fold_left]. rewrite Hk.
  apply rebuilt_head; [exact Hk | reflexivity].
Qed.

End ConfigFirst.

(** Naming an entry and moving the name to the front loses nothing: the
    entry then starts with its ["config"] key, holding the name, and every
    other key reads as before, for any entry whatever its keys. *)
Theorem named_entry_leads_with_config (d : dict) (name : string) :
  let named := config_first (dict_set d "config" (PStr name)) in
  hd_error named = Some ("config"%string, PStr name)
  /\ dict_get named "config" = Some (PStr name)
  /\ forall k, k <> "config"%string -> dict_get named k = dict_get d k.
Proof.
  cbv zeta.
  assert (Hc : dict_get (dict_set d "config" (PStr name)) "config"
               = Some (PStr name)).
  { rewrite dict_get_set. now rewrite String.eqb_refl. }
  split; [|split].
  - now apply config_first_head.
  - now rewrite config_first_lookup.
  - intros k Hk. rewrite config_first_lookup, dict_get_set.
    destruct (String.eqb "config" k) eqn:E; [|reflexivity].
    apply String.eqb_eq in E. congruence.
Qed.

(* ===================================================================== *)
(** ** The carbon-intensity scan                                         *)
(* ===================================================================== *)

Lemma dict_set_set (d : dict) (k : string) (v v' : pyval) :
  dict_set (dict_set d k v) k v' = dict_set d k v'.
Proof.
  induction d as [|[k0 v0] t IH]; simpl.
  - now rewrite String.eqb_refl.
  - destruct (String.eqb k0 k) eqn:E; simpl; rewrite E; [reflexivity|].
    now rewrite IH.
Qed.

Lemma mapM_app {A B} (f : A -> result B) (l1 l2 : list A) :
  mapM f (l1 ++ l2) = (a <- mapM f l1 ;; b <- mapM f l2 ;; Ok (a ++ b)).
Proof.
  induction l1 as [|x t IH]; simpl.
  - destruct (mapM f l2); reflexivity.
  - destruct (f x); simpl; [|reflexivity]. rewrite IH.
    destruct (mapM f t); simpl; [|reflexivity].
    destruct (mapM f l2); reflexivity.
Qed.

Section ScanFacts.

Variable ServerCarbon : string -> dict -> option string -> ServerCarbon_obj.
Variable ServerMaintenance :
  string -> string -> dict -> string -> ServerMaintenance_obj.
Variables (cluster_data : list cluster_row) (EVAL_PARAMS : dict).

Local Abbreviation point :=
  (fresh_point ServerCarbon ServerMaintenance cluster_data EVAL_PARAMS).
Local Abbreviation curve :=
  (fresh_curve ServerCarbon ServerMaintenance cluster_data EVAL_PARAMS).
Local Abbreviation inner :=
  (scan_steps ServerCarbon ServerMaintenance cluster_data).
Local Abbreviation outer :=
  (scan_configs ServerCarbon ServerMaintenance cluster_data).

(** The dictionary differs from [EVAL_PARAMS] at most in the intensity. *)
Local Abbreviation same_but_intensity :=
  (fun params : dict =>
     forall v, dict_set params "emissions_factor" v
               = dict_set EVAL_PARAMS "emissions_factor" v).

Lemma scan_steps_pure (baseline config : string) (steps : list Q)
    (params : dict) (acc : list pyfloat) :
  same_but_intensity params ->
  match mapM (point baseline config) steps with
  | Ok l => exists params',
              inner baseline config steps params acc = Ok (acc ++ l, params')
              /\ same_but_intensity params'
  | Raise e => inner baseline config steps params acc = Raise e
  end.
Proof.
  revert params acc.
  induction steps as [|s rest IH]; intros params acc Hp.
  - cbn [mapM scan_steps]. exists params. now rewrite app_nil_r.
  - cbn [mapM scan_steps]. unfold fresh_point at 1. rewrite (Hp (PFloat s)).
    destruct (process_csv _ _ _ _ _ _ _ _ _ _) as [[out avg]|e];
      cbn [bind snd]; [|reflexivity].
    specialize (IH (dict_set EVAL_PARAMS "emissions_factor" (PFloat s))
                   (acc ++ [avg])).
    destruct (mapM (point baseline config) rest) as [l|e]; cbn [bind].
    + destruct IH as (params' & Hrun & Hp').
      { intros v. apply dict_set_set. }
      exists params'. rewrite Hrun, <- app_assoc. now split.
    + apply IH. intros v. apply dict_set_set.
Qed.

Lemma scan_configs_pure (baseline : string) (configs : list string)
    (steps : list Q) (params : dict) (acc : list trace) :
  same_but_intensity params ->
  match mapM (curve baseline steps) configs with
  | Ok l => exists params',
              outer baseline configs steps params acc = Ok (acc ++ l, params')
              /\ same_but_intensity params'
  | Raise e => outer baseline configs steps params acc = Raise e
  end.
Proof.
  revert params acc.
  induction configs as [|c rest IH]; intros params acc Hp.
  - cbn [mapM scan_configs]. exists params. now rewrite app_nil_r.
  - cbn [mapM scan_configs]. unfold fresh_curve at 1.
    pose proof (scan_steps_pure baseline c steps params [] Hp) as Hin.
    destruct (mapM (point baseline c) steps) as [l|e]; cbn [bind].
    + destruct Hin as (params' & Hrun & Hp'). rewrite Hrun. cbn [bind fst snd app].
      specialize (IH params'
                     (acc ++ [{| trace_config := config_name c;
                                 carbon_savings := l |}]) Hp').
      destruct (mapM (curve baseline steps) rest) as [l'|e]; cbn [bind].
      * destruct IH as (params'' & Hrun' & Hp'').
        exists params''. rewrite Hrun', <- app_assoc. now split.
      * exact IH.
    + rewrite Hin. reflexivity.
Qed.

Lemma scan_is_a_pure_map_aux (plot_configs : list string) (steps : list Q) :
  scan ServerCarbon ServerMaintenance cluster_data plot_configs steps
    EVAL_PARAMS
  = mapM (curve (hd EmptyString plot_configs) steps) (tl plot_configs).
Proof.
  unfold scan.
  pose proof (scan_configs_pure (hd EmptyString plot_configs)
                (tl plot_configs) steps EVAL_PARAMS [] (fun v => eq_refl)) as H.
  destruct (mapM _ (tl plot_configs)) as [l|e].
  - destruct H as (params' & -> & _). reflexivity.
  - rewrite H. reflexivity.
Qed.

(** The scan is a pure map: it returns, for every config after the first
    and in their order, the curve computed on its own from a fresh copy of
    [EVAL_PARAMS] with only the intensity overwritten, one point per step
    in the steps' order; and it fails with the exception of the first point
    that fails.  Overwriting the shared dictionary in place leaves nothing
    behind from one point, or one config, to the next. *)
Theorem scan_is_a_pure_map (plot_configs : list string) (steps : list Q) :
  scan ServerCarbon ServerMaintenance cluster_data plot_configs steps
    EVAL_PARAMS
  = mapM (curve (hd EmptyString plot_configs) steps) (tl plot_configs).
Proof. apply scan_is_a_pure_map_aux. Qed.

Lemma mapM_length {A B} (f : A -> result B) (l : list A) (l' : list B) :
  mapM f l = Ok l' -> List.length l' = List.length l.
Proof.
  intros H. apply mapM_Forall2 in H. symmetry.
  exact (Forall2_length_eq _ _ _ H).
Qed.

(** A scan that returns holds one curve per config after the first, named
    after it, and every curve has one saving per step. *)
Theorem scan_shape (plot_configs : list string) (steps : list Q)
    (traces : list trace) :
  scan ServerCarbon ServerMaintenance cluster_data plot_configs steps
    EVAL_PARAMS = Ok traces ->
  map trace_config traces = map config_name (tl plot_configs)
  /\ Forall (fun t => List.length (carbon_savings t) = List.length steps) traces.
Proof.
  rewrite scan_is_a_pure_map_aux. intros H.
  apply mapM_Forall2 in H.
  induction H as [|c t cs ts Hct _ [IH1 IH2]]; [split; constructor|].
  unfold fresh_curve in Hct.
  destruct (mapM _ steps) as [l|e] eqn:El; [|discriminate Hct].
  cbn [bind] in Hct. injection Hct as <-. cbn [map trace_config]. split.
  - now rewrite IH1.
  - constructor; [|exact IH2]. cbn [carbon_savings].
    exact (mapM_length _ _ _ El).
Qed.

End ScanFacts.

Lemma scan_shape_witness :
  exists traces,
    scan scan_ServerCarbon scan_ServerMaintenance table_10_30 demo_configs
      CI_steps demo_params = Ok traces
    /\ map trace_config traces = ["GreenSKU-Full"; "GreenSKU-CXL"]%string
    /\ Forall (fun t => List.length (carbon_savings t) = 51%nat) traces.
Proof.
  destruct (scan scan_ServerCarbon scan_ServerMaintenance table_10_30
              demo_configs CI_steps demo_params) as [traces|e] eqn:E;
    [|vm_compute in E; discriminate].
  exists traces. split; [reflexivity|].
  exact (scan_shape scan_ServerCarbon scan_ServerMaintenance table_10_30
           demo_params demo_configs CI_steps traces E).
Defined.

(** On the sample catalogue the savings shrink as the intensity grows and
    the (equal) operational carbon comes to dominate. *)
Example scan_first_and_last_point :
  exists first last,
    fresh_point scan_ServerCarbon scan_ServerMaintenance [mk_row 100 20 80]
      demo_params baseline_yaml green_yaml 0 = Ok (Fin first)
    /\ fresh_point scan_ServerCarbon scan_ServerMaintenance [mk_row 100 20 80]
         demo_params baseline_yaml green_yaml (125 # 100) = Ok (Fin last)
    /\ last < first.
Proof.
  vm_compute. eexists. eexists.
  split; [reflexivity | split; [reflexivity | reflexivity]].
Qed.


(* ===================================================================== *)
(** ** Machine numbers: conversions to int                               *)
(* ===================================================================== *)

Lemma wrap64_in_range (z : Z) : Machine.int64 z = true -> Machine.wrap64 z = z.
Proof.
  unfold Machine.int64, Machine.wrap64. intros H.
  apply andb_true_iff in H. destruct H as [Hlo Hhi].
  apply Z.leb_le in Hlo. apply Z.ltb_lt in Hhi.
  change (2 ^ 64)%Z with (2 * 2 ^ 63)%Z.
  set (h := (2 ^ 63)%Z) in *.
  assert (0 < h)%Z by (subst h; reflexivity).
  rewrite Z.mod_small by lia. lia.
Qed.

Lemma add_ceiled_in_range (col : list Z) (a b : Z) :
  Machine.int64 (a + b) = true -> Machine.add_ceiled col a b = (a + b)%Z.
Proof.
  intros H. unfold Machine.add_ceiled.
  destruct (forallb Machine.int64 col); [now apply wrap64_in_range | reflexivity].
Qed.

(** [math.ceil] returns exactly on the finite floats, and then the next
    whole number at or above the float's value. *)
Lemma math_ceil_Ok (x : B64.float) (z : Z) :
  B64.math_ceil x = Ok z <->
  exists q, B64.value x = Some q /\ z = Qceiling q.
Proof.
  unfold B64.math_ceil. destruct (B64.value x) as [q|].
  - split.
    + intros H. injection H as <-. now exists q.
    + intros (q' & Hq & ->). now injection Hq as ->.
  - split; [discriminate|]. intros (q & Hq & _). discriminate Hq.
Qed.

Lemma math_ceil_rounded_up (x : B64.float) (z : Z) :
  B64.math_ceil x = Ok z ->
  exists q, B64.value x = Some q /\ z = Qceiling q /\ rounded_up q z.
Proof.
  intros H. apply math_ceil_Ok in H. destruct H as (q & Hq & ->).
  exists q. repeat split; auto; apply Qceiling_rounded_up.
Qed.

(** An empty cluster has no buffer, whatever the (finite) buffer fraction. *)
Lemma math_ceil_of_no_server (buffer : B64.float) (z : Z) :
  B64.math_ceil (B64.mul (B64.of_int 0) buffer) = Ok z -> z = 0%Z.
Proof.
  destruct buffer as [s|s| |s m e]; cbn; intros H; try discriminate H;
    now injection H as <-.
Qed.

Lemma Forall2_compose {A B C} (P : A -> B -> Prop) (Q : B -> C -> Prop)
    (l : list A) (l' : list B) (l'' : list C) :
  Forall2 P l l' -> Forall2 Q l' l'' ->
  Forall2 (fun a c => exists b, P a b /\ Q b c) l l''.
Proof.
  intros F. revert l''. induction F as [|a b l l' Hab _ IH]; intros l'' G.
  - inversion G. constructor.
  - inversion G as [|b' c l1 l2 Hbc G']; subst. constructor; eauto.
Qed.

Lemma Forall2_map_right {A B C} (P : A -> C -> Prop) (g : B -> C)
    (l : list A) (l' : list B) :
  Forall2 (fun a b => P a (g b)) l l' -> Forall2 P l (map g l').
Proof. intros F. induction F; simpl; constructor; auto. Qed.

Lemma Forall2_same_column {A B C} (P : A -> B -> Prop) (f : A -> C) (g : B -> C)
    (l : list A) (l' : list B) :
  Forall2 P l l' -> (forall a b, P a b -> f a = g b) -> map f l = map g l'.
Proof.
  intros F H. induction F as [|a b l l' Hab _ IH]; simpl; [reflexivity|].
  now rewrite (H a b Hab), IH.
Qed.

Section MachineCluster.

Variable Params : Type.
Variable ServerCarbon :
  string -> Params -> option string -> Machine.ServerCarbon_obj.
Variable ServerMaintenance :
  string -> string -> Params -> string -> ServerMaintenance_obj.

Variables (og_config new_config : string) (params : Params)
          (buffer : B64.float) (data_source_dir : string).

Local Abbreviation og_sc := (ServerCarbon og_config params (Some data_source_dir)).
Local Abbreviation new_sc := (ServerCarbon new_config params (Some data_source_dir)).
Local Abbreviation og_m :=
  (ServerMaintenance og_config afr_yaml params data_source_dir).
Local Abbreviation new_m :=
  (ServerMaintenance new_config afr_yaml params data_source_dir).
Local Abbreviation run :=
  (Machine.process_csv Params ServerCarbon ServerMaintenance).
Local Abbreviation c_og := (Machine.get_per_server_carbon og_sc).
Local Abbreviation c_new := (Machine.get_per_server_carbon new_sc).
Local Abbreviation vc_og := (Machine.get_vcores og_sc).
Local Abbreviation vc_new := (Machine.get_vcores new_sc).
Local Abbreviation filled :=
  (machine_row buffer c_og (get_AFRs og_m) vc_og c_new (get_AFRs new_m) vc_new).
Local Abbreviation sizes := (map OriginalClusterSize).

(** What a returned frame holds, and what the second component is. *)
Lemma machine_process_csv_inv (df : list cluster_row) (weight_cluster : bool)
    (out : list Machine.cluster_out) (avg : pyfloat) :
  run df og_config new_config params buffer weight_cluster data_source_dir
    = Ok (out, avg) ->
  Forall2 (filled (map Machine.num_og_buffer out)
                  (map Machine.total_num_buffer out)) df out
  /\ Zsum (sizes df) <> 0%Z
  /\ np_average (map Machine.perc_saved_carbon out) (sizes df)
       = Ok (if weight_cluster then avg
             else fdiv (fsum (map (fun aw => fmul (fst aw) (Fin (inject_Z (snd aw))))
                                  (combine (map Machine.perc_saved_carbon out)
                                           (sizes df))))
                       (Fin (inject_Z (Zsum (sizes df)))))
  /\ (weight_cluster = false ->
      avg = series_mean (map Machine.perc_saved_carbon out)).
Proof.
  unfold Machine.process_csv.
  match goal with |- bind (mapM ?f _) _ = _ -> _ => set (first := f) end.
  destruct (mapM first df) as [w1|e] eqn:E1; cbn [bind]; [|discriminate].
  match goal with |- bind (mapM ?f _) _ = _ -> _ => set (second := f) end.
  destruct (mapM second w1) as [w2|e] eqn:E2; cbn [bind]; [|discriminate].
  match goal with |- context [map ?g w2] => set (fill := g) end.
  apply mapM_Forall2 in E1, E2.
  assert (Hc1 : map snd w1 = map Machine.num_og_buffer (map fill w2)).
  { rewrite map_map.
    apply (Forall2_same_column _ _ _ _ _ E2).
    intros x y Hxy. unfold second in Hxy.
    destruct (B64.math_ceil _); [|discriminate Hxy].
    cbn [bind] in Hxy. injection Hxy as <-. reflexivity. }
  assert (Hc2 : map snd w2 = map Machine.total_num_buffer (map fill w2)).
  { rewrite map_map. reflexivity. }
  assert (Hrows : Forall2 (filled (map Machine.num_og_buffer (map fill w2))
                                  (map Machine.total_num_buffer (map fill w2)))
                          df (map fill w2)).
  { apply Forall2_map_right. rewrite <- Hc1, <- Hc2.
    eapply Forall2_impl; [|exact (Forall2_compose _ _ _ _ _ E1 E2)].
    intros r y (x & Hrx & Hxy). unfold first in Hrx. unfold second in Hxy.
    destruct (B64.math_ceil (Machine.times_float _ _)) as [b|] eqn:Eb;
      [|discriminate Hrx].
    cbn [bind] in Hrx. injection Hrx as <-. cbn [fst snd] in Hxy.
    destruct (B64.math_ceil (Machine.mixed_buffer _ _ _ _)) as [t|] eqn:Et;
      [|discriminate Hxy].
    cbn [bind] in Hxy. injection Hxy as <-.
    unfold machine_row, fill. cbn [fst snd Machine.row Machine.num_buffer
      Machine.num_og_buffer Machine.start_og_carbon Machine.total_num_buffer
      Machine.total_carbon Machine.perc_saved_carbon].
    repeat split; auto. }
  assert (Hw : map (fun o => OriginalClusterSize (Machine.row o)) (map fill w2)
               = sizes df).
  { symmetry. apply (Forall2_same_column _ _ _ _ _ Hrows).
    intros r o (-> & _). reflexivity. }
  rewrite Hw. unfold np_average.
  destruct (Z.eqb_spec (Zsum (sizes df)) 0) as [E|NE]; cbn [bind];
    [discriminate|].
  destruct weight_cluster; intros H; injection H as <- <-;
    repeat split; auto; discriminate.
Qed.


Lemma Forall2_In_right {A B} (P : A -> B -> Prop) (l : list A) (l' : list B)
    (b : B) :
  Forall2 P l l' -> In b l' -> exists a, In a l /\ P a b.
Proof.
  intros F. induction F as [|a0 b0 l l' H0 _ IH]; intros Hin; [contradiction|].
  destruct Hin as [<-|Hin].
  - exists a0. split; [now left | exact H0].
  - destruct (IH Hin) as (a & Ha & Hab). exists a. split; [now right | exact Hab].
Qed.

(** A run returns as soon as both buffers of every row are finite and the
    weights do not cancel. *)
Lemma machine_process_csv_returns (df : list cluster_row) (weight_cluster : bool) :
  (forall r, In r df ->
     exists b t,
       B64.math_ceil (B64.mul (B64.of_int (OriginalClusterSize r)) buffer) = Ok b
       /\ B64.math_ceil (Machine.mixed_buffer vc_og vc_new buffer r) = Ok t) ->
  Zsum (sizes df) <> 0%Z ->
  exists out avg,
    run df og_config new_config params buffer weight_cluster data_source_dir
      = Ok (out, avg).
Proof.
  intros Hrows Hw. unfold Machine.process_csv.
  match goal with |- context [mapM ?f df] => set (first := f) end.
  destruct (mapM_total first df) as [w1 E1].
  { intros r Hr. destruct (Hrows r Hr) as (b & _ & Hb & _). unfold first.
    unfold Machine.times_float, Machine.to_float. rewrite Hb. cbn [bind].
    eexists; reflexivity. }
  rewrite E1. cbn [bind].
  match goal with |- context [mapM ?f w1] => set (second := f) end.
  pose proof (mapM_Forall2 _ _ _ E1) as F1.
  destruct (mapM_total second w1) as [w2 E2].
  { intros x Hx. destruct (Forall2_In_right _ _ _ _ F1 Hx) as (r & Hr & Hrx).
    destruct (Hrows r Hr) as (b & t & Hb & Ht). unfold first in Hrx.
    unfold Machine.times_float, Machine.to_float in Hrx. rewrite Hb in Hrx.
    cbn [bind] in Hrx. injection Hrx as <-. unfold second. cbn [fst snd].
    rewrite Ht. cbn [bind]. eexists; reflexivity. }
  rewrite E2. cbn [bind].
  pose proof (mapM_Forall2 _ _ _ E2) as F2.
  match goal with |- context [map ?g w2] => set (fill := g) end.
  assert (Hs : map (fun o => OriginalClusterSize (Machine.row o)) (map fill w2)
               = sizes df).
  { rewrite map_map. symmetry.
    apply (Forall2_same_column _ _ _ _ _ (Forall2_compose _ _ _ _ _ F1 F2)).
    intros r y (x & Hrx & Hxy). unfold first in Hrx. unfold second in Hxy.
    destruct (B64.math_ceil (Machine.times_float _ _)); [|discriminate Hrx].
    cbn [bind] in Hrx. injection Hrx as <-. cbn [fst snd] in Hxy.
    destruct (B64.math_ceil (Machine.mixed_buffer _ _ _ _)); [|discriminate Hxy].
    cbn [bind] in Hxy. injection Hxy as <-. reflexivity. }
  rewrite Hs. unfold np_average.
  destruct (Z.eqb_spec (Zsum (sizes df)) 0) as [E|_]; [contradiction|].
  cbn [bind]. destruct weight_cluster; eexists; eexists; reflexivity.
Qed.

(** C2 (as the code has it): the baseline-only growth buffer of every row
    is the ceiling of the float the notebook stores in ['num_buffer'], the
    binary64 product of the cluster size and the buffer fraction: a whole
    number, the least one at or above that product.  For a size of 95 and a
    fraction of 0.1 it is 10. *)
Theorem C2_buffer_is_ceiling_of_binary64_product (df : list cluster_row)
    (weight_cluster : bool) (out : list Machine.cluster_out) (avg : pyfloat) :
  run df og_config new_config params buffer weight_cluster data_source_dir
    = Ok (out, avg) ->
  Forall2 (fun r o =>
             let product := B64.mul (B64.of_int (OriginalClusterSize r)) buffer in
             Machine.num_buffer o = product
             /\ (exists q, B64.value product = Some q
                           /\ Machine.num_og_buffer o = Qceiling q
                           /\ rounded_up q (Machine.num_og_buffer o))
             /\ (OriginalClusterSize r = 95%Z -> buffer = decimal 1 1 ->
                 Machine.num_og_buffer o = 10%Z))
          df out.
Proof.
  intros H. apply machine_process_csv_inv in H. destruct H as (Hrows & _).
  eapply Forall2_impl; [|exact Hrows].
  intros r o (_ & Hn & Hb & _). cbv zeta. rewrite Hn in Hb.
  split; [exact Hn|]. split; [exact (math_ceil_rounded_up _ _ Hb)|].
  intros Hr Hbuf. rewrite Hr, Hbuf in Hb.
  remember (Machine.num_og_buffer o) as z eqn:Ez. clear Ez.
  vm_compute in Hb. now injection Hb as <-.
Qed.

(** C3 (as the code has it): the mixed-cluster buffer of every row is the
    ceiling of the float [(nb * cores(baseline) + ng * cores(alternative))
    * b / cores(baseline)], evaluated left to right: with integer core
    counts the core total is an int64 (exact unless it overflows), and the
    product and the quotient are rounded to binary64.  The mixed total
    charges the retained baseline servers and the whole buffer at the
    baseline's carbon and overhead, the alternative servers at their own. *)
Theorem C3_mixed_buffer_and_total_on_machine_numbers (df : list cluster_row)
    (weight_cluster : bool) (out : list Machine.cluster_out) (avg : pyfloat) :
  run df og_config new_config params buffer weight_cluster data_source_dir
    = Ok (out, avg) ->
  Forall2 (fun r o =>
             let nb := NewClusterSize_Baseline r in
             let ng := NewClusterSize_GreenSKU r in
             let t := Machine.total_num_buffer o in
             let quotient := Machine.mixed_buffer vc_og vc_new buffer r in
             (exists q, B64.value quotient = Some q
                        /\ t = Qceiling q /\ rounded_up q t)
             /\ (forall a a',
                   vc_og = Machine.PyInt a -> vc_new = Machine.PyInt a' ->
                   quotient =
                     B64.div
                       (B64.mul
                          (B64.of_int
                             (Machine.wrap64 (Machine.wrap64 (nb * a)
                                              + Machine.wrap64 (ng * a'))))
                          buffer)
                       (B64.of_int a)
                   /\ (Machine.int64 (nb * a) = true ->
                       Machine.int64 (ng * a') = true ->
                       Machine.int64 (nb * a + ng * a') = true ->
                       quotient =
                         B64.div (B64.mul (B64.of_int (nb * a + ng * a')) buffer)
                                 (B64.of_int a)))
             /\ (forall f f',
                   vc_og = Machine.PyFloat f -> vc_new = Machine.PyFloat f' ->
                   quotient =
                     B64.div
                       (B64.mul (B64.add (B64.mul (B64.of_int nb) f)
                                         (B64.mul (B64.of_int ng) f'))
                                buffer)
                       f)
             /\ Machine.total_carbon o =
                  inject_Z (Machine.add_ceiled (map Machine.total_num_buffer out)
                              nb t)
                  * c_og * (1 + get_AFRs og_m)
                  + inject_Z ng * c_new * (1 + get_AFRs new_m)
             /\ (Machine.int64 (nb + t) = true ->
                 Machine.total_carbon o ==
                   (inject_Z nb + inject_Z t) * c_og * (1 + get_AFRs og_m)
                   + inject_Z ng * c_new * (1 + get_AFRs new_m)))
          df out.
Proof.
  intros H. apply machine_process_csv_inv in H. destruct H as (Hrows & _).
  eapply Forall2_impl; [|exact Hrows].
  intros r o (_ & _ & _ & _ & Hb & Ht & _). cbv zeta.
  split; [exact (math_ceil_rounded_up _ _ Hb)|].
  split; [|split; [|split; [exact Ht|]]].
  - intros a a' Ea Ea'. rewrite Ea, Ea'. split; [reflexivity|].
    intros H1 H2 H3. unfold Machine.mixed_buffer, Machine.times, Machine.plus,
      Machine.times_float, Machine.over, Machine.to_float, Machine.num_to_float.
    rewrite (wrap64_in_range _ H1), (wrap64_in_range _ H2),
      (wrap64_in_range _ H3). reflexivity.
  - intros f f' Ef Ef'. rewrite Ef, Ef'. reflexivity.
  - intros Hr. rewrite Ht, (add_ceiled_in_range _ _ _ Hr), inject_Z_plus.
    reflexivity.
Qed.


Lemma math_ceil_same (x : B64.float) (z z' : Z) :
  B64.math_ceil x = Ok z -> B64.math_ceil x = Ok z' -> z = z'.
Proof. intros H H'. rewrite H in H'. now injection H'. Qed.

(** C5 (as the code has it): on a non-empty table with non-negative sizes,
    replacing the baseline by a design with the same per-server carbon,
    failure rate and core count, with [nb + ng = n] in every row, saves 0%
    in every row and in both rollups, provided the two growth buffers of
    every row come out equal (they are ceilings of two differently rounded
    floats), no integer sum overflows and the baseline total is nonzero. *)
Theorem C5_identity_saves_nothing_when_buffers_agree (df : list cluster_row)
    (weight_cluster : bool) :
  df <> [] ->
  c_new == c_og ->
  get_AFRs new_m == get_AFRs og_m ->
  vc_new = vc_og ->
  (forall r, In r df ->
     (0 <= OriginalClusterSize r)%Z
     /\ (NewClusterSize_Baseline r + NewClusterSize_GreenSKU r
         = OriginalClusterSize r)%Z
     /\ exists z,
          B64.math_ceil (B64.mul (B64.of_int (OriginalClusterSize r)) buffer)
            = Ok z
          /\ B64.math_ceil (Machine.mixed_buffer vc_og vc_og buffer r) = Ok z
          /\ Machine.int64 (OriginalClusterSize r + z) = true
          /\ Machine.int64 (NewClusterSize_Baseline r + z) = true
          /\ ~ inject_Z (OriginalClusterSize r + z) * c_og * (1 + get_AFRs og_m)
               == 0) ->
  exists out avg,
    run df og_config new_config params buffer weight_cluster data_source_dir
      = Ok (out, avg)
    /\ Forall (fun o => feq (Machine.perc_saved_carbon o) (Fin 0)) out
    /\ feq avg (Fin 0).
Proof.
  intros Hne Hc Ha Hvc Hrows.
  assert (Hw : Zsum (sizes df) <> 0%Z).
  { enough (0 < Zsum (sizes df))%Z by lia.
    apply Zsum_pos.
    - destruct df; [congruence | discriminate].
    - apply Forall_map, Forall_forall. intros r Hr.
      destruct (Hrows r Hr) as (Hn & _ & z & Hz & _ & _ & _ & Ht).
      destruct (Z.eq_dec (OriginalClusterSize r) 0) as [E|NE]; [|lia].
      exfalso. apply Ht. rewrite E in Hz |- *.
      apply math_ceil_of_no_server in Hz. subst z. simpl. ring. }
  destruct (machine_process_csv_returns df weight_cluster) as (out & avg & Hrun);
    [|exact Hw|].
  { intros r Hr. destruct (Hrows r Hr) as (_ & _ & z & Hz & Hz' & _).
    exists z, z. rewrite Hvc. split; assumption. }
  exists out, avg. split; [exact Hrun|].
  pose proof (machine_process_csv_inv _ _ _ _ Hrun) as (Hf & _ & Havg & Hmean).
  set (col1 := map Machine.num_og_buffer out) in *.
  set (col2 := map Machine.total_num_buffer out) in *.
  assert (Hz : exists ps, map Machine.perc_saved_carbon out = map Fin ps
                          /\ Forall (fun q => q == 0) ps).
  { clearbody col1 col2. clear Hrun Hw Hne Havg Hmean.
    induction Hf as [|r o df' out' Hro _ IH].
    - exists []. split; [reflexivity | constructor].
    - destruct IH as (ps & Hps & Fps);
        [intros r' Hr'; apply Hrows; now right|].
      destruct (Hrows r (or_introl eq_refl))
        as (_ & Hsum & z & Hz & Hz' & Hr1 & Hr2 & Hnz).
      destruct Hro as (_ & Hn & Hb & Hs & Hb' & Ht & Hp).
      rewrite Hn in Hb. rewrite Hvc in Hb'.
      pose proof (math_ceil_same _ _ _ Hb Hz) as E1.
      pose proof (math_ceil_same _ _ _ Hb' Hz') as E2.
      rewrite E1, (add_ceiled_in_range _ _ _ Hr1) in Hs.
      rewrite E2, (add_ceiled_in_range _ _ _ Hr2) in Ht.
      assert (Hst : Machine.total_carbon o == Machine.start_og_carbon o).
      { rewrite Ht, Hs, <- Hsum, Hc, Ha, !inject_Z_plus. ring. }
      rewrite <- Hs in Hnz.
      exists ((Machine.start_og_carbon o - Machine.total_carbon o) * 100
              / Machine.start_og_carbon o :: ps).
      simpl. split.
      + rewrite Hp, Hps. f_equal. now apply fdiv_finite.
      + constructor; [|exact Fps]. rewrite Hst. field. exact Hnz. }
  destruct Hz as (ps & Hps & Fps). split.
  - clear -Hps Fps. revert out Hps.
    induction Fps as [|q t Hq _ IH]; intros [|o out] Hps; simpl in Hps;
      try discriminate; constructor.
    + injection Hps as Hp _. rewrite Hp. exact Hq.
    + apply IH. now injection Hps.
  - rewrite Hps in Havg, Hmean. destruct weight_cluster.
    + rewrite (np_average_finite ps _ Hw) in Havg. injection Havg as <-.
      simpl. rewrite (Qdot_zero _ _ Fps). reflexivity.
    + rewrite (Hmean eq_refl), series_mean_finite.
      * simpl. rewrite (Qsum_zero _ Fps). reflexivity.
      * intros ->. destruct out; [|discriminate Hps].
        apply Forall2_length_eq in Hf. destruct df; [congruence | discriminate Hf].
Qed.

(** Where a cluster keeps all its baseline servers the percentage saved is
    a matter of the two buffers alone, [(b - t) * 100 / (n + b)] for the
    baseline-only buffer [b] and the mixed buffer [t]: neither the carbon
    figures nor the alternative design enter, and it is 0 exactly when the
    two buffers agree. *)
Theorem untouched_cluster_saving_is_buffer_difference (df : list cluster_row)
    (weight_cluster : bool) (out : list Machine.cluster_out) (avg : pyfloat) :
  run df og_config new_config params buffer weight_cluster data_source_dir
    = Ok (out, avg) ->
  ~ c_og * (1 + get_AFRs og_m) == 0 ->
  Forall (fun o =>
            let n := OriginalClusterSize (Machine.row o) in
            let b := Machine.num_og_buffer o in
            let t := Machine.total_num_buffer o in
            NewClusterSize_Baseline (Machine.row o) = n ->
            NewClusterSize_GreenSKU (Machine.row o) = 0%Z ->
            Machine.int64 (n + b) = true ->
            Machine.int64 (n + t) = true ->
            (n + b)%Z <> 0%Z ->
            exists p,
              Machine.perc_saved_carbon o = Fin p
              /\ p == inject_Z (b - t) * 100 / inject_Z (n + b)
              /\ (p == 0 <-> b = t))
         out.
Proof.
  intros Hrun Hcz.
  pose proof (machine_process_csv_inv _ _ _ _ Hrun) as (Hf & _).
  apply Forall_forall. intros o Ho.
  destruct (Forall2_In_right _ _ _ _ Hf Ho) as (r & _ & Hro).
  destruct Hro as (Hr & _ & _ & Hs & _ & Ht & Hp).
  cbv zeta. rewrite Hr. intros Hnb Hng Hr1 Hr2 Hnz.
  rewrite (add_ceiled_in_range _ _ _ Hr1) in Hs.
  rewrite Hnb, Hng, (add_ceiled_in_range _ _ _ Hr2) in Ht.
  set (k := c_og * (1 + get_AFRs og_m)) in *.
  assert (Hnq : ~ inject_Z (OriginalClusterSize r + Machine.num_og_buffer o) == 0).
  { intros E. apply Hnz. unfold Qeq in E. simpl in E. lia. }
  assert (Hs' : Machine.start_og_carbon o
                == inject_Z (OriginalClusterSize r + Machine.num_og_buffer o) * k).
  { rewrite Hs. unfold k. ring. }
  assert (Ht' : Machine.total_carbon o
                == inject_Z (OriginalClusterSize r + Machine.total_num_buffer o) * k).
  { rewrite Ht. unfold k. change (inject_Z 0) with 0. ring. }
  assert (Hsz : ~ Machine.start_og_carbon o == 0).
  { rewrite Hs'. intros E. apply Qmult_integral in E. tauto. }
  exists ((Machine.start_og_carbon o - Machine.total_carbon o) * 100
          / Machine.start_og_carbon o).
  split; [rewrite Hp; now apply fdiv_finite|].
  assert (Hform : (Machine.start_og_carbon o - Machine.total_carbon o) * 100
                  / Machine.start_og_carbon o
                  == inject_Z (Machine.num_og_buffer o - Machine.total_num_buffer o)
                     * 100
                     / inject_Z (OriginalClusterSize r + Machine.num_og_buffer o)).
  { rewrite Hs', Ht'.
    unfold Z.sub. rewrite !inject_Z_plus, inject_Z_opp.
    rewrite inject_Z_plus in Hnq. field. split; assumption. }
  split; [exact Hform|].
  rewrite Hform. split.
  - intros E.
    assert (E' : inject_Z (Machine.num_og_buffer o - Machine.total_num_buffer o)
                 == 0).
    { set (d := inject_Z (OriginalClusterSize r + Machine.num_og_buffer o)) in *.
      set (a := inject_Z (Machine.num_og_buffer o - Machine.total_num_buffer o)) in *.
      setoid_replace a with (a * 100 / d * (d / 100)) by (field; exact Hnq).
      rewrite E. ring. }
    unfold Qeq in E'. simpl in E'. lia.
  - intros E. rewrite <- E, Z.sub_diag. change (inject_Z 0) with 0. field.
    exact Hnq.
Qed.

End MachineCluster.

(* ===================================================================== *)
(** ** The growth buffers on sample tables                               *)
(* ===================================================================== *)

(** A cluster of 95 servers under a buffer fraction of 0.1. *)
Lemma C2_witness :
  exists out avg,
    machine_process_csv table_95 green_yaml (decimal 1 1) true = Ok (out, avg)
    /\ map Machine.num_og_buffer out = [10%Z].
Proof.
  destruct (machine_process_csv table_95 green_yaml (decimal 1 1) true)
    as [[out avg]|e] eqn:E; [|vm_compute in E; discriminate].
  exists out, avg. split; [reflexivity|].
  pose proof (C2_buffer_is_ceiling_of_binary64_product unit machine_ServerCarbon
                demo_ServerMaintenance baseline_yaml green_yaml tt (decimal 1 1)
                "data" table_95 true out avg E) as F.
  apply Forall2_head in F. destruct F as (o & t & -> & (_ & _ & H95) & Ft).
  inversion Ft. subst. simpl. f_equal. apply H95; reflexivity.
Defined.

(** The buffer is not the ceiling of the exact product.  Ten servers under
    the float 0.1, which is a little above one tenth, get 1 server although
    ten times that float is above 1; a hundred servers under the float 0.07
    get 8 although a hundred times seven hundredths is 7; and a product
    beyond the largest float makes the run fail. *)
Lemma C2_counterexample :
  (exists out avg b,
     machine_process_csv [mk_row 10 10 0] green_yaml (decimal 1 1) false
       = Ok (out, avg)
     /\ map Machine.num_og_buffer out = [1%Z]
     /\ B64.value (decimal 1 1) = Some b
     /\ inject_Z 1 < inject_Z 10 * b
     /\ Qceiling (inject_Z 10 * b) = 2%Z)
  /\ (exists out avg,
        machine_process_csv [mk_row 100 100 0] green_yaml (decimal 7 2) false
          = Ok (out, avg)
        /\ map Machine.num_og_buffer out = [8%Z]
        /\ spec_buffer_og (7 # 100) (mk_row 100 100 0) = 7%Z)
  /\ machine_process_csv [mk_row 2 2 0] green_yaml
       (B64.of_Q (inject_Z (2 ^ 1023))) false = Raise OverflowError.
Proof.
  split; [|split].
  - eexists. eexists. eexists.
    split; [vm_compute; reflexivity|].
    split; [reflexivity|]. split; [vm_compute; reflexivity|].
    split; reflexivity.
  - eexists. eexists. split; [vm_compute; reflexivity|].
    split; reflexivity.
  - vm_compute. reflexivity.
Qed.

Lemma C3_witness :
  exists out avg,
    machine_process_csv table_95 green_yaml (decimal 1 1) true = Ok (out, avg)
    /\ map Machine.total_num_buffer out = [10%Z]
    /\ exists o, hd_error out = Some o /\ Machine.total_carbon o == 205 # 2.
Proof.
  destruct (machine_process_csv table_95 green_yaml (decimal 1 1) true)
    as [[out avg]|e] eqn:E; [|vm_compute in E; discriminate].
  exists out, avg. split; [reflexivity|].
  pose proof (C3_mixed_buffer_and_total_on_machine_numbers unit
                machine_ServerCarbon demo_ServerMaintenance baseline_yaml
                green_yaml tt (decimal 1 1) "data" table_95 true out avg E) as F.
  apply Forall2_head in F.
  destruct F as (o & t & -> & ((q & Hq & Hb & _) & _ & _ & _ & Ht) & Ft).
  inversion Ft. subst t.
  vm_compute in Hq. injection Hq as <-.
  assert (Hb' : Machine.total_num_buffer o = 10%Z) by exact Hb.
  split; [simpl; now rewrite Hb'|].
  exists o. split; [reflexivity|].
  rewrite Ht; [|rewrite Hb'; reflexivity]. rewrite Hb'. reflexivity.
Defined.

(** The mixed buffer is not the ceiling of the exact quotient.  A cluster
    of 300 baseline and 200 alternative servers of 96 cores each, under the
    float 0.07, gets 36 servers where the exact formula gives 35; ten
    servers under the float 0.1 get 1 although the exact quotient is above
    1; and a core total beyond the int64 range wraps around to a negative
    buffer. *)
Lemma C3_counterexample :
  (exists out avg,
     machine_process_csv [mk_row 500 300 200] green_yaml (decimal 7 2) false
       = Ok (out, avg)
     /\ map Machine.total_num_buffer out = [36%Z]
     /\ spec_mixed_buffer (7 # 100) 96 96 (mk_row 500 300 200) = 35%Z)
  /\ (exists out avg b,
        machine_process_csv [mk_row 10 10 0] green_yaml (decimal 1 1) false
          = Ok (out, avg)
        /\ map Machine.total_num_buffer out = [1%Z]
        /\ B64.value (decimal 1 1) = Some b
        /\ spec_mixed_buffer b 96 96 (mk_row 10 10 0) = 2%Z)
  /\ (exists out avg,
        machine_process_csv [mk_row 100 (10 ^ 17) 0] green_yaml (decimal 1 1)
          false = Ok (out, avg)
        /\ map Machine.total_num_buffer out = [(-9215358410114118)%Z]
        /\ spec_mixed_buffer (1 # 10) 96 96 (mk_row 100 (10 ^ 17) 0)
           = (10 ^ 16)%Z).
Proof.
  split; [|split].
  - eexists. eexists. split; [vm_compute; reflexivity|]. split; reflexivity.
  - eexists. eexists. eexists. split; [vm_compute; reflexivity|].
    split; [reflexivity|]. split; [vm_compute; reflexivity|]. reflexivity.
  - eexists. eexists. split; [vm_compute; reflexivity|]. split; reflexivity.
Qed.

(** A table split between two copies of the baseline design, with buffers
    that agree. *)
Lemma C5_witness :
  exists out avg,
    machine_process_csv table_split baseline_yaml (decimal 1 1) true
      = Ok (out, avg)
    /\ Forall (fun o => feq (Machine.perc_saved_carbon o) (Fin 0)) out
    /\ feq avg (Fin 0).
Proof.
  apply (C5_identity_saves_nothing_when_buffers_agree unit machine_ServerCarbon
           demo_ServerMaintenance baseline_yaml baseline_yaml tt (decimal 1 1)
           "data" table_split true).
  - discriminate.
  - reflexivity.
  - reflexivity.
  - reflexivity.
  - intros r [<-|[<-|[]]].
    + split; [vm_compute; discriminate|]. split; [reflexivity|].
      exists 10%Z. split; [vm_compute; reflexivity|].
      split; [vm_compute; reflexivity|]. split; [reflexivity|].
      split; [reflexivity|]. vm_compute. discriminate.
    + split; [vm_compute; discriminate|]. split; [reflexivity|].
      exists 2%Z. split; [vm_compute; reflexivity|].
      split; [vm_compute; reflexivity|]. split; [reflexivity|].
      split; [reflexivity|]. vm_compute. discriminate.
Defined.

(** On the empty table both rollups raise; and a cluster swapped for
    copies of its own design loses 0.19% when its two buffers differ: 35
    servers for 500 under the float 0.07, but 36 for the same 500 servers
    counted by their cores. *)
Lemma C5_counterexample :
  machine_process_csv [] baseline_yaml (decimal 1 1) true
    = Raise ZeroDivisionError
  /\ machine_process_csv [] baseline_yaml (decimal 1 1) false
     = Raise ZeroDivisionError
  /\ forall weight_cluster,
       exists out avg,
         machine_process_csv [mk_row 500 300 200] baseline_yaml (decimal 7 2)
           weight_cluster = Ok (out, avg)
         /\ map Machine.num_og_buffer out = [35%Z]
         /\ map Machine.total_num_buffer out = [36%Z]
         /\ map Machine.perc_saved_carbon out = [Fin (-100 # 535)]
         /\ feq avg (Fin (-100 # 535))
         /\ ~ feq avg (Fin 0).
Proof.
  split; [vm_compute; reflexivity|]. split; [vm_compute; reflexivity|].
  intros [|]; eexists; eexists; (split; [vm_compute; reflexivity|]);
    (split; [reflexivity|]); (split; [reflexivity|]); (split; [reflexivity|]);
    (split; [reflexivity | discriminate]).
Qed.

(** Two untouched clusters under the float 0.07: the first gets 35 and 36
    servers of buffer and loses 100/535 percent, the second gets 8 and 8
    and saves nothing. *)
Lemma untouched_cluster_saving_is_buffer_difference_witness :
  exists out avg o1 o2 p1 p2,
    machine_process_csv [mk_row 500 500 0; mk_row 100 100 0] green_yaml
      (decimal 7 2) true = Ok (out, avg)
    /\ out = [o1; o2]
    /\ Machine.perc_saved_carbon o1 = Fin p1 /\ p1 == - (100 # 535)
    /\ Machine.perc_saved_carbon o2 = Fin p2 /\ p2 == 0.
Proof.
  destruct (machine_process_csv [mk_row 500 500 0; mk_row 100 100 0] green_yaml
              (decimal 7 2) true) as [[out avg]|e] eqn:E;
    [|vm_compute in E; discriminate].
  pose proof (untouched_cluster_saving_is_buffer_difference unit
                machine_ServerCarbon demo_ServerMaintenance baseline_yaml
                green_yaml tt (decimal 7 2) "data" _ true out avg E) as F.
  assert (Hk : ~ 1 * (1 + 0) == 0) by discriminate.
  specialize (F Hk).
  vm_compute in E. injection E as <- <-.
  inversion F as [|o1 t1 H1 F1]. subst. inversion F1 as [|o2 t2 H2 _]. subst.
  destruct H1 as (p1 & Hp1 & Hf1 & _); try reflexivity; [discriminate|].
  destruct H2 as (p2 & Hp2 & Hf2 & _); try reflexivity; [discriminate|].
  eexists. eexists. eexists. eexists. exists p1, p2.
  split; [reflexivity|]. split; [reflexivity|].
  split; [exact Hp1|]. split; [rewrite Hf1; reflexivity|].
  split; [exact Hp2|]. rewrite Hf2. reflexivity.
Defined.

(* ===================================================================== *)
(** ** Table V on machine numbers                                        *)
(* ===================================================================== *)

(** [int(round(x, 0))] returns exactly on the finite floats, and then a
    whole number nearest to the float's value. *)
Lemma int_round_Ok (x : B64.float) (z : Z) :
  B64.int_round x = Ok z ->
  exists q, B64.value x = Some q /\ z = round_half_even q /\ nearest_int q z.
Proof.
  unfold B64.int_round. destruct (B64.value x) as [q|]; [|discriminate].
  intros H. injection H as <-. exists q.
  repeat split. apply round_half_even_nearest.
Qed.

(** The saving of a metric is the rounded binary64 quotient
    [((ref - v) * 100) / ref], each operation rounded in turn. *)
Lemma pct_saving_Ok (ref v : B64.float) (z : Z) :
  Machine.pct_saving ref v = Ok z ->
  B64.is_zero ref = false
  /\ exists q,
       B64.value (B64.div (B64.mul (B64.sub ref v) (B64.of_int 100)) ref)
         = Some q
       /\ z = round_half_even q /\ nearest_int q z.
Proof.
  unfold Machine.pct_saving. destruct (B64.is_zero ref); [discriminate|].
  intros H. split; [reflexivity|]. now apply int_round_Ok.
Qed.

Lemma machine_step_savings_spec (frac : option Q)
    (ref : option Machine.ServerCarbon_obj) (sc : Machine.ServerCarbon_obj)
    (sd : dict) :
  machine_step_savings frac ref sc = Ok sd ->
  exists o e c,
    machine_metric ref Machine.get_operational_per_sellable_core sc = Ok o
    /\ machine_metric ref Machine.get_embodied_per_sellable_core sc = Ok e
    /\ machine_metric ref Machine.get_carbon_per_sellable_core sc = Ok c
    /\ sd = metrics_entry frac o e c.
Proof.
  unfold machine_step_savings, machine_metric, metrics_entry.
  destruct ref as [r|].
  - cbv [Machine.savings_loop Machine.info_dict_of getitem dict_get dict_set
         Machine.saving Machine.as_float bind String.eqb Ascii.eqb Bool.eqb].
    destruct (Machine.pct_saving
                (B64.of_Q (Machine.get_operational_per_sellable_core r)) _)
      as [o|]; [|discriminate].
    destruct (Machine.pct_saving
                (B64.of_Q (Machine.get_embodied_per_sellable_core r)) _)
      as [e|]; [|discriminate].
    destruct (Machine.pct_saving
                (B64.of_Q (Machine.get_carbon_per_sellable_core r)) _)
      as [c|]; [|discriminate].
    cbv [blend getitem dict_get dict_set as_num bind String.eqb Ascii.eqb
         Bool.eqb].
    intros H. exists o, e, c. repeat split.
    destruct frac as [f|]; now injection H as <-.
  - cbv [zero_loop Machine.info_dict_of getitem dict_get dict_set as_num bind
         String.eqb Ascii.eqb Bool.eqb blend].
    intros H. exists 0%Z, 0%Z, 0%Z. repeat split.
    destruct frac as [f|]; now injection H as <-.
Qed.

Lemma config_first_savings_entry (frac : option Q) (name : string)
    (o e c : Z) :
  config_first (dict_set (metrics_entry frac o e c) "config" (PStr name))
  = savings_entry frac name o e c.
Proof. reflexivity. Qed.

Section MachineSteps.

Variable Params : Type.
Variable ServerCarbon :
  string -> Params -> option string -> Machine.ServerCarbon_obj.
Variables (frac : option Q) (to_first : bool) (override_params : Params)
          (carbon_data : option string).

Local Abbreviation sc_of := (fun config => ServerCarbon config override_params carbon_data).
Local Abbreviation info_of := (fun config => Machine.info_dict_of (sc_of config)).
Local Abbreviation loop :=
  (Machine.steps_loop Params ServerCarbon frac to_first override_params
     carbon_data).
Local Abbreviation ref_at :=
  (fun (all : list string) (i : nat) =>
     option_map (fun k => sc_of (nth k all EmptyString))
                (reference_index to_first i)).

Lemma machine_steps_loop_turn (done rest : list string) (config : string)
    (all_savings : list dict) :
  loop (List.length done) (config :: rest) (map info_of done) all_savings
  = (savings_dict <- machine_step_savings frac
                       (ref_at (done ++ config :: rest) (List.length done))
                       (sc_of config) ;;
     loop (S (List.length done)) rest (map info_of (done ++ [config]))
          (all_savings ++ [savings_dict])).
Proof.
  cbn [Machine.steps_loop]. unfold machine_step_savings. rewrite map_app.
  cbn [map].
  destruct done as [|d0 ds].
  - cbn [List.length Nat.ltb Nat.leb reference_index option_map bind].
    case_result blend.
  - assert (Hi : (0 <? List.length (d0 :: ds))%nat = true) by reflexivity.
    rewrite Hi. cbn [List.length reference_index option_map].
    replace (S (List.length ds) - 1)%nat with (List.length ds) by lia.
    set (k := if to_first then 0%nat else List.length ds).
    assert (Hk : (k < List.length (d0 :: ds))%nat).
    { unfold k. destruct to_first; simpl; lia. }
    assert (Hidx : list_index (map info_of (d0 :: ds)) k
                   = Ok (info_of (nth k ((d0 :: ds) ++ config :: rest) EmptyString))).
    { unfold list_index. rewrite nth_error_map.
      rewrite app_nth1 by exact Hk.
      rewrite (nth_error_nth' _ EmptyString Hk). reflexivity. }
    rewrite Hidx. cbn [bind].
    case_result Machine.savings_loop.
Qed.

Lemma machine_steps_loop_spec (rest done : list string)
    (all_savings out_info out_savings : list dict) :
  loop (List.length done) rest (map info_of done) all_savings
    = Ok (out_info, out_savings) ->
  exists sds,
    out_savings = all_savings ++ sds
    /\ List.length sds = List.length rest
    /\ forall j config,
         nth_error rest j = Some config ->
         exists sd,
           nth_error sds j = Some sd
           /\ machine_step_savings frac
                (ref_at (done ++ rest) (List.length done + j)%nat)
                (sc_of config) = Ok sd.
Proof.
  revert done all_savings.
  induction rest as [|config rest IH]; intros done all_savings H.
  - cbn [Machine.steps_loop] in H. injection H as <- <-.
    exists []. rewrite app_nil_r. repeat split.
    intros [|j] c Hc; discriminate Hc.
  - rewrite machine_steps_loop_turn in H.
    destruct (machine_step_savings _ _ _) as [sd|e] eqn:Es; [|discriminate H].
    cbn [bind] in H.
    assert (Hlen : S (List.length done) = List.length (done ++ [config])).
    { rewrite length_app. simpl. lia. }
    rewrite Hlen in H. apply IH in H.
    destruct H as (sds & Hs & Hl & Hnth).
    rewrite <- app_assoc in Hnth. cbn [app] in Hnth.
    exists (sd :: sds). rewrite <- app_assoc in Hs. split; [exact Hs|].
    split; [simpl; now rewrite Hl|].
    intros [|j] c Hc.
    + injection Hc as <-. rewrite Nat.add_0_r. exists sd. now split.
    + simpl in Hc. destruct (Hnth j c Hc) as (sd' & Hsd & Hstep).
      exists sd'. split; [exact Hsd|]. rewrite <- Hlen in Hstep.
      replace (List.length done + S j)%nat with (S (List.length done) + j)%nat
        by lia.
      exact Hstep.
Qed.

(** C10: the savings table has one entry per config; the first config's
    three savings are 0; every later config's savings are
    [int(round((ref - v) * 100 / ref))] per metric, computed on floats
    against the first config under [to_first] and else against the config
    just before; and with a blend fraction [frac] the carbon saving is
    [operational * frac + embodied * (1 - frac)] over the two rounded
    savings. *)
Theorem C10_savings_are_rounded_float_quotients (configs : list string)
    (all_info all_savings : list dict) :
  Machine.calculate_steps Params ServerCarbon configs frac to_first
    override_params carbon_data = Ok (all_info, all_savings) ->
  List.length all_savings = List.length configs
  /\ (forall i config,
        nth_error configs i = Some config ->
        exists o e c,
          machine_metric (ref_at configs i)
            Machine.get_operational_per_sellable_core (sc_of config) = Ok o
          /\ machine_metric (ref_at configs i)
               Machine.get_embodied_per_sellable_core (sc_of config) = Ok e
          /\ machine_metric (ref_at configs i)
               Machine.get_carbon_per_sellable_core (sc_of config) = Ok c
          /\ nth_error all_savings i =
               Some (savings_entry frac (config_name config) o e c))
  /\ (forall d,
        hd_error all_savings = Some d ->
        metric_is d "operational" 0 /\ metric_is d "embodied" 0
        /\ metric_is d "carbon" 0)
  /\ (forall ref v z,
        Machine.pct_saving ref v = Ok z ->
        exists q,
          B64.value (B64.div (B64.mul (B64.sub ref v) (B64.of_int 100)) ref)
            = Some q
          /\ z = round_half_even q /\ nearest_int q z).
Proof.
  unfold Machine.calculate_steps. intros H.
  destruct (loop 0%nat configs [] []) as [[oi os]|e] eqn:El; [|discriminate H].
  cbn [bind fst snd] in H.
  destruct (name_loop configs oi) as [ai|e]; [|discriminate H].
  cbn [bind] in H.
  destruct (name_loop configs os) as [asv|e] eqn:En; [|discriminate H].
  cbn [bind] in H. injection H as <- <-.
  apply (machine_steps_loop_spec configs [] []) in El.
  destruct El as (sds & Hs & Hl & Hnth). cbn [app] in Hs, Hnth. subst os.
  destruct (name_loop_spec _ _ _ Hl En) as (Hlen & Hout).
  assert (Hall : forall i config,
             nth_error configs i = Some config ->
             exists o e c,
               machine_metric (ref_at configs i)
                 Machine.get_operational_per_sellable_core (sc_of config) = Ok o
               /\ machine_metric (ref_at configs i)
                    Machine.get_embodied_per_sellable_core (sc_of config) = Ok e
               /\ machine_metric (ref_at configs i)
                    Machine.get_carbon_per_sellable_core (sc_of config) = Ok c
               /\ nth_error asv i =
                    Some (savings_entry frac (config_name config) o e c)).
  { intros i config Hc. destruct (Hnth i config Hc) as (sd & Hsd & Hstep).
    cbn [List.length Nat.add] in Hstep.
    apply machine_step_savings_spec in Hstep.
    destruct Hstep as (o & e & c & Ho & He & Hcc & ->).
    exists o, e, c. repeat split; try assumption.
    rewrite (Hout i config _ Hc Hsd). now rewrite config_first_savings_entry. }
  split; [exact Hlen|]. split; [exact Hall|]. split.
  - intros d Hd. destruct configs as [|c0 cs].
    + destruct asv; [discriminate Hd | discriminate Hlen].
    + destruct (Hall 0%nat c0 eq_refl) as (o & e & c & Ho & He & Hc & Hn).
      destruct asv as [|d' t]; [discriminate Hd|].
      simpl in Hd, Hn. injection Hd as <-. injection Hn as ->.
      cbn [reference_index option_map machine_metric] in Ho, He, Hc.
      injection Ho as <-. injection He as <-. injection Hc as <-.
      unfold metric_is. repeat split.
      * exists (PInt 0), (inject_Z 0). repeat split; reflexivity.
      * exists (PInt 0), (inject_Z 0). repeat split; reflexivity.
      * destruct frac as [f|].
        -- eexists. eexists. split; [reflexivity|]. split; [reflexivity|].
           simpl. ring.
        -- exists (PInt 0), (inject_Z 0). repeat split; reflexivity.
  - intros ref v z Hz. now apply pct_saving_Ok in Hz.
Qed.

End MachineSteps.

(** On the decimal catalogue the operational saving of the second design
    is 61: the float quotient is a little above 60.5, which the exact
    quotient of the decimal figures equals. *)
Lemma C10_witness :
  exists all_info all_savings d,
    Machine.calculate_steps unit decimal_ServerCarbon demo_configs
      (Some (1 # 2)) true tt None = Ok (all_info, all_savings)
    /\ nth_error all_savings 1 = Some d
    /\ dict_get d "config" = Some (PStr "GreenSKU-Full")
    /\ dict_get d "operational" = Some (PInt 61)
    /\ dict_get d "embodied" = Some (PInt 25)
    /\ metric_is d "carbon" 43
    /\ ((23624 # 100) - (933148 # 10000)) * 100 / (23624 # 100) == 605 # 10.
Proof.
  destruct (Machine.calculate_steps unit decimal_ServerCarbon demo_configs
              (Some (1 # 2)) true tt None) as [[all_info all_savings]|e] eqn:E;
    [|vm_compute in E; discriminate].
  destruct (C10_savings_are_rounded_float_quotients unit decimal_ServerCarbon
              (Some (1 # 2)) true tt None demo_configs all_info all_savings E)
    as (_ & Hnth & _).
  destruct (Hnth 1%nat _ eq_refl) as (o & e & c & Ho & He & Hc & Hd).
  vm_compute in Ho, He. injection Ho as <-. injection He as <-.
  eexists. eexists. eexists. split; [reflexivity|]. split; [exact Hd|].
  repeat split; try reflexivity.
  eexists. eexists. split; [reflexivity|]. split; reflexivity.
Defined.

(* ===================================================================== *)
(** ** The fan-power fit under numpy's rank tolerance                    *)
(* ===================================================================== *)

Lemma sums_of_equal_entries (x0 : Q) (l : list Q) :
  Forall (fun a => a == x0) l ->
  Qsum l == Qlen l * x0
  /\ Qsum (map (fun a => a * a) l) == Qlen l * (x0 * x0).
Proof.
  intros F. induction F as [|a t Ha _ [IH1 IH2]].
  - unfold Qlen. simpl. split; ring.
  - cbn [map Qsum]. rewrite Qlen_cons, IH1, IH2, Ha. split; ring.
Qed.

Lemma spread_of_equal_entries (x0 : Q) (l : list Q) :
  Forall (fun a => a == x0) l -> spread l == 0.
Proof.
  intros F. destruct (sums_of_equal_entries x0 l F) as [H1 H2].
  unfold spread. rewrite H1, H2. ring.
Qed.

(** A positive spread takes two different entries. *)
Lemma spread_pos_two_values (l : list Q) :
  0 < spread l -> exists a b, In a l /\ In b l /\ ~ a == b.
Proof.
  intros Hs. destruct l as [|x0 t].
  - exfalso. unfold spread, Qlen in Hs. simpl in Hs. lra.
  - destruct (Forall_Exists_dec (fun a => a == x0) (fun a => Qeq_dec a x0) t)
      as [F|E].
    + exfalso. rewrite (spread_of_equal_entries x0 (x0 :: t)) in Hs.
      * lra.
      * constructor; [reflexivity | exact F].
    + apply Exists_exists in E. destruct E as (a & Ha & Hne).
      exists a, x0. split; [now right|]. split; [now left | exact Hne].
Qed.

(** Rank 2 means a positive spread: [n * sum x^2 > (sum x)^2]. *)
Lemma lstsq_rank_2_spread (x : list Q) :
  Machine.lstsq_rank x = 2%nat -> 0 < spread x.
Proof.
  unfold Machine.lstsq_rank, spread.
  set (n := Qlen x). set (sx := Qsum x).
  set (sxx := Qsum (map (fun a => a * a) x)).
  set (r := n * Machine.eps).
  destruct (Qle_bool 1 r) eqn:Er; [discriminate|].
  destruct (Qle_bool (n * sxx * _) _) eqn:Ec; [discriminate|]. intros _.
  assert (Hr1 : r < 1).
  { apply Qnot_le_lt. intros H. apply (proj2 (Qle_bool_iff 1 r)) in H.
    rewrite Er in H. discriminate H. }
  assert (Hr0 : 0 <= r).
  { unfold r. apply Qmult_le_0_compat; [|discriminate].
    unfold n, Qlen. apply (inject_Z_nonneg). lia. }
  assert (Hc : sx * sx * ((1 + r * r) * (1 + r * r))
               < n * sxx * ((1 - r * r) * (1 - r * r))).
  { apply Qnot_le_lt. intros H. apply (proj2 (Qle_bool_iff _ _)) in H.
    rewrite Ec in H. discriminate H. }
  assert (Hrr : 0 <= r * r) by (apply Qmult_le_0_compat; assumption).
  assert (Hrr1 : r * r < 1) by nra.
  assert (Hs : 0 <= sx * sx) by apply Qsq_nonneg.
  assert (HA : 0 < (1 - r * r) * (1 - r * r)) by (apply Qsq_pos; lra).
  assert (HB : (1 - r * r) * (1 - r * r) <= (1 + r * r) * (1 + r * r)) by nra.
  set (A := (1 - r * r) * (1 - r * r)) in *.
  set (B := (1 + r * r) * (1 + r * r)) in *.
  assert (H1 : sx * sx * A <= sx * sx * B) by nra.
  assert (H2 : (n * sxx - sx * sx) * A > 0) by lra.
  nra.
Qed.

(** Without spread the rank is 1, as long as the tolerance is below 1. *)
Lemma lstsq_rank_without_spread (x : list Q) :
  spread x == 0 -> Qlen x * Machine.eps < 1 -> Machine.lstsq_rank x = 1%nat.
Proof.
  unfold Machine.lstsq_rank, spread.
  set (n := Qlen x). set (sx := Qsum x).
  set (sxx := Qsum (map (fun a => a * a) x)).
  set (r := n * Machine.eps). intros Hs Hr1.
  destruct (Qle_bool 1 r) eqn:Er.
  { apply Qle_bool_iff in Er. lra. }
  assert (Hr0 : 0 <= r).
  { unfold r. apply Qmult_le_0_compat; [|discriminate].
    unfold n, Qlen. apply (inject_Z_nonneg). lia. }
  assert (Hrr : 0 <= r * r) by (apply Qmult_le_0_compat; assumption).
  assert (Hsq : 0 <= sx * sx) by apply Qsq_nonneg.
  assert (HB : (1 - r * r) * (1 - r * r) <= (1 + r * r) * (1 + r * r)) by nra.
  set (A := (1 - r * r) * (1 - r * r)) in *.
  set (B := (1 + r * r) * (1 + r * r)) in *.
  assert (Hc : n * sxx * A <= sx * sx * B).
  { assert (E : n * sxx == sx * sx) by lra. rewrite E. nra. }
  apply Qle_bool_iff in Hc. now rewrite Hc.
Qed.

Lemma forallb_zero_spread (x : list Q) :
  forallb (fun a => Qeq_bool a 0) x = true -> spread x == 0.
Proof.
  intros H. apply (spread_of_equal_entries 0).
  apply Forall_forall. intros a Ha.
  rewrite forallb_forall in H. now apply Qeq_bool_iff, H.
Qed.

(** At rank 2 the fit is the unique least-squares line. *)
Lemma machine_polyfit_full_rank (x ys : list Q) :
  Machine.lstsq_rank x = 2%nat -> List.length x = List.length ys ->
  Machine.np_polyfit1 x (map Fin ys) =
    Ok (Fin ((Qlen x * Qsum (map (fun p => fst p * snd p) (combine x ys))
              - Qsum x * Qsum ys) / spread x),
        Fin ((Qsum ys
              - (Qlen x * Qsum (map (fun p => fst p * snd p) (combine x ys))
                 - Qsum x * Qsum ys) / spread x * Qsum x) / Qlen x)).
Proof.
  intros Hr Hlen. pose proof (lstsq_rank_2_spread x Hr) as Hs.
  unfold Machine.np_polyfit1.
  destruct x as [|x0 xs].
  { exfalso. unfold spread, Qlen in Hs. simpl in Hs. lra. }
  set (x := x0 :: xs) in *.
  rewrite length_map, Hlen, Nat.eqb_refl. cbn [negb].
  destruct (forallb (fun a => Qeq_bool a 0) x) eqn:Ez.
  { exfalso. rewrite (forallb_zero_spread x Ez) in Hs. lra. }
  rewrite all_finite_map_Fin, Hr. reflexivity.
Qed.

(** At rank 2 the fit returns the least-squares line: its residuals sum to
    zero, with and without the server powers as weights. *)
Lemma fit_at_full_rank_is_least_squares (df : list fan_sample) (plot : bool) :
  Machine.lstsq_rank (map server_power df) = 2%nat ->
  exists slope intercept,
    Machine.get_fan_power_model df plot false = Ok (Fin slope, Fin intercept)
    /\ Qsum (map (residual slope intercept) df) == 0
    /\ Qsum (map (fun s => server_power s * residual slope intercept s) df)
       == 0.
Proof.
  intros Hr. pose proof (lstsq_rank_2_spread _ Hr) as Hs.
  assert (Hn : 0 < Qlen df).
  { apply Qlen_pos. intros ->. unfold spread, Qlen in Hs. simpl in Hs. lra. }
  unfold Machine.get_fan_power_model.
  rewrite (machine_polyfit_full_rank _ _ Hr) by now rewrite !length_map.
  cbn [bind fst snd].
  eexists. eexists. split; [reflexivity|].
  rewrite residual_sum, weighted_residual_sum, Qlen_map.
  unfold spread in *. rewrite !Qlen_map in *.
  set (n := Qlen df) in *.
  set (sx := Qsum (map server_power df)) in *.
  set (sy := Qsum (map fan_power df)) in *.
  set (sxx := Qsum (map (fun a => a * a) (map server_power df))) in *.
  set (sxy := Qsum (map (fun p => fst p * snd p)
                        (combine (map server_power df) (map fan_power df)))) in *.
  split; (field; lra).
Qed.

(** C8 (as the code has it): the fit has no sample-count check of its own.
    On no sample polyfit raises TypeError.  On one sample of nonzero server
    power [lstsq] finds rank 1 and the fit returns a finite slope and
    intercept, those of a line through the sample.  Rank 2, at which both
    coefficients are determined, takes two samples of different server
    power; the fit then returns a finite slope and intercept as well. *)
Theorem C8_fit_by_sample_count_and_rank :
  (forall plot normalized,
     Machine.get_fan_power_model [] plot normalized = Raise TypeError)
  /\ (forall s plot,
        ~ server_power s == 0 ->
        Machine.lstsq_rank [server_power s] = 1%nat
        /\ exists slope intercept,
             Machine.get_fan_power_model [s] plot false
               = Ok (Fin slope, Fin intercept)
             /\ residual slope intercept s == 0)
  /\ (forall df plot,
        Machine.lstsq_rank (map server_power df) = 2%nat ->
        (exists s1 s2,
           In s1 df /\ In s2 df /\ ~ server_power s1 == server_power s2)
        /\ exists slope intercept,
             Machine.get_fan_power_model df plot false
               = Ok (Fin slope, Fin intercept)).
Proof.
  split; [|split].
  - intros plot [|]; reflexivity.
  - intros [x y] plot Hx. simpl in Hx.
    assert (Hr : Machine.lstsq_rank [x] = 1%nat).
    { apply lstsq_rank_without_spread; [|reflexivity].
      unfold spread, Qlen. simpl. ring. }
    split; [exact Hr|].
    unfold Machine.get_fan_power_model, Machine.np_polyfit1.
    cbn [map server_power fan_power List.length Nat.eqb negb forallb andb
         all_finite option_map combine fst snd].
    rewrite (Qeq_bool_false _ _ Hx). cbn [andb]. rewrite Hr.
    cbn [bind fst snd]. eexists. eexists. split; [reflexivity|].
    unfold residual, Qlen. simpl. field. exact Hx.
  - intros df plot Hr.
    pose proof (lstsq_rank_2_spread _ Hr) as Hs. split.
    + destruct (spread_pos_two_values _ Hs) as (a & b & Ha & Hb & Hab).
      apply in_map_iff in Ha, Hb.
      destruct Ha as (s1 & <- & H1). destruct Hb as (s2 & <- & H2).
      now exists s1, s2.
    + destruct (fit_at_full_rank_is_least_squares df plot Hr)
        as (slope & intercept & Hfit & _).
      now exists slope, intercept.
Qed.

Lemma C8_counterexample :
  Machine.get_fan_power_model [sample 1 2] false false
    = Ok (Fin (4 # 4), Fin (4 # 4))
  /\ ~ raised (Machine.get_fan_power_model [sample 1 2] false false).
Proof.
  split; [vm_compute; reflexivity|]. intros [e He]. vm_compute in He.
  discriminate He.
Qed.

(** Two samples at server powers 10^15 and 10^15 + 1 are different but too
    close for the tolerance: the rank is 1, and the answer is the
    minimum-norm one, a slope below 10^-15 and an intercept near 0.75,
    where the line through the two samples has slope 1. *)
Example fit_of_close_abscissae :
  Machine.lstsq_rank [10 ^ 15; 10 ^ 15 + 1] = 1%nat
  /\ exists slope intercept,
       Machine.get_fan_power_model
         [sample (10 ^ 15) 1; sample (10 ^ 15 + 1) 2] false false
         = Ok (Fin slope, Fin intercept)
       /\ 0 < slope < 1 # 10 ^ 15
       /\ 74 # 100 < intercept < 76 # 100.
Proof.
  split; [vm_compute; reflexivity|].
  eexists. eexists. split; [vm_compute; reflexivity|].
  split; split; reflexivity.
Qed.

(** Samples that lie on one line are fitted by exactly that line when
    [lstsq] finds rank 2. *)
Theorem fit_recovers_the_line_at_full_rank (df : list fan_sample) (a b : Q)
    (plot : bool) :
  Machine.lstsq_rank (map server_power df) = 2%nat ->
  (forall s, In s df -> fan_power s == a * server_power s + b) ->
  exists slope intercept,
    Machine.get_fan_power_model df plot false = Ok (Fin slope, Fin intercept)
    /\ slope == a /\ intercept == b.
Proof.
  intros Hr Hline.
  pose proof (lstsq_rank_2_spread _ Hr) as Hs.
  assert (Hn : 0 < Qlen df).
  { apply Qlen_pos. intros ->. unfold spread, Qlen in Hs. simpl in Hs. lra. }
  unfold Machine.get_fan_power_model.
  rewrite (machine_polyfit_full_rank _ _ Hr) by now rewrite !length_map.
  cbn [bind fst snd].
  eexists. eexists. split; [reflexivity|].
  assert (Hres : forall s, In s df -> residual a b s == 0).
  { intros s Hs'. unfold residual. rewrite (Hline s Hs'). ring. }
  pose proof (residual_sum a b df) as Hr1.
  rewrite (Qsum_map_zero _ _ Hres) in Hr1.
  pose proof (weighted_residual_sum a b df) as Hr2.
  rewrite (Qsum_map_zero (fun s => server_power s * residual a b s)) in Hr2.
  2:{ intros s Hs'. rewrite (Hres s Hs'). ring. }
  unfold spread in *. rewrite !Qlen_map in *.
  set (n := Qlen df) in *.
  set (sx := Qsum (map server_power df)) in *.
  set (sy := Qsum (map fan_power df)) in *.
  set (sxx := Qsum (map (fun x => x * x) (map server_power df))) in *.
  set (sxy := Qsum (map (fun p => fst p * snd p)
                        (combine (map server_power df) (map fan_power df)))) in *.
  assert (Hsy : sy == a * sx + n * b) by lra.
  assert (Hsxy : sxy == a * sxx + b * sx) by lra.
  rewrite Hsy, Hsxy. split; field; lra.
Qed.

Lemma fit_recovers_the_line_at_full_rank_witness :
  exists slope intercept,
    Machine.get_fan_power_model samples_on_line false false
      = Ok (Fin slope, Fin intercept)
    /\ slope == 3 # 10 /\ intercept == - 10.
Proof.
  apply (fit_recovers_the_line_at_full_rank samples_on_line).
  - vm_compute. reflexivity.
  - intros s [<-|[<-|[<-|[]]]]; reflexivity.
Defined.

(* ===================================================================== *)
(** ** The reported datacenter figure                                    *)
(* ===================================================================== *)

Section ReportDiscount.

Variable Params : Type.
Variable ServerCarbon :
  string -> Params -> option string -> Machine.ServerCarbon_obj.
Variable ServerMaintenance :
  string -> string -> Params -> string -> ServerMaintenance_obj.

(** C6: the datacenter figure the reporting cells produce is the cluster
    figure they produce, times the blended compute fraction
    [compute_operational * share + compute_embodied * (1 - share)], rounded
    to a whole percent.  [share] is the rack-level operational share of the
    baseline design (the first config, the one the clusters are compared
    with) over 100, the two compute fractions are [0.868 * 0.779] and
    [0.948 * 0.442], and every operation is the float one. *)
Theorem C6_reported_dc_savings_discount_cluster_savings
    (cluster_data : list cluster_row) (baseline full : string)
    (EVAL_PARAMS : Params) (cs dc : Z) :
  Machine.report_savings Params ServerCarbon ServerMaintenance cluster_data
    baseline full EVAL_PARAMS = Ok (cs, dc) ->
  let share :=
    B64.div
      (B64.of_Q (Machine.get_rack_perc_operational
                   (ServerCarbon baseline EVAL_PARAMS None)))
      (B64.of_int 100) in
  let fraction :=
    B64.add (B64.mul Machine.compute_operational share)
            (B64.mul Machine.compute_embodied (B64.sub (B64.of_int 1) share)) in
  (exists out avg,
     Machine.process_csv Params ServerCarbon ServerMaintenance cluster_data
       baseline full EVAL_PARAMS (decimal 1 1) true "../data/carbon_data"
       = Ok (out, avg)
     /\ cluster_savings avg = Ok cs)
  /\ (exists q,
        B64.value (B64.mul (B64.of_int cs) fraction) = Some q
        /\ dc = round_half_even q /\ nearest_int q dc)
  /\ Machine.compute_operational = B64.mul (decimal 868 3) (decimal 779 3)
  /\ Machine.compute_embodied = B64.mul (decimal 948 3) (decimal 442 3).
Proof.
  intros H. cbv zeta. unfold Machine.report_savings in H.
  change (B64.of_Q (1 # 10)) with (decimal 1 1) in H.
  destruct (Machine.process_csv _ _ _ _ _ _ _ _ _ _) as [[out avg]|e];
    cbn [bind snd] in H; [|discriminate].
  destruct (cluster_savings avg) as [cs'|e] eqn:Ecs; cbn [bind] in H;
    [|discriminate].
  destruct (Machine.dc_savings cs' _) as [dc'|e] eqn:Edc; cbn [bind] in H;
    [|discriminate].
  injection H as <- <-.
  split; [exists out, avg; now split|].
  split; [|split; reflexivity].
  unfold Machine.dc_savings in Edc.
  fold (Machine.baseline_operational_fraction
          (ServerCarbon baseline EVAL_PARAMS None)).
  fold (Machine.cluster_dc_fraction (ServerCarbon baseline EVAL_PARAMS None)).
  destruct (B64.of_int cs'); try discriminate Edc;
    now apply int_round_Ok in Edc.
Qed.

End ReportDiscount.

(** On [table_1000], against a baseline whose rack-level carbon is half
    operational, a cluster figure of 10 is reported as 5 at datacenter
    level: ten times a blended fraction just below 0.547594. *)
Lemma C6_witness :
  machine_report table_1000 = Ok (10, 5)%Z
  /\ exists q,
       B64.value (B64.mul (B64.of_int 10)
                    (Machine.cluster_dc_fraction
                       (machine_design 1 (Machine.PyInt 96)))) = Some q
       /\ 5%Z = round_half_even q
       /\ 547593 # 100000 < q < 547595 # 100000.
Proof.
  assert (E : machine_report table_1000 = Ok (10, 5)%Z)
    by (vm_compute; reflexivity).
  split; [exact E|].
  destruct (C6_reported_dc_savings_discount_cluster_savings unit
              machine_ServerCarbon demo_ServerMaintenance table_1000
              baseline_yaml green_yaml tt 10 5 E) as (_ & (q & Hq & Hdc & _) & _).
  exists q. split; [exact Hq|]. split; [exact Hdc|].
  vm_compute in Hq. injection Hq as <-. split; reflexivity.
Defined.

(** The sums of the cluster columns.  A column of ceilings that all fit in 64
    bits is an int64 column and its sum with a size column wraps: the
    largest cluster size and a buffer of two start from a negative number of
    servers.  A ceiling beyond 64 bits makes the column a wider one, and the
    sum stays positive. *)
Example sums_of_cluster_columns :
  (exists o avg,
     machine_process_csv [mk_row (2 ^ 63 - 1) 10 0] green_yaml
       (B64.of_Q (1 # 2 ^ 62)) false = Ok ([o], avg)
     /\ Machine.num_og_buffer o = 2%Z
     /\ Machine.start_og_carbon o == inject_Z (- (2 ^ 63 - 1)))
  /\ (exists o avg,
        machine_process_csv [mk_row 100 100 0] green_yaml
          (B64.of_Q (inject_Z (10 ^ 17))) false = Ok ([o], avg)
        /\ Machine.num_og_buffer o = (10 ^ 19)%Z
        /\ 0 < Machine.start_og_carbon o).
Proof.
  split.
  - eexists. eexists. split; [vm_compute; reflexivity|].
    split; reflexivity.
  - eexists. eexists. split; [vm_compute; reflexivity|].
    split; reflexivity.
Qed.
